(** * Paging core of the datapoints client

    A shallow embedding of [cognite/client/stable/datapoints.py]: the window
    splitting and the fan-out of [DatapointsClient.get_datapoints], the paging
    loop of [DatapointsClient._get_datapoints_helper] and the lockstep pager
    [DatapointsClient.get_multi_time_series_datapoints].

    Python integers are unbounded, so they are [Z].  A Python call that may
    raise returns a [result]; a [while] loop whose termination depends on the
    server is run with fuel and returns [None] when the fuel runs out. *)

From stdpp Require Import base option list strings gmap sorting.
From Stdlib Require Import ZArith Lia Sorting.Sorted.

Open Scope Z_scope.

(** ** Python values and exceptions *)

Inductive exn : Type :=
  | ZeroDivisionError
  | IndexError
  | InvalidGranularity
  | InvalidArgument
  | ValueError
  | OverflowError
  | FetchFailed (cause : string).

Inductive result (A : Type) : Type :=
  | Ok (a : A)
  | Raise (e : exn).
Arguments Ok {A} a.
Arguments Raise {A} e.

#[global] Instance result_ret : MRet result := @Ok.

#[global] Instance result_bind : MBind result := λ A B k r,
  match r with
  | Ok a => k a
  | Raise e => Raise e
  end.

(** [int(a / b)]: true division followed by truncation towards zero.  The
    quotient of two integers of magnitude below 2^53 (millisecond timestamps
    are far below) is truncated exactly, so the float step is left out here;
    [int_float_truediv] below keeps it, and the two agree for a dividend
    below 2^53 in magnitude. *)
Definition int_truediv (a b : Z) : result Z :=
  if b =? 0 then Raise ZeroDivisionError else Ok (a ÷ b).

(** *** [int(a / b)] through the double

    [a / b] on two Python integers is the double nearest to the quotient,
    ties going to the even mantissa ([OverflowError] when that is no finite
    double), and [int] drops the fractional part of it. *)

(** The integer nearest to [n / d] for a positive [d], ties to the even one. *)
Definition round_half_even (n d : Z) : Z :=
  let q := n / d in
  let r := n mod d in
  if 2 * r <? d then q
  else if d <? 2 * r then q + 1
  else if Z.even q then q else q + 1.

(** [a / (b * 2^e)] as a fraction of integers. *)
Definition scaled_quotient (a b e : Z) : Z * Z :=
  if 0 <=? e then (a, b * 2 ^ e) else (a * 2 ^ (- e), b).

(** The exponent of the last bit of the double nearest to [a / b], for
    positive [a] and [b]: the one that leaves 53 bits of mantissa, and -1074
    for the subnormal numbers. *)
Definition double_exponent (a b : Z) : Z :=
  let e := Z.log2 a - Z.log2 b - 52 in
  let '(n, d) := scaled_quotient a b e in
  Z.max (-1074) (if n <? 2 ^ 52 * d then e - 1 else e).

(** The double nearest to [a / b] for positive [a] and [b], as a mantissa
    [m] and an exponent [e]: the double is [m * 2^e]. *)
Definition double_of_quotient (a b : Z) : Z * Z :=
  let e := double_exponent a b in
  let '(n, d) := scaled_quotient a b e in
  (round_half_even n d, e).

(** [int(x)] for the non-negative double [x = m * 2^e]. *)
Definition int_of_double (m e : Z) : Z :=
  if 0 <=? e then m * 2 ^ e else m / 2 ^ (- e).

Definition int_float_truediv (a b : Z) : result Z :=
  if b =? 0 then Raise ZeroDivisionError
  else if a =? 0 then Ok 0
  else
    let '(m, e) := double_of_quotient (Z.abs a) (Z.abs b) in
    if (0 <=? e) && (2 ^ 1024 <=? m * 2 ^ e) then Raise OverflowError
    else Ok (Z.sgn a * Z.sgn b * int_of_double m e).

(** Truth value of an optional string ([if granularity:]). *)
Definition truthy_str (s : option string) : bool :=
  match s with
  | Some s => negb (String.eqb s "")
  | None => false
  end.

(** Truth value of an optional integer ([if dpq.end:], [if kwargs.get("limit"):]). *)
Definition truthy_int (z : option Z) : bool :=
  match z with
  | Some z => negb (z =? 0)
  | None => false
  end.

(** [range(n)] *)
Definition range (n : Z) : list Z := seqZ 0 n.

(** ** Data *)

Inductive dp_value : Type :=
  | NumericValue (v : Z)
  | StringValue (s : string).

(** A datapoint dictionary [{"timestamp": .., "value": ..}]. *)
Record Datapoint : Type := mkDatapoint {
  timestamp : Z;
  value : dp_value
}.

(** A half-open time window [[w_start, w_end)], the dictionary
    [{"start": .., "end": ..}] handed to a worker. *)
Record Window : Type := mkWindow {
  w_start : Z;
  w_end : Z
}.

Definition in_window (w : Window) (t : Z) : Prop := w_start w ≤ t < w_end w.

(** ** Collaborators

    [cognite/client/_utils.py] and [cognite/client/_api_client.py] are not
    part of the sources at hand.  What [datapoints.py] uses of them is taken as
    a parameter: the two [_utils] functions, and the client object [self] with
    its class constants and its transport. *)

Record Utils : Type := mkUtils {
  (** [_utils.granularity_to_ms(granularity)] *)
  granularity_to_ms : string → result Z;
  (** [_utils.round_to_nearest(x, base=..)] *)
  round_to_nearest : Z → Z → result Z
}.

(** What the splitter needs from [round_to_nearest]: for a positive base it
    returns a multiple of the base less than one base away from its argument. *)
Definition rounds_to_adjacent_multiple (r : Z → Z → result Z) : Prop :=
  ∀ x b, 0 < b → ∃ k, r x b = Ok (k * b) ∧ Z.abs (k * b - x) < b.

(** Modelled from the spec: [roundDownToMultiple(value, base)] of section 4.1,
    "returns the largest multiple of base ≤ value; base ≤ 0 is invalid input
    (InvalidArgument)", standing for the missing [_utils.round_to_nearest]. *)
Definition roundDownToMultiple (value base : Z) : result Z :=
  if base <=? 0 then Raise InvalidArgument else Ok (value / base * base).

(** The [params] dictionary of a GET on [/timeseries/data/<name>]. *)
Record Params : Type := mkParams {
  p_aggregates : option (list string);
  p_granularity : option string;
  p_limit : Z;
  p_start : Z;
  p_end : Z;
  p_includeOutsidePoints : bool
}.

Definition set_start (params : Params) (start : Z) : Params :=
  mkParams (p_aggregates params) (p_granularity params) (p_limit params)
           start (p_end params) (p_includeOutsidePoints params).

(** A [DatapointsQuery] object.  [aggregates] is the comma-joined string the
    constructor stores, or [None]. *)
Record DatapointsQuery : Type := mkDatapointsQuery {
  dq_name : string;
  dq_aggregates : option string;
  dq_granularity : option string;
  dq_start : option Z;
  dq_end : option Z;
  dq_limit : option Z
}.

(** [DatapointsQuery.__init__] (lines 42-51), with [start] and [end] already
    in milliseconds. *)
Definition new_DatapointsQuery (name : string)
    (aggregates : option (list string)) (granularity : option string)
    (start end_ limit : option Z) : DatapointsQuery :=
  mkDatapointsQuery name (String.concat "," <$> aggregates) granularity
    (if truthy_int start then start else None)
    (if truthy_int end_ then end_ else None)
    limit.

#[global] Instance DatapointsQuery_inhabited : Inhabited DatapointsQuery :=
  populate (mkDatapointsQuery "" None None None None None).

Definition set_limit (dpq : DatapointsQuery) (limit : Z) : DatapointsQuery :=
  mkDatapointsQuery (dq_name dpq) (dq_aggregates dpq) (dq_granularity dpq)
                    (dq_start dpq) (dq_end dpq) (Some limit).

Definition set_query_start (dpq : DatapointsQuery) (start : Z) : DatapointsQuery :=
  mkDatapointsQuery (dq_name dpq) (dq_aggregates dpq) (dq_granularity dpq)
                    (Some start) (dq_end dpq) (dq_limit dpq).

(** Query objects live in a store and are passed by reference: the list
    [datapoints_queries] and the [items] of the request body hold locations. *)
Definition loc : Type := nat.
Abbreviation heap := (gmap loc DatapointsQuery).

(** Two states of a query object that differ at most in [start]. *)
Definition same_but_start (q q' : DatapointsQuery) : Prop :=
  set_query_start q 0 = set_query_start q' 0.

(** The JSON body of a POST on [/timeseries/dataquery], as it is serialised
    when the request is sent: [b_items] is the content, at that moment, of the
    attribute dictionaries the body refers to. *)
Record Body : Type := mkBody {
  b_items : list DatapointsQuery;
  b_aggregates : option string;
  b_granularity : option string;
  b_start : Z;
  b_includeOutsidePoints : bool;
  b_end : Z
}.

(** The client object.  [_get] stands for the GET request together with the
    decoding of its answer (protobuf or JSON) into the list of datapoints;
    [_post] for the POST request together with the extraction of the
    ["datapoints"] list of every item of the answer. *)
Record Client : Type := mkClient {
  _LIMIT : Z;
  _LIMIT_AGG : Z;
  _num_of_workers : Z;
  _get : string → Params → bool → result (list Datapoint);
  _post : Body → result (list (list Datapoint))
}.

(** [DatapointsResponse({"data": {"items": [{"name": .., "datapoints": ..}]}})] *)
Record DatapointsResponse : Type := mkDatapointsResponse {
  r_name : string;
  r_datapoints : list Datapoint
}.

(** Keyword arguments of [get_datapoints]; [None] is an absent key. *)
Record Kwargs : Type := mkKwargs {
  kw_limit : option Z;
  kw_workers : option Z;
  kw_include_outside_points : option bool;
  kw_protobuf : option bool
}.

#[global] Instance result_fmap : FMap result := λ A B f r,
  match r with
  | Ok a => Ok (f a)
  | Raise e => Raise e
  end.

(** ** The thread pool

    [Pool(n).map(f, args)] submits one task per element of [args], in order,
    and hands back their results in that same order, whatever the order in
    which the workers finish.  [completion] lists the indices of the tasks in
    the order in which they finish; a task whose body is [None] never does.
    Leaving the [with] block waits for every task ([await_all]). *)

Definition pool_map {A B : Type} (completion : list nat) (f : A → option B)
    (args : list A) : list (option B) :=
  foldl (fun futures i =>
           match args !! i with
           | Some a => <[i := f a]> futures
           | None => futures
           end)
        (replicate (length args) None) completion.

Definition await_all {B : Type} (futures : list (option B)) : option (list B) :=
  mapM id futures.

(** [concat_dps = []; [concat_dps.extend(el) for el in datapoints]]: the
    results are taken in order, and the first task that raised re-raises. *)
Fixpoint extend_all (concat_dps : list Datapoint)
    (datapoints : list (result (list Datapoint))) : result (list Datapoint) :=
  match datapoints with
  | [] => Ok concat_dps
  | Ok el :: rest => extend_all (concat_dps ++ el) rest
  | Raise e :: _ => Raise e
  end.

(** ** [DatapointsClient] *)

Section DatapointsClient.

Variable _utils : Utils.
Variable self : Client.

(** [_utils.granularity_to_ms(granularity) if granularity else 1]
    (lines 192-194, 291 and 562). *)
Definition granularity_ms_of (granularity : option string) : result Z :=
  if truthy_str granularity
  then granularity_to_ms _utils (default ""%string granularity)
  else Ok 1.

(** *** Window splitting (lines 196-202 and, verbatim, 647-653) *)

(** [steps = min(num_of_workers, max(1, int(diff / granularity_ms)))] *)
Definition split_steps (diff num_of_workers granularity_ms : Z) : result Z :=
  q ← int_truediv diff granularity_ms;
  Ok (Z.min num_of_workers (Z.max 1 q)).

(** [step_size = _utils.round_to_nearest(int(diff / steps), base=granularity_ms)] *)
Definition split_step_size (diff steps granularity_ms : Z) : result Z :=
  q ← int_truediv diff steps;
  round_to_nearest _utils q granularity_ms.

(** [step_starts] and [args]; the number of steps is returned with them,
    the pool is sized with it. *)
Definition split_windows (start end_ num_of_workers granularity_ms : Z)
  : result (Z * list Window) :=
  let diff := end_ - start in
  steps ← split_steps diff num_of_workers granularity_ms;
  step_size ← split_step_size diff steps granularity_ms;
  let step_starts := (fun i => start + i * step_size) <$> range steps in
  Ok (steps, (fun start => mkWindow start (start + step_size)) <$> step_starts).

(** *** [_get_datapoints_helper] (lines 261-294) *)

(** The loop condition of line 277. *)
Definition keep_paging (datapoints : list (list Datapoint)) (limit : Z)
    (params : Params) : bool :=
  match last datapoints with
  | None => true
  | Some page => Z.of_nat (length page) =? limit
  end && (p_end params >? p_start params).

(** The [while] loop of lines 277-291.  Besides its outcome the loop hands
    back the [params] of the requests it issued, in order. *)
Fixpoint paging_loop (fuel : nat) (name : string) (use_protobuf : bool)
    (granularity : option string) (limit : Z)
    (datapoints : list (list Datapoint)) (params : Params)
  : list Params * option (result (list (list Datapoint))) :=
  match fuel with
  | O => ([], None)
  | S fuel =>
    if keep_paging datapoints limit params then
      match _get self name params use_protobuf with
      | Raise e => ([params], Some (Raise e))
      | Ok res =>
        match last res with
        | None => ([params], Some (Ok datapoints))
        | Some dp =>
          let latest_timestamp := timestamp dp in
          match granularity_ms_of granularity with
          | Raise e => ([params], Some (Raise e))
          | Ok step =>
            let run := paging_loop fuel name use_protobuf granularity limit
                         (datapoints ++ [res])
                         (set_start params (latest_timestamp + step)) in
            (params :: run.1, run.2)
          end
        end
      end
    else ([], Some (Ok datapoints))
  end.

Definition helper_limit (aggregates : option (list string)) : Z :=
  if aggregates is None then _LIMIT self else _LIMIT_AGG self.

Definition helper_params (aggregates : option (list string))
    (granularity : option string) (start end_ : Z)
    (include_outside_points : bool) : Params :=
  mkParams aggregates granularity (helper_limit aggregates) start end_
           include_outside_points.

(** The pages, before they are flattened, with the requests issued. *)
Definition helper_pages (fuel : nat) (name : string)
    (aggregates : option (list string)) (granularity : option string)
    (start end_ : Z) (protobuf include_outside_points : bool)
  : list Params * option (result (list (list Datapoint))) :=
  let use_protobuf := protobuf && bool_decide (aggregates = None) in
  paging_loop fuel name use_protobuf granularity (helper_limit aggregates) []
    (helper_params aggregates granularity start end_ include_outside_points).

Definition _get_datapoints_helper (fuel : nat) (name : string)
    (aggregates : option (list string)) (granularity : option string)
    (start end_ : Z) (protobuf include_outside_points : bool)
  : option (result (list Datapoint)) :=
  fmap (M := result) (fun pages => concat pages) <$>
    (helper_pages fuel name aggregates granularity start end_
                  protobuf include_outside_points).2.

(** *** [_get_datapoints_helper_wrapper] (lines 221-230) *)
Definition _get_datapoints_helper_wrapper (fuel : nat) (args : Window)
    (name : string) (aggregates : option (list string))
    (granularity : option string) (protobuf include_outside_points : bool)
  : option (result (list Datapoint)) :=
  _get_datapoints_helper fuel name aggregates granularity
    (w_start args) (w_end args) protobuf include_outside_points.

(** *** [_get_datapoints_user_defined_limit] (lines 327-348) *)
Definition _get_datapoints_user_defined_limit (name : string)
    (aggregates : option (list string)) (granularity : option string)
    (start end_ limit : Z) (protobuf : option bool)
    (include_outside_points : bool) : result DatapointsResponse :=
  let use_protobuf :=
    match protobuf with
    | Some b => b && bool_decide (aggregates = None)
    | None => false
    end in
  let params := mkParams aggregates granularity limit start end_
                         include_outside_points in
  res ← _get self name params use_protobuf;
  Ok (mkDatapointsResponse name res).

(** *** [get_datapoints] (lines 173-219) *)

(** Lines 188-190. *)
Definition workers_used (kwargs : Kwargs) : Z :=
  let num_of_workers := default (_num_of_workers self) (kw_workers kwargs) in
  if bool_decide (kw_include_outside_points kwargs = Some true) then 1
  else num_of_workers.

(** Lines 187-202: the number of steps and the windows handed to the pool. *)
Definition dispatched_windows (start end_ : Z) (granularity : option string)
    (kwargs : Kwargs) : result (Z * list Window) :=
  granularity_ms ← granularity_ms_of granularity;
  split_windows start end_ (workers_used kwargs) granularity_ms.

(** Lines 204-211. *)
Definition partial_get_dps (fuel : nat) (name : string)
    (aggregates : option (list string)) (granularity : option string)
    (kwargs : Kwargs) (args : Window) : option (result (list Datapoint)) :=
  _get_datapoints_helper_wrapper fuel args name aggregates granularity
    (default true (kw_protobuf kwargs))
    (default false (kw_include_outside_points kwargs)).

(** The requests the worker of one window issues. *)
Definition worker_requests (fuel : nat) (name : string)
    (aggregates : option (list string)) (granularity : option string)
    (kwargs : Kwargs) (args : Window) : list Params :=
  (helper_pages fuel name aggregates granularity (w_start args) (w_end args)
     (default true (kw_protobuf kwargs))
     (default false (kw_include_outside_points kwargs))).1.

Definition get_datapoints (fuel : nat) (completion : list nat) (name : string)
    (start end_ : Z) (aggregates : option (list string))
    (granularity : option string) (kwargs : Kwargs)
  : option (result DatapointsResponse) :=
  if truthy_int (kw_limit kwargs) then
    Some (_get_datapoints_user_defined_limit name aggregates granularity
            start end_ (default 0 (kw_limit kwargs)) (kw_protobuf kwargs)
            (default false (kw_include_outside_points kwargs)))
  else
    match dispatched_windows start end_ granularity kwargs with
    | Raise e => Some (Raise e)
    | Ok (steps, args) =>
      if steps <=? 0 then Some (Raise ValueError)
      else
        datapoints ← await_all
          (pool_map completion
             (partial_get_dps fuel name aggregates granularity kwargs) args);
        Some (concat_dps ← extend_all [] datapoints;
              Ok (mkDatapointsResponse name concat_dps))
    end.

End DatapointsClient.

(** ** [get_multi_time_series_datapoints] (lines 524-573) *)

Section MultiSeries.

Variable _utils : Utils.
Variable self : Client.

(** The test of the counting loop, line 530. *)
Definition counted_as_raw (aggregates : option (list string))
    (dpq : DatapointsQuery) : bool :=
  bool_decide (dq_aggregates dpq = None) && bool_decide (aggregates = None)
  || bool_decide (dq_aggregates dpq = Some ""%string).

(** Lines 527-533: [(num_of_dpqs_with_agg, num_of_dpqs_raw)]. *)
Definition count_queries (aggregates : option (list string)) (h : heap)
    (datapoints_queries : list loc) : Z * Z :=
  foldl (fun counts l =>
           if counted_as_raw aggregates (h !!! l)
           then (counts.1, counts.2 + 1)
           else (counts.1 + 1, counts.2))
        (0, 0) datapoints_queries.

(** The test of the budgeting loop, line 537. *)
Definition budgeted_as_raw (aggregates : option (list string))
    (dpq : DatapointsQuery) : bool :=
  bool_decide (dq_aggregates dpq = None) && bool_decide (aggregates = None).

(** Lines 538 and 540. *)
Definition query_limit (aggregates : option (list string))
    (num_of_dpqs_with_agg num_of_dpqs_raw : Z) (dpq : DatapointsQuery)
  : result Z :=
  if budgeted_as_raw aggregates dpq
  then int_truediv (_LIMIT self) num_of_dpqs_raw
  else int_truediv (_LIMIT_AGG self) num_of_dpqs_with_agg.

(** Lines 536-541: every query object has its [limit] attribute assigned,
    in place.  The store comes back as the loop left it, also when a
    division raises. *)
Fixpoint assign_limits (aggregates : option (list string))
    (num_of_dpqs_with_agg num_of_dpqs_raw : Z)
    (datapoints_queries : list loc) (h : heap) : heap * result unit :=
  match datapoints_queries with
  | [] => (h, Ok ())
  | l :: rest =>
    let dpq := h !!! l in
    match query_limit aggregates num_of_dpqs_with_agg num_of_dpqs_raw dpq with
    | Raise e => (h, Raise e)
    | Ok limit =>
      assign_limits aggregates num_of_dpqs_with_agg num_of_dpqs_raw rest
                    (<[l := set_limit dpq limit]> h)
    end
  end.

(** The body as it goes on the wire: [items] holds references to the
    attribute dictionaries of the query objects, read when the request is
    sent. *)
Definition serialise (h : heap) (items : list loc)
    (aggregates : option (list string)) (granularity : option string)
    (start end_ : Z) (include_outside_points : bool) : Body :=
  mkBody ((fun l => h !!! l) <$> items)
         (String.concat "," <$> aggregates) granularity start
         include_outside_points end_.

(** Lines 558-566 for one query and its page: whether the page keeps the
    loop going, and the query's next [start]. *)
Definition next_start_of (end_ : Z) (granularity : option string)
    (dpq : DatapointsQuery) (dpr : list Datapoint) : result (bool * Z) :=
  if bool_decide (Some (Z.of_nat (length dpr)) = dq_limit dpq) then
    match last dpr with
    | None => Raise IndexError
    | Some dp =>
      let latest_timestamp := timestamp dp in
      let ts_granularity :=
        if dq_granularity dpq is None then granularity
        else dq_granularity dpq in
      step ← granularity_ms_of _utils ts_granularity;
      Ok (true, latest_timestamp + step)
    end
  else
    Ok (false,
        match dq_end dpq with
        | Some query_end => if query_end =? 0 then end_ - 1 else query_end - 1
        | None => end_ - 1
        end).

(** The [for i, dpr in enumerate(res)] loop of lines 556-567. *)
Fixpoint update_cursors (end_ : Z) (granularity : option string)
    (datapoints_queries : list loc) (i : nat) (res : list (list Datapoint))
    (has_incomplete_requests : bool) (h : heap) : heap * result bool :=
  match res with
  | [] => (h, Ok has_incomplete_requests)
  | dpr :: rest =>
    match datapoints_queries !! i with
    | None => (h, Raise IndexError)
    | Some l =>
      let dpq := h !!! l in
      match next_start_of end_ granularity dpq dpr with
      | Raise e => (h, Raise e)
      | Ok (incomplete, next_start) =>
        update_cursors end_ granularity datapoints_queries (S i) rest
          (has_incomplete_requests || incomplete)
          (<[l := set_query_start dpq next_start]> h)
      end
    end
  end.

(** The [while has_incomplete_requests] loop of lines 552-567, with the
    bodies sent, in order. *)
Fixpoint paging_rounds (fuel : nat) (datapoints_queries : list loc)
    (aggregates : option (list string)) (granularity : option string)
    (start end_ : Z) (include_outside_points : bool)
    (datapoints_responses : list (list (list Datapoint))) (h : heap)
  : heap * list Body * option (result (list (list (list Datapoint)))) :=
  match fuel with
  | O => (h, [], None)
  | S fuel =>
    let body := serialise h datapoints_queries aggregates granularity
                          start end_ include_outside_points in
    match _post self body with
    | Raise e => (h, [body], Some (Raise e))
    | Ok res =>
      let datapoints_responses := datapoints_responses ++ [res] in
      match update_cursors end_ granularity datapoints_queries 0 res false h with
      | (h, Raise e) => (h, [body], Some (Raise e))
      | (h, Ok has_incomplete_requests) =>
        if has_incomplete_requests then
          let run := paging_rounds fuel datapoints_queries aggregates
                       granularity start end_ include_outside_points
                       datapoints_responses h in
          (run.1.1, body :: run.1.2, run.2)
        else (h, [body], Some (Ok datapoints_responses))
      end
    end
  end.

(** Lines 571-572 for one response. *)
Fixpoint extend_results (i : nat) (res : list (list Datapoint))
    (results : list DatapointsResponse) : result (list DatapointsResponse) :=
  match res with
  | [] => Ok results
  | ts :: rest =>
    match results !! i with
    | None => Raise IndexError
    | Some r =>
      extend_results (S i) rest
        (<[i := mkDatapointsResponse (r_name r) (r_datapoints r ++ ts)]> results)
    end
  end.

(** Lines 569-573. *)
Fixpoint build_results (datapoints_responses : list (list (list Datapoint)))
    (results : list DatapointsResponse) : result (list DatapointsResponse) :=
  match datapoints_responses with
  | [] => Ok results
  | res :: rest =>
    results ← extend_results 0 res results;
    build_results rest results
  end.

(** The whole call: the store it leaves behind, the bodies it sent, and its
    outcome. *)
Definition get_multi_time_series_datapoints (fuel : nat) (h : heap)
    (datapoints_queries : list loc) (start end_ : Z)
    (aggregates : option (list string)) (granularity : option string)
    (include_outside_points : bool)
  : heap * list Body * option (result (list DatapointsResponse)) :=
  let counts := count_queries aggregates h datapoints_queries in
  match assign_limits aggregates counts.1 counts.2 datapoints_queries h with
  | (h, Raise e) => (h, [], Some (Raise e))
  | (h, Ok _) =>
    let run := paging_rounds fuel datapoints_queries aggregates granularity
                 start end_ include_outside_points [] h in
    let h := run.1.1 in
    (h, run.1.2,
     match run.2 with
     | None => None
     | Some (Raise e) => Some (Raise e)
     | Some (Ok datapoints_responses) =>
       Some (build_results datapoints_responses
               ((fun l => mkDatapointsResponse (dq_name (h !!! l)) [])
                  <$> datapoints_queries))
     end)
  end.

End MultiSeries.

(** ** Properties of windows *)



(** Windows in start order, each ending before the next one starts. *)
Definition ordered_windows (windows : list Window) : Prop :=
  StronglySorted (fun w1 w2 => w_end w1 ≤ w_start w2) windows.

(** Every one of [n] tasks finishes at some point. *)
Definition all_complete (completion : list nat) (n : nat) : Prop :=
  ∀ i, (i < n)%nat → i ∈ completion.

(** ** Properties of pages and servers *)




(** The server only returns points at or after the requested start. *)
Definition respects_start (get : Params → result (list Datapoint)) : Prop :=
  ∀ params res, get params = Ok res →
    Forall (fun dp => p_start params ≤ timestamp dp) res.

(** The requests and the pages of a run of the paging loop that starts with
    [params]: the loop stops before a request, or on an empty page, or goes
    on from the last timestamp of the page plus [step]. *)
Inductive page_chain (get : Params → result (list Datapoint)) (step : Z)
  : Params → list Params → list (list Datapoint) → Prop :=
  | chain_stop params : page_chain get step params [] []
  | chain_empty params :
      get params = Ok [] → page_chain get step params [params] []
  | chain_page params res dp reqs pages :
      get params = Ok res →
      last res = Some dp →
      page_chain get step (set_start params (timestamp dp + step)) reqs pages →
      page_chain get step params (params :: reqs) (res :: pages).

(** Strictly ascending timestamps. *)
Definition ascending (dps : list Datapoint) : Prop :=
  StronglySorted (fun a b => timestamp a < timestamp b) dps.

(** Ceiling of [a / b] for positive [b]. *)
Definition ceil_div (a b : Z) : Z := (a + b - 1) / b.

(** ** Stand-ins for the collaborators, used to run the code *)

(** A table for the granularities the examples use, in place of the missing
    [_utils.granularity_to_ms]. *)
Definition example_granularity_to_ms (granularity : string) : result Z :=
  if String.eqb granularity "1s" then Ok 1000
  else if String.eqb granularity "10s" then Ok 10000
  else if String.eqb granularity "30s" then Ok 30000
  else if String.eqb granularity "60s" then Ok 60000
  else Raise InvalidGranularity.

Definition spec_utils : Utils :=
  mkUtils example_granularity_to_ms roundDownToMultiple.



(** A server that answers a request on a non-empty window with the single
    point at the requested start, and with nothing otherwise. *)
Definition first_point_get (name : string) (params : Params)
    (use_protobuf : bool) : result (list Datapoint) :=
  if p_start params <? p_end params
  then Ok [mkDatapoint (p_start params) (NumericValue 0)]
  else Ok [].

Definition no_post (body : Body) : result (list (list Datapoint)) :=
  Raise (FetchFailed "no dataquery endpoint").

(** The limits and the worker count the docstrings give: at most 100,000
    raw datapoints per request, 10 workers. *)
Definition first_point_client : Client :=
  mkClient 100000 10000 10 first_point_get no_post.

(** The same server behind a client that asks for one point per page, so
    that every page is full. *)
Definition one_per_page_client : Client :=
  mkClient 1 1 10 first_point_get no_post.

(** A server that fails on every request starting at 500000 or later. *)
Definition flaky_get (name : string) (params : Params) (use_protobuf : bool)
  : result (list Datapoint) :=
  if 500000 <=? p_start params then Raise (FetchFailed "connection reset")
  else first_point_get name params use_protobuf.

Definition flaky_client : Client :=
  mkClient 100000 10000 10 flaky_get no_post.

(** A batch server: the series named "long" has one point, at the start of
    the call's window, for a query that has not moved yet; everything else is
    empty. *)
Definition lockstep_post (body : Body) : result (list (list Datapoint)) :=
  Ok ((fun q =>
         if String.eqb (dq_name q) "long" && bool_decide (dq_start q = None)
         then [mkDatapoint (b_start body) (NumericValue 0)]
         else [])
        <$> b_items body).

(** A client whose budget is two points per request. *)
Definition lockstep_client : Client :=
  mkClient 2 2 10 first_point_get lockstep_post.

(** Two raw queries, [DatapointsQuery("short")] and [DatapointsQuery("long")]. *)
Definition two_queries : heap :=
  {[ 0%nat := new_DatapointsQuery "short" None None None None None;
     1%nat := new_DatapointsQuery "long" None None None None None ]}.

(** [DatapointsQuery("raw_ts", aggregates=[])] and
    [DatapointsQuery("agg_ts", aggregates=["avg"])]. *)
Definition raw_and_aggregate : heap :=
  {[ 0%nat := new_DatapointsQuery "raw_ts" (Some []) None None None None;
     1%nat := new_DatapointsQuery "agg_ts" (Some ["avg"%string]) None None None None ]}.

(** Two raw queries after budgeting, one point per page each; the first one
    declares its own end, 200. *)
Definition budgeted_queries : heap :=
  {[ 0%nat := set_limit (new_DatapointsQuery "short" None None None (Some 200) None) 1;
     1%nat := set_limit (new_DatapointsQuery "long" None None None None None) 1 ]}.

(** The batch server behind the limits the docstrings give. *)
Definition batch_client : Client :=
  mkClient 100000 10000 10 first_point_get lockstep_post.

(** [DatapointsQuery("raw_ts", aggregates=[])] alone. *)
Definition one_raw_query : heap :=
  {[ 0%nat := new_DatapointsQuery "raw_ts" (Some []) None None None None ]}.

(** ** More stand-ins for the batch server *)

(** A batch server that answers with one empty page more than it was asked
    for. *)
Definition extra_item_post (body : Body) : result (list (list Datapoint)) :=
  Ok (replicate (S (length (b_items body))) []).

Definition extra_item_client : Client :=
  mkClient 2 2 10 first_point_get extra_item_post.

(** A batch server without data, behind a client whose budget is one point
    per request. *)
Definition empty_pages_post (body : Body) : result (list (list Datapoint)) :=
  Ok ((fun _ => []) <$> b_items body).

Definition one_point_budget_client : Client :=
  mkClient 1 1 10 first_point_get empty_pages_post.

(** ** [DatapointsResponseIterator] (lines 54-69) *)

Record DatapointsResponseIterator : Type := mkDatapointsResponseIterator {
  datapoints_objects : list DatapointsResponse;
  counter : nat
}.

(** [__init__] *)
Definition new_DatapointsResponseIterator
    (datapoints_objects : list DatapointsResponse) : DatapointsResponseIterator :=
  mkDatapointsResponseIterator datapoints_objects 0.

Inductive next_result : Type :=
  | Yielded (response : DatapointsResponse)
  | StopIteration.

(** [__next__]: the outcome and the iterator afterwards.  The index
    [counter - 1] of the [else] branch is in range by the test before it. *)
Definition iterator_next (self : DatapointsResponseIterator)
  : next_result * DatapointsResponseIterator :=
  if Z.of_nat (counter self) >? Z.of_nat (length (datapoints_objects self)) - 1
  then (StopIteration, self)
  else
    let self' := mkDatapointsResponseIterator (datapoints_objects self)
                                              (counter self + 1) in
    (match datapoints_objects self' !! (counter self' - 1)%nat with
     | Some response => Yielded response
     | None => StopIteration
     end, self').

(** [list(iterator)]: [__next__] until [StopIteration], at most [fuel] times. *)
Fixpoint iterator_to_list (fuel : nat) (self : DatapointsResponseIterator)
  : list DatapointsResponse * DatapointsResponseIterator :=
  match fuel with
  | O => ([], self)
  | S fuel =>
    match iterator_next self with
    | (Yielded response, self) =>
      let rest := iterator_to_list fuel self in (response :: rest.1, rest.2)
    | (StopIteration, self) => ([], self)
    end
  end.

(** ** Uploading datapoints *)

(** [l[i:j]] for integers [i] and [j]: a negative index counts from the end,
    and both are clipped to the list. *)
Definition py_slice {A : Type} (l : list A) (i j : Z) : list A :=
  let n := Z.of_nat (length l) in
  let clip k := if k <? 0 then Z.max 0 (k + n) else Z.min k n in
  take (Z.to_nat (clip j - clip i)) (drop (Z.to_nat (clip i)) l).

(** A [TimeseriesWithDatapoints] object. *)
Record TimeseriesWithDatapoints : Type := mkTimeseriesWithDatapoints {
  twd_name : string;
  twd_datapoints : list Datapoint
}.

(** The [while] loop of lines 364-372. *)
Fixpoint split_loop (fuel : nat)
    (timeseries_with_datapoints : TimeseriesWithDatapoints) (limit i : Z)
    (timeseries_with_datapoints_list : list TimeseriesWithDatapoints)
  : option (list TimeseriesWithDatapoints) :=
  match fuel with
  | O => None
  | S fuel =>
    if i <? Z.of_nat (length (twd_datapoints timeseries_with_datapoints)) then
      split_loop fuel timeseries_with_datapoints limit (i + limit)
        (timeseries_with_datapoints_list
         ++ [mkTimeseriesWithDatapoints
               (twd_name timeseries_with_datapoints)
               (py_slice (twd_datapoints timeseries_with_datapoints)
                         i (i + limit))])
    else Some timeseries_with_datapoints_list
  end.

(** [_split_TimeseriesWithDatapoints_if_over_limit] (lines 362-376) *)
Definition _split_TimeseriesWithDatapoints_if_over_limit (fuel : nat)
    (timeseries_with_datapoints : TimeseriesWithDatapoints) (limit : Z)
  : option (list TimeseriesWithDatapoints) :=
  if Z.of_nat (length (twd_datapoints timeseries_with_datapoints)) >? limit
  then split_loop fuel timeseries_with_datapoints limit 0 []
  else Some [timeseries_with_datapoints].

(** Lines 418-422 of [post_multi_time_series_datapoints]: every entry is
    replaced by its pieces; [ul_dps_limit] is 100000 there. *)
Fixpoint limit_entries (fuel : nat) (ul_dps_limit : Z)
    (timeseries_with_datapoints : list TimeseriesWithDatapoints)
  : option (list TimeseriesWithDatapoints) :=
  match timeseries_with_datapoints with
  | [] => Some []
  | entry :: rest =>
    pieces ← _split_TimeseriesWithDatapoints_if_over_limit fuel entry
               ul_dps_limit;
    limited ← limit_entries fuel ul_dps_limit rest;
    Some (pieces ++ limited)
  end.

(** The loop over the bins of lines 429-436; [post] is the POST on
    [/timeseries/data] of one bin.  The bins posted so far come back with
    the outcome. *)
Fixpoint post_bins
    (post : list TimeseriesWithDatapoints → bool → result unit)
    (use_gzip : bool) (bins : list (list TimeseriesWithDatapoints))
  : list (list TimeseriesWithDatapoints) * result unit :=
  match bins with
  | [] => ([], Ok ())
  | bin :: rest =>
    match post bin use_gzip with
    | Raise e => ([bin], Raise e)
    | Ok _ =>
      let run := post_bins post use_gzip rest in (bin :: run.1, run.2)
    end
  end.

(** [post_multi_time_series_datapoints] (lines 411-436).  [first_fit] is
    [_utils.first_fit] with [get_count = lambda x: len(x.datapoints)], which
    is not part of the sources at hand. *)
Definition post_multi_time_series_datapoints (fuel : nat)
    (first_fit : list TimeseriesWithDatapoints → Z
                 → list (list TimeseriesWithDatapoints))
    (post : list TimeseriesWithDatapoints → bool → result unit)
    (timeseries_with_datapoints : list TimeseriesWithDatapoints)
    (use_gzip : option bool)
  : option (list (list TimeseriesWithDatapoints) * result unit) :=
  let use_gzip := default true use_gzip in
  let ul_dps_limit := 100000 in
  timeseries_with_datapoints_limited ←
    limit_entries fuel ul_dps_limit timeseries_with_datapoints;
  let timeseries_to_upload_binned :=
    first_fit timeseries_with_datapoints_limited ul_dps_limit in
  Some (post_bins post use_gzip timeseries_to_upload_binned).

(** The loop of [post_datapoints] (lines 463-467) for an upload limit
    [ul_dps_limit]; [post] is the POST on [/timeseries/data/<name>] of one
    list of items.  The lists posted so far, the failed one included, come
    back with the outcome. *)
Fixpoint post_datapoints_loop (fuel : nat) (ul_dps_limit : Z)
    (post : string → list Datapoint → result unit) (name : string)
    (datapoints : list Datapoint) (i : Z)
  : list (list Datapoint) * option (result unit) :=
  match fuel with
  | O => ([], None)
  | S fuel =>
    if i <? Z.of_nat (length datapoints) then
      let items := py_slice datapoints i (i + ul_dps_limit) in
      match post name items with
      | Raise e => ([items], Some (Raise e))
      | Ok _ =>
        let run := post_datapoints_loop fuel ul_dps_limit post name datapoints
                     (i + ul_dps_limit) in
        (items :: run.1, run.2)
      end
    else ([], Some (Ok ()))
  end.

(** [post_datapoints] (lines 460-467) *)
Definition post_datapoints (fuel : nat)
    (post : string → list Datapoint → result unit) (name : string)
    (datapoints : list Datapoint)
  : list (list Datapoint) * option (result unit) :=
  post_datapoints_loop fuel 100000 post name datapoints 0.

(** ** [live_data_generator] (lines 829-836)

    The generator is driven by the answers of [get_latest]: [first] is the
    answer before the loop, [polls] are the answers of the turns of the loop
    that have been run.  What comes back is what these turns have yielded. *)

Fixpoint live_data_loop (last_timestamp : Z) (polls : list Datapoint)
  : list Datapoint :=
  match polls with
  | [] => []
  | latest :: polls =>
    (if last_timestamp =? timestamp latest then [] else [latest])
    ++ live_data_loop (timestamp latest) polls
  end.

Definition live_data_generator (first : Datapoint) (polls : list Datapoint)
  : list Datapoint :=
  live_data_loop (timestamp first) polls.

(** ** More stand-ins *)

(** An upload endpoint that rejects every list containing the timestamp 4. *)
Definition reject_four (name : string) (items : list Datapoint) : result unit :=
  if bool_decide (4 ∈ timestamp <$> items)
  then Raise (FetchFailed "rejected") else Ok ().

Definition accept_all (name : string) (items : list Datapoint) : result unit :=
  Ok ().

(** A binning that puts every entry in a bin of its own, and an upload
    endpoint that rejects every bin with an entry for the time series [b]. *)
Definition one_entry_per_bin (entries : list TimeseriesWithDatapoints)
    (max_size : Z) : list (list TimeseriesWithDatapoints) :=
  (fun entry => [entry]) <$> entries.

Definition reject_b (bin : list TimeseriesWithDatapoints) (use_gzip : bool)
  : result unit :=
  if bool_decide ("b"%string ∈ twd_name <$> bin)
  then Raise (FetchFailed "rejected") else Ok ().

(** Datapoints with the timestamps 0, ..., n - 1. *)
Definition numbered (n : nat) : list Datapoint :=
  (fun t => mkDatapoint t (NumericValue t)) <$> seqZ 0 (Z.of_nat n).

(** ** Dataframes of datapoints

    What the code uses of pandas: a dataframe is its rows, in order; a row
    is the timestamp of its first column, which is the column named
    [timestamp], and its other cells.  [df.shape[0]] is the number of rows,
    [df.empty] holds without rows, [df.iloc[-1, 0]] is the timestamp of the
    last row. *)

Record Row : Type := mkRow {
  row_timestamp : Z;
  row_cells : list dp_value
}.

Definition DataFrame : Type := list Row.

(** [pd.concat(dataframes).reset_index(drop=True)]: the rows of the frames
    one after the other; pandas raises [ValueError] when there is no frame
    to concatenate. *)
Definition pd_concat (dataframes : list DataFrame) : result DataFrame :=
  match dataframes with
  | [] => Raise ValueError
  | _ => Ok (concat dataframes)
  end.

(** [df.drop_duplicates(subset="timestamp")]: of the rows with the same
    timestamp the first one is kept. *)
Fixpoint drop_duplicates_from (seen : list Z) (df : DataFrame) : DataFrame :=
  match df with
  | [] => []
  | row :: rest =>
    if bool_decide (row_timestamp row ∈ seen)
    then drop_duplicates_from seen rest
    else row :: drop_duplicates_from (row_timestamp row :: seen) rest
  end.

Definition drop_duplicates (df : DataFrame) : DataFrame :=
  drop_duplicates_from [] df.

(** An entry of [time_series]: a name, or a dictionary with a name and, when
    [aggregates] is [Some], an ["aggregates"] key with that value. *)
Inductive TimeSeriesEntry : Type :=
  | TsName (name : string)
  | TsDict (name : string) (aggregates : option (option (list string))).

(** An item of the body: the name, and the ["aggregates"] key when the entry
    was a dictionary ([ts.get("aggregates", [])]). *)
Definition frame_item (ts : TimeSeriesEntry)
  : string * option (option (list string)) :=
  match ts with
  | TsName name => (name, None)
  | TsDict name aggregates => (name, Some (default (Some []) aggregates))
  end.

(** The JSON body of a POST on [/timeseries/dataframe]. *)
Record FrameBody : Type := mkFrameBody {
  fb_items : list (string * option (option (list string)));
  fb_aggregates : list string;
  fb_granularity : string;
  fb_start : Z;
  fb_end : Z;
  fb_limit : Z
}.

Definition set_frame_start (body : FrameBody) (start : Z) : FrameBody :=
  mkFrameBody (fb_items body) (fb_aggregates body) (fb_granularity body)
              start (fb_end body) (fb_limit body).

Section DatapointsFrame.

Variable _utils : Utils.
Variable self : Client.

(** The POST with [accept: text/csv] together with [pd.read_csv] on its
    answer. *)
Variable post_csv : FrameBody → result DataFrame.

(** Lines 715-720. *)
Definition count_aggregates (time_series : list TimeSeriesEntry)
    (aggregates : list string) : Z :=
  foldl (fun num_aggregates ts =>
           match ts with
           | TsDict _ (Some (Some own)) => num_aggregates + Z.of_nat (length own)
           | _ => num_aggregates + Z.of_nat (length aggregates)
           end)
        0 time_series.

(** The loop condition of line 739. *)
Definition keep_paging_frames (dataframes : list DataFrame)
    (per_tag_limit : Z) (body : FrameBody) : bool :=
  match last dataframes with
  | None => true
  | Some df => Z.of_nat (length df) =? per_tag_limit
  end && (fb_end body >? fb_start body).

(** The [while] loop of lines 739-747, with the bodies it has posted. *)
Fixpoint frame_paging_loop (fuel : nat) (granularity : string)
    (per_tag_limit : Z) (dataframes : list DataFrame) (body : FrameBody)
  : list FrameBody * option (result (list DataFrame)) :=
  match fuel with
  | O => ([], None)
  | S fuel =>
    if keep_paging_frames dataframes per_tag_limit body then
      match post_csv body with
      | Raise e => ([body], Some (Raise e))
      | Ok df =>
        let dataframes := dataframes ++ [df] in
        match last df with
        | None => ([body], Some (Ok dataframes))
        | Some row =>
          let latest_timestamp := row_timestamp row in
          match granularity_to_ms _utils granularity with
          | Raise e => ([body], Some (Raise e))
          | Ok step =>
            let run := frame_paging_loop fuel granularity per_tag_limit
                         dataframes
                         (set_frame_start body (latest_timestamp + step)) in
            (body :: run.1, run.2)
          end
        end
      end
    else ([], Some (Ok dataframes))
  end.

(** [_get_datapoints_frame_helper] (lines 714-748) *)
Definition _get_datapoints_frame_helper (fuel : nat)
    (time_series : list TimeSeriesEntry) (aggregates : list string)
    (granularity : string) (start end_ : Z)
  : list FrameBody * option (result DataFrame) :=
  let num_aggregates := count_aggregates time_series aggregates in
  match int_truediv (_LIMIT self) num_aggregates with
  | Raise e => ([], Some (Raise e))
  | Ok per_tag_limit =>
    let body := mkFrameBody (frame_item <$> time_series) aggregates
                            granularity start end_ per_tag_limit in
    let run := frame_paging_loop fuel granularity per_tag_limit [] body in
    (run.1,
     match run.2 with
     | None => None
     | Some (Raise e) => Some (Raise e)
     | Some (Ok dataframes) => Some (pd_concat dataframes)
     end)
  end.

(** [_get_datapoints_frame_user_defined_limit] (lines 777-796) *)
Definition _get_datapoints_frame_user_defined_limit
    (time_series : list TimeSeriesEntry) (aggregates : list string)
    (granularity : string) (start end_ limit : Z) : result DataFrame :=
  post_csv (mkFrameBody (frame_item <$> time_series) aggregates granularity
                        start end_ limit).

(** Line 641: [kwargs.get("workers") or self._num_of_workers]. *)
Definition frame_workers_used (kwargs : Kwargs) : Z :=
  if truthy_int (kw_workers kwargs) then default 0 (kw_workers kwargs)
  else _num_of_workers self.

(** [pd.concat] over the results of the pool: the first worker that raised
    re-raises. *)
Fixpoint collect_frames (dataframes : list (result DataFrame))
  : result (list DataFrame) :=
  match dataframes with
  | [] => Ok []
  | Raise e :: _ => Raise e
  | Ok df :: rest => rest ← collect_frames rest; Ok (df :: rest)
  end.

(** [get_datapoints_frame] (lines 631-670), for a list [time_series] and
    [start], [end] in milliseconds. *)
Definition get_datapoints_frame (fuel : nat) (completion : list nat)
    (time_series : list TimeSeriesEntry) (aggregates : list string)
    (granularity : string) (start end_ : Z) (kwargs : Kwargs)
  : option (result DataFrame) :=
  if truthy_int (kw_limit kwargs) then
    Some (_get_datapoints_frame_user_defined_limit time_series aggregates
            granularity start end_ (default 0 (kw_limit kwargs)))
  else
    match (granularity_ms ← granularity_ms_of _utils (Some granularity);
           split_windows _utils start end_ (frame_workers_used kwargs)
                         granularity_ms) with
    | Raise e => Some (Raise e)
    | Ok (steps, args) =>
      if steps =? 1 then
        (_get_datapoints_frame_helper fuel time_series aggregates granularity
                                      start end_).2
      else if steps <=? 0 then Some (Raise ValueError)
      else
        dataframes ← await_all
          (pool_map completion
             (fun w => (_get_datapoints_frame_helper fuel time_series
                          aggregates granularity (w_start w) (w_end w)).2)
             args);
        Some (dataframes ← collect_frames dataframes;
              df ← pd_concat dataframes;
              Ok (drop_duplicates df))
    end.

End DatapointsFrame.

(** A dataframe server with one row, at the requested start, for every
    non-empty window. *)
Definition first_row_csv (body : FrameBody) : result DataFrame :=
  if fb_start body <? fb_end body
  then Ok [mkRow (fb_start body) [NumericValue 0]]
  else Ok [].

(** * Properties *)

(** ** The rounding helper *)

Lemma roundDownToMultiple_adjacent :
  rounds_to_adjacent_multiple roundDownToMultiple.
Proof.
  intros x b Hb. exists (x / b). unfold roundDownToMultiple.
  destruct (Z.leb_spec b 0) as [Hle|_]; [lia|].
  split; [reflexivity|].
  pose proof (Z.mod_pos_bound x b Hb) as Hm.
  pose proof (Z.div_mod x b ltac:(lia)) as Hd.
  lia.
Qed.

Lemma round_half_even_bounds n d :
  0 < d →
  n / d ≤ round_half_even n d ≤ n / d + 1
  ∧ (round_half_even n d = n / d + 1 → d ≤ 2 * (n mod d)).
Proof.
  intros Hd. unfold round_half_even.
  destruct (Z.ltb_spec (2 * (n mod d)) d); [lia|].
  destruct (Z.ltb_spec d (2 * (n mod d))); [lia|].
  destruct (Z.even (n / d)); lia.
Qed.


(** ** Division through a double *)

(** Rounding a quotient to [k] binary places and dropping them again gives
    the integer quotient, as long as the places are fine enough for the
    divisor, or the quotient is below one half. *)
Lemma truncated_rounding_exact a b k :
  0 < a → 0 < b → 0 ≤ k → b < 2 ^ (k + 1) ∨ 2 * a < b →
  round_half_even (a * 2 ^ k) b / 2 ^ k = a / b.
Proof.
  intros Ha Hb Hk Hsmall.
  assert (HK : 0 < 2 ^ k) by (apply Z.pow_pos_nonneg; lia).
  rewrite Z.pow_add_r, Z.pow_1_r in Hsmall by lia.
  set (K := 2 ^ k) in *.
  destruct (round_half_even_bounds (a * K) b Hb) as [[Hlo Hhi] Hup].
  set (m := round_half_even (a * K) b) in *.
  pose proof (Z.div_mod a b ltac:(lia)) as Hab.
  pose proof (Z.mod_pos_bound a b Hb) as Hr.
  pose proof (Z.div_mod (a * K) b ltac:(lia)) as HN.
  pose proof (Z.mod_pos_bound (a * K) b Hb) as HNr.
  set (q := a / b) in *. set (r := a mod b) in *.
  set (Q := a * K / b) in *. set (R := (a * K) mod b) in *.
  assert (0 ≤ q) by (apply Z.div_pos; lia).
  assert (Hq1 : q * K ≤ Q).
  { apply Z.div_le_lower_bound; [done|]. nia. }
  assert (Hq2 : Q < (q + 1) * K).
  { apply Z.div_lt_upper_bound; [done|]. nia. }
  symmetry. apply Z.div_unique with (r := m - q * K); [|lia].
  left. split; [lia|].
  destruct (Z.eq_dec m (Q + 1)) as [Hm|Hm]; [|lia].
  specialize (Hup Hm).
  destruct (Z.eq_dec Q ((q + 1) * K - 1)) as [HQ|HQ]; [|lia].
  exfalso.
  assert (HR : R = b - (b - r) * K) by nia.
  destruct Hsmall as [Hsmall|Hsmall].
  - nia.
  - assert (q = 0) by (apply Z.div_small; lia). nia.
Qed.

(** For a dividend below 2^53 the last bit of the double is fine enough. *)
Lemma double_exponent_small a b :
  0 < a < 2 ^ 53 → 0 < b →
  let e := double_exponent a b in
  -1074 ≤ e ≤ 0 ∧ (b < 2 ^ (- e + 1) ∨ 2 * a < b).
Proof.
  intros [Ha Ha53] Hb e.
  assert (Hla : Z.log2 a < 53) by (apply Z.log2_lt_pow2; lia).
  pose proof (Z.log2_nonneg a) as Hla0.
  pose proof (Z.log2_nonneg b) as Hlb0.
  destruct (Z.log2_spec b Hb) as [Hb1 Hb2].
  subst e. unfold double_exponent.
  set (e0 := Z.log2 a - Z.log2 b - 52).
  destruct (scaled_quotient a b e0) as [n d].
  set (e1 := if n <? 2 ^ 52 * d then e0 - 1 else e0).
  assert (He1 : e0 - 1 ≤ e1 ≤ e0) by (subst e1; destruct (_ <? _); lia).
  split; [lia|].
  destruct (Z.le_gt_cases (-1074) e1) as [Hin|Hout].
  - left. rewrite Z.max_r by done.
    eapply Z.lt_le_trans; [exact Hb2|].
    apply Z.pow_le_mono_r; lia.
  - right.
    assert (2 ^ 1022 ≤ 2 ^ Z.log2 b) by (apply Z.pow_le_mono_r; lia).
    assert (2 ^ 54 ≤ 2 ^ 1022) by (apply Z.pow_le_mono_r; lia).
    change (2 ^ 54) with (2 * 2 ^ 53) in *. lia.
Qed.

Lemma int_of_double_exact a b :
  0 < a < 2 ^ 53 → 0 < b →
  let '(m, e) := double_of_quotient a b in
  e ≤ 0 ∧ int_of_double m e = a / b.
Proof.
  intros Ha Hb. unfold double_of_quotient.
  destruct (double_exponent_small a b Ha Hb) as [[_ He] Hsmall].
  set (e := double_exponent a b) in *.
  assert (scaled_quotient a b e = (a * 2 ^ (- e), b)) as ->.
  { unfold scaled_quotient. destruct (Z.leb_spec 0 e); [|done].
    assert (e = 0) as -> by lia. cbn. f_equal; lia. }
  split; [done|].
  rewrite <- (truncated_rounding_exact a b (- e)) by lia.
  unfold int_of_double. destruct (Z.leb_spec 0 e); [|done].
  assert (e = 0) as -> by lia. cbn. by rewrite Z.mul_1_r, Z.div_1_r.
Qed.

(** The quotient of a dividend below 2^53 in magnitude is truncated exactly
    by [int(a / b)], whatever the divisor. *)
Lemma int_float_truediv_exact a b :
  Z.abs a < 2 ^ 53 → int_float_truediv a b = int_truediv a b.
Proof.
  intros Ha. unfold int_float_truediv, int_truediv.
  destruct (Z.eqb_spec b 0) as [|Hb]; [done|].
  destruct (Z.eqb_spec a 0) as [->|Ha0]; [by rewrite Z.quot_0_l|].
  pose proof (int_of_double_exact (Z.abs a) (Z.abs b) ltac:(lia) ltac:(lia))
    as Hexact.
  destruct (double_of_quotient (Z.abs a) (Z.abs b)) as [m e].
  destruct Hexact as [He Hexact].
  assert (Hq : Z.abs a / Z.abs b ≤ Z.abs a).
  { apply Z.div_le_upper_bound; [lia|]. nia. }
  assert ((0 <=? e) && (2 ^ 1024 <=? m * 2 ^ e) = false) as ->.
  { destruct (Z.leb_spec 0 e); [|done]. cbn.
    assert (e = 0) as -> by lia.
    unfold int_of_double in Hexact. cbn in Hexact.
    assert (2 ^ 53 ≤ 2 ^ 1024) by (apply Z.pow_le_mono_r; lia).
    apply Z.leb_gt. lia. }
  by rewrite Hexact, Z.quot_div.
Qed.

(** Past 2^53 it is not: [int((2^53 + 1) / 1)] is 2^53. *)
Lemma int_float_truediv_inexact :
  int_float_truediv (2 ^ 53 + 1) 1 = Ok (2 ^ 53)
  ∧ int_truediv (2 ^ 53 + 1) 1 = Ok (2 ^ 53 + 1).
Proof. split; vm_compute; reflexivity. Qed.

Section SplitterProperties.

Variable _utils : Utils.
Hypothesis round_ok : rounds_to_adjacent_multiple (round_to_nearest _utils).

Lemma int_truediv_pos a b :
  0 ≤ a → 0 < b → int_truediv a b = Ok (a / b).
Proof.
  intros Ha Hb. unfold int_truediv.
  destruct (Z.eqb_spec b 0) as [->|_]; [lia|].
  by rewrite Z.quot_div_nonneg by lia.
Qed.

Lemma round_nonneg x b k :
  0 ≤ x → 0 < b → Z.abs (k * b - x) < b → 0 ≤ k * b.
Proof.
  intros Hx Hb Hk. destruct (Z.le_gt_cases 0 k) as [Hk0|Hk0]; [nia|].
  assert (k * b ≤ - b) by nia. lia.
Qed.

(** The shape of the split for a well-formed request. *)
Lemma split_windows_shape start end_ num_of_workers granularity_ms :
  start < end_ → 1 ≤ num_of_workers → 1 ≤ granularity_ms →
  let steps := Z.min num_of_workers (Z.max 1 ((end_ - start) / granularity_ms)) in
  ∃ k,
    0 ≤ k * granularity_ms ∧
    Z.abs (k * granularity_ms - (end_ - start) / steps) < granularity_ms ∧
    split_windows _utils start end_ num_of_workers granularity_ms
    = Ok (steps,
          (fun i => mkWindow (start + i * (k * granularity_ms))
                             (start + (i + 1) * (k * granularity_ms)))
            <$> seqZ 0 steps).
Proof.
  intros Hse Hw Hg steps.
  assert (Hsteps : 1 ≤ steps) by (subst steps; lia).
  destruct (round_ok ((end_ - start) / steps) granularity_ms ltac:(lia))
    as (k & Hr & Hk).
  assert (0 ≤ (end_ - start) / steps) by (apply Z.div_pos; lia).
  exists k. split; [by eapply round_nonneg; [| |exact Hk]; lia|]. split; [done|].
  unfold split_windows, split_steps, split_step_size.
  rewrite int_truediv_pos by lia. cbn.
  fold steps. rewrite int_truediv_pos by lia. cbn. rewrite Hr. cbn.
  do 2 f_equal. unfold range. rewrite <- list_fmap_compose.
  apply list_fmap_ext. intros i x _. cbn. f_equal. lia.
Qed.

Lemma lookup_windows (f : Z → Window) steps i w :
  (f <$> seqZ 0 steps) !! i = Some w ↔ Z.of_nat i < steps ∧ w = f (Z.of_nat i).
Proof.
  rewrite list_lookup_fmap, fmap_Some. split.
  - intros (x & Hx & ->). apply lookup_seqZ in Hx as [-> ?]. by rewrite Z.add_0_l.
  - intros [Hi ->]. exists (Z.of_nat i). split; [|done].
    apply lookup_seqZ. lia.
Qed.


End SplitterProperties.


(** ** The paging loop *)



Lemma ceil_div_advance e c c' step :
  1 ≤ step → c < e → c + step ≤ c' →
  Z.max 0 (ceil_div (e - c') step) ≤ Z.max 0 (ceil_div (e - c) step) - 1.
Proof.
  intros Hs Hc Hc'. unfold ceil_div.
  assert (H1 : (e - c' + step - 1) / step ≤ (e - c + step - 1 + -1 * step) / step)
    by (apply Z.div_le_mono; lia).
  rewrite Z.div_add in H1 by lia.
  assert (H2 : 1 ≤ (e - c + step - 1) / step)
    by (apply Z.div_le_lower_bound; lia).
  lia.
Qed.


Section PaginatorProperties.

Variable _utils : Utils.
Variable self : Client.
Variables (name : string) (use_protobuf : bool).
Variables (granularity : option string) (limit step : Z).
Hypothesis step_eq : granularity_ms_of _utils granularity = Ok step.
Hypothesis step_pos : 1 ≤ step.

Local Abbreviation get := (fun params => _get self name params use_protobuf).
Local Abbreviation loop fuel :=
  (paging_loop _utils self fuel name use_protobuf granularity limit).




(** What a run that returns has done. *)
Lemma paging_loop_chain fuel : ∀ datapoints params reqs pages,
  loop fuel datapoints params = (reqs, Some (Ok pages)) →
  ∃ new_pages, pages = datapoints ++ new_pages
               ∧ page_chain get step params reqs new_pages.
Proof.
  induction fuel as [|fuel IH]; intros datapoints params reqs pages; [done|].
  cbn [paging_loop].
  destruct (keep_paging datapoints limit params).
  - destruct (_get self name params use_protobuf) as [res|e] eqn:Hget; [|done].
    destruct (last res) as [dp|] eqn:Hlast.
    + rewrite step_eq.
      destruct (loop fuel (datapoints ++ [res])
                  (set_start params (timestamp dp + step))) as [reqs' out] eqn:Hrun.
      cbn. intros [= <- ->].
      apply IH in Hrun as (new_pages & -> & Hchain).
      exists (res :: new_pages). split; [by rewrite <- app_assoc|].
      by eapply chain_page.
    + intros [= <- <-]. exists []. split; [by rewrite app_nil_r|].
      apply chain_empty. by apply last_None in Hlast as ->.
  - intros [= <- <-]. exists []. split; [by rewrite app_nil_r|]. constructor.
Qed.



Lemma page_chain_head params reqs pages :
  page_chain get step params reqs pages →
  ∀ req page, reqs !! 0%nat = Some req → pages !! 0%nat = Some page →
              req = params.
Proof. destruct 1; cbn; intros req page Hr Hp; by simplify_eq. Qed.


End PaginatorProperties.


Lemma ceil_div_pos d step : 1 ≤ step → 0 < d → 1 ≤ ceil_div d step.
Proof. intros Hs Hd. unfold ceil_div. apply Z.div_le_lower_bound; lia. Qed.



Lemma first_point_respects_start name use_protobuf :
  respects_start (fun p => first_point_get name p use_protobuf).
Proof.
  intros params res. unfold first_point_get.
  destruct (p_start params <? p_end params); intros [= <-].
  - apply Forall_singleton. cbn. lia.
  - constructor.
Qed.






(** ** The thread pool *)

Section Pool.

Context {A B : Type}.
Variables (f : A → option B) (args : list A).

Lemma pool_map_snoc completion i :
  pool_map (completion ++ [i]) f args
  = match args !! i with
    | Some a => <[i := f a]> (pool_map completion f args)
    | None => pool_map completion f args
    end.
Proof. unfold pool_map. by rewrite foldl_snoc. Qed.

Lemma pool_map_length completion :
  length (pool_map completion f args) = length args.
Proof.
  induction completion as [|i completion IH] using rev_ind.
  - apply length_replicate.
  - rewrite pool_map_snoc. destruct (args !! i); [|done].
    by rewrite length_insert.
Qed.

(** A finished task holds its result, whenever it finished. *)
Lemma pool_map_lookup completion i :
  i ∈ completion → pool_map completion f args !! i = f <$> args !! i.
Proof.
  induction completion as [|j completion IH] using rev_ind.
  - by intros ?%elem_of_nil.
  - intros Hi. rewrite pool_map_snoc.
    destruct (decide (i = j)) as [->|Hne].
    + destruct (args !! j) as [a|] eqn:Ha.
      * rewrite list_lookup_insert_eq; [done|].
        rewrite pool_map_length. by eapply lookup_lt_Some.
      * apply lookup_ge_None_2. rewrite pool_map_length.
        by apply lookup_ge_None_1.
    + assert (i ∈ completion) as Hc.
      { apply elem_of_app in Hi as [?|?%list_elem_of_singleton]; done. }
      destruct (args !! j); [rewrite list_lookup_insert_ne by done|]; auto.
Qed.

(** The results come back in dispatch order, whatever the order of completion. *)
Lemma pool_map_dispatch_order completion :
  all_complete completion (length args) →
  pool_map completion f args = f <$> args.
Proof.
  intros Hall. apply list_eq. intros i.
  destruct (decide (i < length args)%nat) as [Hi|Hi].
  - rewrite pool_map_lookup by auto. by rewrite list_lookup_fmap.
  - rewrite !lookup_ge_None_2; [done|..].
    + rewrite length_fmap. lia.
    + rewrite pool_map_length. lia.
Qed.

Lemma await_all_fmap : await_all (f <$> args) = mapM f args.
Proof.
  unfold await_all. induction args as [|a l IH]; [done|].
  cbn. destruct (f a); cbn; [|done]. by rewrite IH.
Qed.

End Pool.

Lemma extend_all_ok els : ∀ concat_dps,
  extend_all concat_dps (Ok <$> els) = Ok (concat_dps ++ concat els).
Proof.
  induction els as [|el els IH]; intros acc; cbn.
  - by rewrite app_nil_r.
  - by rewrite IH, app_assoc.
Qed.

(** As soon as one task raised, so does the join, with the exception of the
    first such task, and what was collected before it is dropped. *)
Lemma extend_all_raise datapoints : ∀ concat_dps e,
  Raise e ∈ datapoints →
  ∃ e', Raise e' ∈ datapoints ∧ extend_all concat_dps datapoints = Raise e'.
Proof.
  induction datapoints as [|[el|e0] rest IH]; intros acc e Hin.
  - by apply elem_of_nil in Hin.
  - apply elem_of_cons in Hin as [?|Hin]; [done|].
    destruct (IH (acc ++ el) e Hin) as (e' & ? & ?).
    exists e'. split; [by apply elem_of_cons; right|done].
  - exists e0. split; [by apply elem_of_cons; left|done].
Qed.

(** ** Splitting, as [get_datapoints] does it *)

Lemma StronglySorted_lookup_2 {A : Type} (R : A → A → Prop) (l : list A) :
  (∀ i j x y, (i < j)%nat → l !! i = Some x → l !! j = Some y → R x y) →
  StronglySorted R l.
Proof.
  induction l as [|a l IH]; intros H; constructor.
  - apply IH. intros i j x y Hij Hi Hj. apply (H (S i) (S j)); [lia|done..].
  - apply Forall_forall. intros y (j & Hj)%list_elem_of_lookup.
    by apply (H 0%nat (S j) a y); [lia|..].
Qed.

Lemma split_windows_length (_utils : Utils) start end_ num_of_workers
    granularity_ms steps windows :
  split_windows _utils start end_ num_of_workers granularity_ms
  = Ok (steps, windows) →
  length windows = Z.to_nat steps.
Proof.
  unfold split_windows.
  destruct (split_steps _ _ _) as [steps'|]; [|done]. cbn.
  destruct (split_step_size _ _ _ _) as [step_size|]; [|done]. cbn.
  intros [= <- <-]. unfold range. by rewrite !length_fmap, length_seqZ.
Qed.

(** What [get_datapoints] dispatches for a well-formed request. *)
Lemma dispatched_windows_shape (_utils : Utils) (self : Client) start end_
    granularity kwargs g :
  rounds_to_adjacent_multiple (round_to_nearest _utils) →
  start < end_ → 1 ≤ workers_used self kwargs →
  granularity_ms_of _utils granularity = Ok g → 1 ≤ g →
  let steps := Z.min (workers_used self kwargs) (Z.max 1 ((end_ - start) / g)) in
  ∃ k, 0 ≤ k * g
       ∧ dispatched_windows _utils self start end_ granularity kwargs
         = Ok (steps,
               (fun i => mkWindow (start + i * (k * g)) (start + (i + 1) * (k * g)))
                 <$> seqZ 0 steps).
Proof.
  intros Hround Hse Hw Hg Hg1 steps.
  destruct (split_windows_shape _utils Hround start end_
              (workers_used self kwargs) g Hse Hw Hg1) as (k & Hk & _ & Heq).
  exists k. split; [done|]. unfold dispatched_windows. by rewrite Hg.
Qed.

Lemma windows_ordered start step_size steps :
  0 ≤ step_size →
  ordered_windows
    ((fun i => mkWindow (start + i * step_size) (start + (i + 1) * step_size))
       <$> seqZ 0 steps).
Proof.
  intros Hs. apply StronglySorted_lookup_2.
  intros i j x y Hij [_ ->]%lookup_windows [_ ->]%lookup_windows. cbn. nia.
Qed.

(** Ascending results inside ordered windows concatenate to an ascending
    sequence. *)
Lemma ascending_concat windows results :
  ordered_windows windows →
  Forall2 (fun w dps => ascending dps
                        ∧ Forall (fun dp => in_window w (timestamp dp)) dps)
          windows results →
  ascending (concat results)
  ∧ Forall (fun dp => ∃ w, w ∈ windows ∧ in_window w (timestamp dp))
           (concat results).
Proof.
  intros Hord Hres. induction Hres as [|w dps windows results [Hasc Hin] _ IH].
  - split; constructor.
  - apply StronglySorted_inv in Hord as [Hord Hlater].
    destruct (IH Hord) as [IHasc IHin]. cbn. split.
    + apply StronglySorted_app_2; [|done..].
      intros x1 x2 Hx1 Hx2.
      destruct (proj1 (Forall_forall _ _) IHin x2 Hx2) as (w' & Hw' & Hx2w).
      pose proof (proj1 (Forall_forall _ _) Hin x1 Hx1) as Hx1w.
      pose proof (proj1 (Forall_forall _ _) Hlater w' Hw') as Hww'. cbn in Hww'.
      unfold in_window in *. lia.
    + apply Forall_app. split.
      * eapply Forall_impl; [exact Hin|]. intros dp ?. exists w.
        split; [by apply elem_of_cons; left|done].
      * eapply Forall_impl; [exact IHin|]. intros dp (w' & ? & ?). exists w'.
        split; [by apply elem_of_cons; right|done].
Qed.

(** [get_datapoints] once the windows are known and every worker finishes. *)
Lemma get_datapoints_join (_utils : Utils) (self : Client) fuel completion name
    start end_ aggregates granularity kwargs steps windows :
  truthy_int (kw_limit kwargs) = false →
  dispatched_windows _utils self start end_ granularity kwargs
  = Ok (steps, windows) →
  0 < steps →
  all_complete completion (length windows) →
  get_datapoints _utils self fuel completion name start end_ aggregates
                 granularity kwargs
  = (datapoints ← mapM (partial_get_dps _utils self fuel name aggregates
                                        granularity kwargs) windows;
     Some (concat_dps ← extend_all [] datapoints;
           Ok (mkDatapointsResponse name concat_dps))).
Proof.
  intros Hlimit Hsplit Hsteps Hall. unfold get_datapoints.
  rewrite Hlimit, Hsplit.
  destruct (Z.leb_spec steps 0) as [?|_]; [lia|].
  by rewrite pool_map_dispatch_order, await_all_fmap.
Qed.

(** C3: for a parallel fetch over n >= 1 sub-windows in which the worker of
    every sub-window returns strictly ascending timestamps inside its own
    sub-window, the coordinator returns the concatenation of the workers'
    results in the order of the sub-windows, which is the order of their
    starts, whatever the order in which the workers finish; that sequence has
    strictly ascending timestamps, and nothing is sorted. *)
Theorem get_datapoints_dispatch_order_ascending (_utils : Utils) (self : Client)
    (fuel : nat) (completion : list nat) (name : string) (start end_ : Z)
    (aggregates : option (list string)) (granularity : option string)
    (kwargs : Kwargs) (g : Z) :
  rounds_to_adjacent_multiple (round_to_nearest _utils) →
  truthy_int (kw_limit kwargs) = false →
  start < end_ →
  1 ≤ workers_used self kwargs →
  granularity_ms_of _utils granularity = Ok g →
  1 ≤ g →
  (∀ steps windows,
     dispatched_windows _utils self start end_ granularity kwargs
     = Ok (steps, windows) →
     all_complete completion (length windows)
     ∧ ∀ w, w ∈ windows →
         ∃ dps, partial_get_dps _utils self fuel name aggregates granularity
                                kwargs w = Some (Ok dps)
                ∧ ascending dps
                ∧ Forall (fun dp => in_window w (timestamp dp)) dps) →
  ∃ steps windows results,
    dispatched_windows _utils self start end_ granularity kwargs
    = Ok (steps, windows)
    ∧ 1 ≤ steps
    ∧ length windows = Z.to_nat steps
    ∧ ordered_windows windows
    ∧ Forall2 (fun w dps =>
                 partial_get_dps _utils self fuel name aggregates granularity
                                 kwargs w = Some (Ok dps))
              windows results
    ∧ get_datapoints _utils self fuel completion name start end_ aggregates
                     granularity kwargs
      = Some (Ok (mkDatapointsResponse name (concat results)))
    ∧ ascending (concat results).
Proof.
  intros Hround Hlimit Hse Hw Hg Hg1 Hworkers.
  destruct (dispatched_windows_shape _utils self start end_ granularity kwargs g
              Hround Hse Hw Hg Hg1) as (k & Hk & Hsplit).
  set (steps := Z.min _ _) in Hsplit.
  set (windows := _ <$> seqZ 0 steps) in Hsplit.
  assert (Hsteps : 1 ≤ steps) by (subst steps; lia).
  destruct (Hworkers steps windows Hsplit) as [Hall Hdps].
  assert (Hres : ∃ results,
             Forall2 (fun w dps =>
                        partial_get_dps _utils self fuel name aggregates
                                        granularity kwargs w = Some (Ok dps)
                        ∧ ascending dps
                        ∧ Forall (fun dp => in_window w (timestamp dp)) dps)
                     windows results).
  { clear Hsplit Hall. induction windows as [|w ws IH]; [by exists []|].
    destruct (Hdps w) as (dps & ?); [by apply elem_of_cons; left|].
    destruct IH as (results & ?);
      [by intros w' ?; apply Hdps, elem_of_cons; right|].
    exists (dps :: results). by constructor. }
  destruct Hres as (results & Hres).
  assert (Hord : ordered_windows windows) by by apply windows_ordered.
  exists steps, windows, results.
  split; [done|]. split; [done|].
  split; [by subst windows; rewrite length_fmap, length_seqZ|].
  split; [done|]. split; [by eapply Forall2_impl; [exact Hres|]; intros ?? [? _]|].
  split.
  - rewrite (get_datapoints_join _utils self fuel completion name start end_
               aggregates granularity kwargs steps windows) by (done || lia).
    assert (mapM (partial_get_dps _utils self fuel name aggregates granularity
                                  kwargs) windows = Some (Ok <$> results)) as ->.
    { apply mapM_Some_2, Forall2_fmap_r.
      eapply Forall2_impl; [exact Hres|]. by intros ?? [? _]. }
    cbn. by rewrite extend_all_ok.
  - apply (ascending_concat windows results Hord).
    eapply Forall2_impl; [exact Hres|]. by intros ?? [_ ?].
Qed.

(** Four workers over [0, 1000000) at 10 s that finish in the order 2, 0, 3, 1. *)
Lemma get_datapoints_dispatch_order_ascending_witness :
  get_datapoints spec_utils first_point_client 5 [2; 0; 3; 1]%nat "ts"
    0 1000000 (Some ["avg"%string]) (Some "10s"%string)
    (mkKwargs None (Some 4) None None)
  = Some (Ok (mkDatapointsResponse "ts"
                [mkDatapoint 0 (NumericValue 0);
                 mkDatapoint 250000 (NumericValue 0);
                 mkDatapoint 500000 (NumericValue 0);
                 mkDatapoint 750000 (NumericValue 0)]))
  ∧ ascending [mkDatapoint 0 (NumericValue 0);
               mkDatapoint 250000 (NumericValue 0);
               mkDatapoint 500000 (NumericValue 0);
               mkDatapoint 750000 (NumericValue 0)].
Proof.
  destruct (get_datapoints_dispatch_order_ascending spec_utils first_point_client
              5 [2; 0; 3; 1]%nat "ts" 0 1000000 (Some ["avg"%string])
              (Some "10s"%string) (mkKwargs None (Some 4) None None) 10000)
    as (steps & windows & results & Hsplit & _ & _ & _ & Hres & Hget & Hasc).
  - apply roundDownToMultiple_adjacent.
  - reflexivity.
  - lia.
  - vm_compute. discriminate.
  - reflexivity.
  - lia.
  - intros steps windows Hsplit. vm_compute in Hsplit.
    injection Hsplit as <- <-. split.
    + intros i Hi. cbn in Hi.
      destruct i as [|[|[|[|i]]]]; [set_solver..|lia].
    + intros w Hw.
      repeat (apply elem_of_cons in Hw as [->|Hw]);
        [| | | |by apply elem_of_nil in Hw];
        eexists;
        (split; [vm_compute; reflexivity|]);
        (split; [repeat constructor|]);
        apply Forall_singleton; unfold in_window; cbn; lia.
  - vm_compute in Hsplit. injection Hsplit as <- <-.
    assert (results = [[mkDatapoint 0 (NumericValue 0)];
                       [mkDatapoint 250000 (NumericValue 0)];
                       [mkDatapoint 500000 (NumericValue 0)];
                       [mkDatapoint 750000 (NumericValue 0)]]) as ->.
    { repeat (apply Forall2_cons_inv_l in Hres as (? & ? & Hx & Hres & ->);
              vm_compute in Hx; injection Hx as <-).
      by apply Forall2_nil_inv_l in Hres as ->. }
    split; [exact Hget|exact Hasc].
Defined.

(** ** Failures *)

(** A failed request ends the paging loop with that failure. *)
Lemma paging_loop_raise (_utils : Utils) (self : Client) name use_protobuf
    granularity limit fuel : ∀ datapoints params req e,
  req ∈ (paging_loop _utils self fuel name use_protobuf granularity limit
                     datapoints params).1 →
  _get self name req use_protobuf = Raise e →
  (paging_loop _utils self fuel name use_protobuf granularity limit
               datapoints params).2 = Some (Raise e).
Proof.
  induction fuel as [|fuel IH]; intros datapoints params req e; cbn [paging_loop].
  { by intros ?%elem_of_nil. }
  destruct (keep_paging datapoints limit params); [|by intros ?%elem_of_nil].
  destruct (_get self name params use_protobuf) as [res|e0] eqn:Hget.
  - destruct (last res) as [dp|].
    + destruct (granularity_ms_of _utils granularity) as [step|e1].
      * cbn [fst snd]. intros [->|Hin]%elem_of_cons Hreq; [congruence|].
        by apply IH with req.
      * intros ->%list_elem_of_singleton. congruence.
    + intros ->%list_elem_of_singleton. congruence.
  - intros ->%list_elem_of_singleton. cbn. congruence.
Qed.

(** The paging loop only fails with the failure of one of its requests. *)
Lemma paging_loop_raise_inv (_utils : Utils) (self : Client) name use_protobuf
    granularity limit step fuel : ∀ datapoints params e,
  granularity_ms_of _utils granularity = Ok step →
  (paging_loop _utils self fuel name use_protobuf granularity limit
               datapoints params).2 = Some (Raise e) →
  ∃ req, req ∈ (paging_loop _utils self fuel name use_protobuf granularity
                            limit datapoints params).1
         ∧ _get self name req use_protobuf = Raise e.
Proof.
  intros datapoints params e Hstep. revert datapoints params.
  induction fuel as [|fuel IH]; intros datapoints params; cbn [paging_loop];
    [done|].
  destruct (keep_paging datapoints limit params); [|done].
  destruct (_get self name params use_protobuf) as [res|e0] eqn:Hget.
  - destruct (last res) as [dp|]; [|done].
    rewrite Hstep. cbn [fst snd]. intros (req & ? & ?)%IH.
    exists req. split; [by apply elem_of_cons; right|done].
  - cbn. intros [= ->]. exists params.
    split; [by apply list_elem_of_singleton|done].
Qed.

Lemma dispatched_windows_granularity (_utils : Utils) (self : Client) start end_
    granularity kwargs steps windows :
  dispatched_windows _utils self start end_ granularity kwargs
  = Ok (steps, windows) →
  length windows = Z.to_nat steps
  ∧ ∃ g, granularity_ms_of _utils granularity = Ok g.
Proof.
  unfold dispatched_windows.
  destruct (granularity_ms_of _utils granularity) as [g|]; [|done]. cbn.
  intros ?%split_windows_length. eauto.
Qed.

(** C7: when a fetch issued for one of the sub-windows of a parallel request
    fails, the paging of that sub-window fails with it, and the request as a
    whole does not return a result: once every worker has finished it raises
    the failure of one of the fetches, and the datapoints fetched before or
    next to the failure are not returned. *)
Theorem get_datapoints_fetch_failure (_utils : Utils) (self : Client)
    (fuel : nat) (completion : list nat) (name : string) (start end_ : Z)
    (aggregates : option (list string)) (granularity : option string)
    (kwargs : Kwargs) (steps : Z) (windows : list Window) (w : Window)
    (req : Params) (e : exn) :
  let use_protobuf :=
    default true (kw_protobuf kwargs) && bool_decide (aggregates = None) in
  truthy_int (kw_limit kwargs) = false →
  dispatched_windows _utils self start end_ granularity kwargs
  = Ok (steps, windows) →
  all_complete completion (length windows) →
  w ∈ windows →
  req ∈ worker_requests _utils self fuel name aggregates granularity kwargs w →
  _get self name req use_protobuf = Raise e →
  partial_get_dps _utils self fuel name aggregates granularity kwargs w
  = Some (Raise e)
  ∧ (∀ response,
       get_datapoints _utils self fuel completion name start end_ aggregates
                      granularity kwargs ≠ Some (Ok response))
  ∧ ((∀ w', w' ∈ windows →
            partial_get_dps _utils self fuel name aggregates granularity
                            kwargs w' ≠ None) →
     ∃ w' req' e',
       w' ∈ windows
       ∧ req' ∈ worker_requests _utils self fuel name aggregates granularity
                                kwargs w'
       ∧ _get self name req' use_protobuf = Raise e'
       ∧ get_datapoints _utils self fuel completion name start end_ aggregates
                        granularity kwargs = Some (Raise e')).
Proof.
  intros use_protobuf Hlimit Hsplit Hall Hw Hreq Hfail.
  destruct (dispatched_windows_granularity _ _ _ _ _ _ _ _ Hsplit)
    as (Hlen & g & Hg).
  assert (Hsteps : 0 < steps).
  { apply list_elem_of_lookup in Hw as [i Hi]. apply lookup_lt_Some in Hi. lia. }
  assert (Hworker : partial_get_dps _utils self fuel name aggregates granularity
                                    kwargs w = Some (Raise e)).
  { unfold partial_get_dps, _get_datapoints_helper_wrapper,
      _get_datapoints_helper.
    unfold worker_requests, helper_pages in *.
    by rewrite (paging_loop_raise _ _ _ _ _ _ _ _ _ req e Hreq Hfail). }
  rewrite (get_datapoints_join _utils self fuel completion name start end_
             aggregates granularity kwargs steps windows) by done.
  destruct (mapM _ windows) as [datapoints|] eqn:Hmap; cbn.
  - apply mapM_Some_1 in Hmap.
    assert (Raise e ∈ datapoints) as Hin.
    { apply list_elem_of_lookup in Hw as [i Hi].
      destruct (Forall2_lookup_l _ _ _ _ _ Hmap Hi) as (r & Hr & Hwr).
      rewrite Hworker in Hwr. injection Hwr as <-.
      by apply list_elem_of_lookup_2 in Hr. }
    destruct (extend_all_raise datapoints [] e Hin) as (e' & Hin' & ->). cbn.
    split; [done|]. split; [done|]. intros _.
    apply list_elem_of_lookup in Hin' as [i Hi].
    destruct (Forall2_lookup_r _ _ _ _ _ Hmap Hi) as (w' & Hw' & Hwr).
    unfold partial_get_dps, _get_datapoints_helper_wrapper,
      _get_datapoints_helper in Hwr.
    destruct (helper_pages _ _ _ _ _ _ _ _ _ _).2 as [[pages|e0]|] eqn:Hrun;
      cbn in Hwr; [done| |done].
    injection Hwr as ->.
    apply (paging_loop_raise_inv _ _ _ _ _ _ g) in Hrun as (req' & ? & ?);
      [|done].
    exists w', req', e'. split; [by apply list_elem_of_lookup_2 in Hw'|].
    done.
  - split; [done|]. split; [done|]. intros Hterm.
    apply mapM_None_1, Exists_exists in Hmap as (w' & Hw' & Hnone).
    by destruct (Hterm w' Hw').
Qed.

(** Four workers, of which the last two fail; the first two have fetched a
    point each. *)
Lemma get_datapoints_fetch_failure_witness :
  partial_get_dps spec_utils flaky_client 5 "ts" (Some ["avg"%string])
    (Some "10s"%string) (mkKwargs None (Some 4) None None) (mkWindow 0 250000)
  = Some (Ok [mkDatapoint 0 (NumericValue 0)])
  ∧ partial_get_dps spec_utils flaky_client 5 "ts" (Some ["avg"%string])
      (Some "10s"%string) (mkKwargs None (Some 4) None None)
      (mkWindow 500000 750000)
    = Some (Raise (FetchFailed "connection reset"))
  ∧ get_datapoints spec_utils flaky_client 5 [3; 1; 0; 2]%nat "ts" 0 1000000
      (Some ["avg"%string]) (Some "10s"%string)
      (mkKwargs None (Some 4) None None)
    = Some (Raise (FetchFailed "connection reset")).
Proof.
  destruct (get_datapoints_fetch_failure spec_utils flaky_client 5
              [3; 1; 0; 2]%nat "ts" 0 1000000 (Some ["avg"%string])
              (Some "10s"%string) (mkKwargs None (Some 4) None None) 4
              [mkWindow 0 250000; mkWindow 250000 500000;
               mkWindow 500000 750000; mkWindow 750000 1000000]
              (mkWindow 500000 750000)
              (mkParams (Some ["avg"%string]) (Some "10s"%string) 10000
                        500000 750000 false)
              (FetchFailed "connection reset"))
    as (Hworker & Hnone & _).
  - reflexivity.
  - reflexivity.
  - intros i Hi. cbn in Hi. destruct i as [|[|[|[|i]]]]; [set_solver..|lia].
  - set_solver.
  - vm_compute. apply list_elem_of_singleton. reflexivity.
  - reflexivity.
  - split; [reflexivity|]. split; [exact Hworker|]. reflexivity.
Defined.

(** ** Serial execution with outside points *)




(** ** The windows that are fetched *)









(** ** The multi-series pager *)

Section MultiSeriesProperties.

Variable _utils : Utils.
Variables (end_ : Z) (granularity : option string).
Variable datapoints_queries : list loc.
Hypothesis distinct : NoDup datapoints_queries.

(** One pass over a response: the queries it reaches get the [start] that
    [next_start_of] computes from their page, the others are left alone, and
    the pass asks for another round exactly when some page is full. *)
Lemma update_cursors_spec res : ∀ i flag h h' flag',
  (i ≤ length datapoints_queries)%nat →
  update_cursors _utils end_ granularity datapoints_queries i res flag h
  = (h', Ok flag') →
  (i + length res ≤ length datapoints_queries)%nat
  ∧ (∀ l, (∀ k, (k < length res)%nat → datapoints_queries !! (i + k)%nat ≠ Some l) →
          h' !!! l = h !!! l)
  ∧ (∀ k dpr l, res !! k = Some dpr → datapoints_queries !! (i + k)%nat = Some l →
       ∃ incomplete next_start,
         next_start_of _utils end_ granularity (h !!! l) dpr
         = Ok (incomplete, next_start)
         ∧ h' !!! l = set_query_start (h !!! l) next_start)
  ∧ (flag' = true ↔
     flag = true
     ∨ ∃ k dpr l, res !! k = Some dpr
                  ∧ datapoints_queries !! (i + k)%nat = Some l
                  ∧ Some (Z.of_nat (length dpr)) = dq_limit (h !!! l)).
Proof.
  induction res as [|dpr0 rest IH]; intros i flag h h' flag' Hi;
    cbn [update_cursors].
  { intros [= <- <-]. cbn. split; [lia|]. split; [done|]. split; [done|].
    split; [by left|]. intros [?|(k & ? & ? & ? & _)]; done. }
  destruct (datapoints_queries !! i) as [l0|] eqn:Hl0; [|done].
  destruct (next_start_of _utils end_ granularity (h !!! l0) dpr0)
    as [[inc ns]|e] eqn:Hnext; [|done].
  apply lookup_lt_Some in Hl0 as Hi'.
  intros (Hlen & Hframe & Hset & Hflag)%IH; [|lia].
  assert (Hother : ∀ k l, datapoints_queries !! (S i + k)%nat = Some l → l ≠ l0).
  { intros k l Hl ->.
    pose proof (NoDup_lookup _ _ _ _ distinct Hl0 Hl). lia. }
  assert (Hkeep : h' !!! l0 = set_query_start (h !!! l0) ns).
  { rewrite Hframe; [by rewrite lookup_total_insert_eq|].
    intros k _ Hk. by eapply Hother. }
  split; [cbn; lia|]. split; [|split].
  - intros l Hl. rewrite Hframe.
    + rewrite lookup_total_insert_ne; [done|].
      intros <-. apply (Hl 0%nat); [cbn; lia|]. by rewrite Nat.add_0_r.
    + intros k Hk. replace (S i + k)%nat with (i + S k)%nat by lia.
      apply Hl. cbn. lia.
  - intros [|k] dpr l Hdpr Hl.
    + cbn in Hdpr. injection Hdpr as <-.
      rewrite Nat.add_0_r, Hl0 in Hl. injection Hl as <-. eauto.
    + cbn in Hdpr. replace (i + S k)%nat with (S i + k)%nat in Hl by lia.
      destruct (Hset k dpr l Hdpr Hl) as (inc' & ns' & Hn & Hh).
      rewrite lookup_total_insert_ne in Hn, Hh by (symmetry; by eapply Hother).
      eauto.
  - rewrite Hflag. split.
    + intros [Hf|(k & dpr & l & Hdpr & Hl & Hfull)].
      * apply orb_prop in Hf as [? | ->]; [by left|]. right.
        exists 0%nat, dpr0, l0. rewrite Nat.add_0_r. split; [done|].
        split; [done|]. unfold next_start_of in Hnext.
        case_bool_decide; [done|]. by injection Hnext.
      * right. exists (S k), dpr, l. split; [done|].
        replace (i + S k)%nat with (S i + k)%nat by lia. split; [done|].
        rewrite lookup_total_insert_ne in Hfull by (symmetry; by eapply Hother).
        done.
    + intros [-> | ([|k] & dpr & l & Hdpr & Hl & Hfull)]; [by left|..].
      * left. cbn in Hdpr. injection Hdpr as <-.
        rewrite Nat.add_0_r, Hl0 in Hl. injection Hl as <-.
        unfold next_start_of in Hnext. rewrite bool_decide_eq_true_2 in Hnext by done.
        destruct (last dpr0); [|done].
        destruct (granularity_ms_of _ _); [|done].
        cbn in Hnext. injection Hnext as <- _. apply orb_true_r.
      * right. exists k, dpr, l. cbn in Hdpr. split; [done|].
        replace (S i + k)%nat with (i + S k)%nat by lia. split; [done|].
        rewrite lookup_total_insert_ne; [done|].
        symmetry. apply (Hother k). by replace (S i + k)%nat with (i + S k)%nat by lia.
Qed.

End MultiSeriesProperties.

(** C5 (amended): in one round of the multi-series pager, a query whose page
    length differs from its pageLimit (in particular is less than it) does
    not ask for another round, and its cursor is set to its own end minus 1
    when it declared a non-zero end of its own, whatever the end of the
    shared window, and to the shared end minus 1 otherwise; a query whose
    page is full asks for another round and its cursor moves to the last
    returned timestamp plus its granularity in ms, where the granularity is
    its own or else the one of the call, and 1 when there is none. *)
Theorem update_cursors_short_and_full (_utils : Utils) (end_ : Z)
    (granularity : option string) (datapoints_queries : list loc)
    (res : list (list Datapoint)) (h h' : heap) (flag : bool)
    (j : nat) (l : loc) (dpr : list Datapoint) (limit : Z) :
  NoDup datapoints_queries →
  update_cursors _utils end_ granularity datapoints_queries 0 res false h
  = (h', Ok flag) →
  datapoints_queries !! j = Some l →
  res !! j = Some dpr →
  dq_limit (h !!! l) = Some limit →
  (Z.of_nat (length dpr) ≠ limit →
     (∀ query_end, dq_end (h !!! l) = Some query_end → query_end ≠ 0 →
                   dq_start (h' !!! l) = Some (query_end - 1))
     ∧ (dq_end (h !!! l) = None ∨ dq_end (h !!! l) = Some 0 →
        dq_start (h' !!! l) = Some (end_ - 1))
     ∧ (flag = true →
        ∃ j' l' dpr', j' ≠ j ∧ datapoints_queries !! j' = Some l'
                      ∧ res !! j' = Some dpr'
                      ∧ Some (Z.of_nat (length dpr')) = dq_limit (h !!! l')))
  ∧ (Z.of_nat (length dpr) = limit →
     flag = true
     ∧ ∃ dp step,
         last dpr = Some dp
         ∧ granularity_ms_of _utils
             (match dq_granularity (h !!! l) with
              | Some own => Some own
              | None => granularity
              end) = Ok step
         ∧ dq_start (h' !!! l) = Some (timestamp dp + step)).
Proof.
  intros Hdistinct Hrun Hl Hdpr Hlimit.
  destruct (update_cursors_spec _utils end_ granularity datapoints_queries
              Hdistinct res 0 false h h' flag ltac:(lia) Hrun)
    as (_ & _ & Hset & Hflag).
  destruct (Hset j dpr l Hdpr Hl) as (inc & ns & Hnext & ->).
  unfold next_start_of in Hnext. rewrite Hlimit in Hnext. split.
  - intros Hshort. rewrite bool_decide_eq_false_2 in Hnext by congruence.
    injection Hnext as <- <-. cbn. split; [|split].
    + intros query_end -> Hne. by destruct (Z.eqb_spec query_end 0).
    + by intros [->| ->].
    + intros (j' & dpr' & l' & Hdpr' & Hl' & Hfull)%Hflag%or_r; [|done].
      exists j', l', dpr'. split; [|done]. intros ->.
      cbn in Hl'. rewrite Hl in Hl'. injection Hl' as <-.
      rewrite Hdpr in Hdpr'. injection Hdpr' as <-. congruence.
  - intros Hfull. rewrite bool_decide_eq_true_2 in Hnext by congruence. split.
    + apply Hflag. right. exists j, dpr, l. cbn. by rewrite Hlimit, Hfull.
    + destruct (last dpr) as [dp|]; [|done].
      assert ((if dq_granularity (h !!! l) is None then granularity
               else dq_granularity (h !!! l))
              = match dq_granularity (h !!! l) with
                | Some own => Some own
                | None => granularity
                end) as Hgran by by destruct (dq_granularity (h !!! l)).
      rewrite Hgran in Hnext.
      destruct (granularity_ms_of _utils _) as [step|] eqn:Hstep; [|done].
      cbn in Hnext. injection Hnext as <- <-. by exists dp, step.
Qed.

(** A round over the shared window ending at 100: the first query, with its
    own end 200, gets an empty page; the second one a full page. *)
Lemma update_cursors_short_and_full_witness :
  ∃ h',
    update_cursors spec_utils 100 None [0; 1]%nat 0
      [[]; [mkDatapoint 5 (NumericValue 0)]] false budgeted_queries
    = (h', Ok true)
    ∧ dq_start (h' !!! 0%nat) = Some (200 - 1)
    ∧ dq_start (h' !!! 1%nat) = Some 6.
Proof.
  destruct (update_cursors spec_utils 100 None [0; 1]%nat 0
              [[]; [mkDatapoint 5 (NumericValue 0)]] false budgeted_queries)
    as [h' out] eqn:Hrun.
  assert (out = Ok true) as -> by (vm_compute in Hrun; congruence).
  exists h'. split; [reflexivity|].
  destruct (update_cursors_short_and_full spec_utils 100 None [0; 1]%nat
              [[]; [mkDatapoint 5 (NumericValue 0)]] budgeted_queries h' true
              0%nat 0%nat [] 1) as [Hshort _].
  - apply NoDup_cons. split; [by intros [=]%list_elem_of_singleton|].
    apply NoDup_singleton.
  - exact Hrun.
  - reflexivity.
  - reflexivity.
  - reflexivity.
  - destruct (Hshort ltac:(cbn; lia)) as (Hown & _ & _).
    split; [by apply Hown|].
    injection Hrun as <-. reflexivity.
Defined.

(** C5 as stated does not hold: a query that declared the end 200 and gets a
    short page in a shared window ending at 100 has its cursor set to 199,
    not to min(100, 200) - 1 = 99. *)
Lemma update_cursors_min_counterexample :
  ∃ h',
    update_cursors spec_utils 100 None [0; 1]%nat 0
      [[]; [mkDatapoint 5 (NumericValue 0)]] false budgeted_queries
    = (h', Ok true)
    ∧ dq_end (budgeted_queries !!! 0%nat) = Some 200
    ∧ dq_limit (budgeted_queries !!! 0%nat) = Some 1
    ∧ Z.of_nat (length (@nil Datapoint)) < 1
    ∧ dq_start (h' !!! 0%nat) = Some 199
    ∧ dq_start (h' !!! 0%nat) ≠ Some (Z.min 100 200 - 1).
Proof.
  eexists. split; [vm_compute; reflexivity|].
  repeat split; try reflexivity. vm_compute. discriminate.
Qed.

(** C6, at the inputs where the code departs from it.  A query built with
    [aggregates=[]] stores the empty string: line 530 counts it with the raw
    queries, line 537 gives it the aggregate budget.  Next to one aggregate
    query it gets 10000 / 1 instead of 100000 / 1; alone, the aggregate count
    it is divided by is 0 and the call raises before any request. *)
Theorem query_limit_class_mismatch :
  dq_aggregates (raw_and_aggregate !!! 0%nat) = Some ""%string
  ∧ counted_as_raw None (raw_and_aggregate !!! 0%nat) = true
  ∧ budgeted_as_raw None (raw_and_aggregate !!! 0%nat) = false
  ∧ count_queries None raw_and_aggregate [0; 1]%nat = (1, 1)
  ∧ dq_limit
      ((assign_limits batch_client None 1 1 [0; 1]%nat raw_and_aggregate).1
         !!! 0%nat) = Some 10000
  ∧ int_truediv (_LIMIT batch_client) 1 = Ok 100000
  ∧ count_queries None one_raw_query [0%nat] = (0, 1)
  ∧ (get_multi_time_series_datapoints spec_utils batch_client 5 one_raw_query
       [0%nat] 0 100 None None false).2 = Some (Raise ZeroDivisionError)
  ∧ (get_multi_time_series_datapoints spec_utils batch_client 5 one_raw_query
       [0%nat] 0 100 None None false).1.2 = [].
Proof. repeat split; vm_compute; reflexivity. Qed.

(** ** The store under [get_multi_time_series_datapoints] *)

Lemma same_but_start_set_start q s : same_but_start q (set_query_start q s).
Proof. reflexivity. Qed.

Lemma same_but_start_set_start_l q q' s :
  same_but_start q q' → same_but_start q (set_query_start q' s).
Proof. unfold same_but_start. intros ->. reflexivity. Qed.

Lemma same_but_start_trans q1 q2 q3 :
  same_but_start q1 q2 → same_but_start q2 q3 → same_but_start q1 q3.
Proof. unfold same_but_start. congruence. Qed.

Lemma same_but_start_limit q q' :
  same_but_start q q' → dq_limit q = dq_limit q'.
Proof.
  unfold same_but_start. intros H.
  change (dq_limit (set_query_start q 0) = dq_limit (set_query_start q' 0)).
  by rewrite H.
Qed.

Section StoreProperties.

Variable _utils : Utils.
Variable self : Client.
Variable datapoints_queries : list loc.
Variables (aggregates : option (list string)) (granularity : option string).
Variables (start end_ : Z) (include_outside_points : bool).
Hypothesis distinct : NoDup datapoints_queries.

(** A pass over a response writes nothing but [start]. *)
Lemma update_cursors_fields res : ∀ i flag h,
  ∀ l, same_but_start
         (h !!! l)
         ((update_cursors _utils end_ granularity datapoints_queries i res
                          flag h).1 !!! l).
Proof.
  induction res as [|dpr rest IH]; intros i flag h l; cbn [update_cursors];
    [done|].
  destruct (datapoints_queries !! i) as [l0|]; [|done].
  destruct (next_start_of _ _ _ _ _) as [[inc ns]|]; [|done].
  eapply same_but_start_trans; [|apply IH].
  rewrite lookup_total_insert. case_decide as Hl; [subst l0|done].
  apply same_but_start_set_start.
Qed.

(** The budgeting loop, when no division raises: every query of the list
    has the [limit] that [query_limit] computes for it, and nothing else has
    changed. *)
Lemma assign_limits_spec num_of_dpqs_with_agg num_of_dpqs_raw : ∀ queries h h',
  NoDup queries →
  assign_limits self aggregates num_of_dpqs_with_agg num_of_dpqs_raw queries h
  = (h', Ok ()) →
  ∀ l, (l ∈ queries →
        ∃ limit, query_limit self aggregates num_of_dpqs_with_agg
                             num_of_dpqs_raw (h !!! l) = Ok limit
                 ∧ h' !!! l = set_limit (h !!! l) limit)
       ∧ (l ∉ queries → h' !!! l = h !!! l).
Proof.
  induction queries as [|l0 rest IH]; intros h h' Hnd; cbn [assign_limits].
  { intros [= <-] l. split; [by intros ?%elem_of_nil|done]. }
  apply NoDup_cons in Hnd as [Hl0 Hnd].
  destruct (query_limit _ _ _ _ (h !!! l0)) as [limit|] eqn:Hlimit; [|done].
  intros Hrest l. destruct (IH _ _ Hnd Hrest l) as [Hin Hout].
  destruct (decide (l = l0)) as [->|Hne].
  - split; [|by intros []; apply elem_of_cons; left].
    intros _. exists limit. split; [done|].
    by rewrite Hout, lookup_total_insert_eq.
  - rewrite lookup_total_insert_ne in Hin, Hout by done. split.
    + intros [?|?]%elem_of_cons; [done|auto].
    + intros Hl. apply Hout. intros ?. apply Hl. by apply elem_of_cons; right.
Qed.

Local Abbreviation body_of h :=
  (serialise h datapoints_queries aggregates granularity start end_
             include_outside_points).

Lemma body_of_lookup h i q :
  b_items (body_of h) !! i = Some q
  ↔ ∃ l, datapoints_queries !! i = Some l ∧ q = h !!! l.
Proof.
  cbn. rewrite list_lookup_fmap, fmap_Some. naive_solver.
Qed.

(** What the bodies of a run of the paging loop carry. *)
Lemma paging_rounds_spec fuel : ∀ datapoints_responses h,
  let run := paging_rounds _utils self fuel datapoints_queries aggregates
               granularity start end_ include_outside_points
               datapoints_responses h in
  (∀ l, same_but_start (h !!! l) (run.1.1 !!! l))
  ∧ (∀ b, run.1.2 !! 0%nat = Some b → b = body_of h)
  ∧ (∀ k b b', run.1.2 !! k = Some b → run.1.2 !! S k = Some b' →
       ∃ res, _post self b = Ok res
              ∧ ∀ i q dpr, b_items b !! i = Some q → res !! i = Some dpr →
                  ∃ incomplete next_start,
                    next_start_of _utils end_ granularity q dpr
                    = Ok (incomplete, next_start)
                    ∧ b_items b' !! i = Some (set_query_start q next_start))
  ∧ (∀ b, b ∈ run.1.2 →
       Forall2 (fun l q => same_but_start (h !!! l) q)
               datapoints_queries (b_items b))
  ∧ (∀ responses, run.2 = Some (Ok responses) →
       ∃ b res, last run.1.2 = Some b
                ∧ _post self b = Ok res
                ∧ ∀ i l dpr, datapoints_queries !! i = Some l →
                    res !! i = Some dpr →
                    ∃ q incomplete next_start,
                      b_items b !! i = Some q
                      ∧ next_start_of _utils end_ granularity q dpr
                        = Ok (incomplete, next_start)
                      ∧ run.1.1 !!! l = set_query_start q next_start).
Proof.
  induction fuel as [|fuel IH]; intros acc h; cbn zeta; cbn [paging_rounds].
  { cbn. repeat split; try done. by intros ? ?%elem_of_nil. }
  assert (Hself : Forall2 (fun l q => same_but_start (h !!! l) q)
                          datapoints_queries (b_items (body_of h))).
  { cbn. apply Forall2_fmap_r, Forall_Forall2_diag, Forall_forall. done. }
  destruct (_post self (body_of h)) as [res|e] eqn:Hpost.
  2:{ cbn. repeat split; try done.
      - by intros b [= <-].
      - by intros b ->%list_elem_of_singleton. }
  pose proof (update_cursors_fields res 0 false h) as Hfields.
  destruct (update_cursors _utils end_ granularity datapoints_queries 0 res
                           false h) as [h1 [flag|e]] eqn:Hupd; cbn in Hfields.
  2:{ cbn. repeat split; try done.
      - by intros b [= <-].
      - by intros b ->%list_elem_of_singleton. }
  destruct (update_cursors_spec _utils end_ granularity datapoints_queries
              distinct res 0 false h h1 flag ltac:(lia) Hupd)
    as (_ & _ & Hset & _).
  destruct flag.
  - specialize (IH (acc ++ [res]) h1). cbn zeta in IH.
    destruct (paging_rounds _ _ _ _ _ _ _ _ _ _ _) as [[h2 bodies] out].
    cbn [fst snd] in *.
    destruct IH as (IHf & IHhead & IHchain & IHitems & IHlast).
    split; [|split; [|split; [|split]]].
    + intros l. eapply same_but_start_trans; [apply Hfields|apply IHf].
    + by intros b [= <-].
    + intros [|k] b b' Hb Hb'; cbn in Hb, Hb'.
      * injection Hb as <-. apply IHhead in Hb' as ->.
        exists res. split; [done|].
        intros i q dpr (l & Hl & ->)%body_of_lookup Hdpr.
        destruct (Hset i dpr l Hdpr Hl) as (inc & ns & Hnext & Hh1).
        exists inc, ns. split; [done|]. apply body_of_lookup. eauto.
      * exact (IHchain k b b' Hb Hb').
    + intros b [->|Hb]%elem_of_cons; [done|].
      apply IHitems in Hb.
      eapply Forall2_impl; [exact Hb|]. intros l q Hq. cbn in Hq.
      eapply same_but_start_trans; [apply Hfields|done].
    + intros responses Hout. destruct (IHlast responses Hout)
        as (b & res' & Hlast & Hrest).
      exists b, res'. split; [|done]. by rewrite last_cons, Hlast.
  - cbn [fst snd]. split; [|split; [|split; [|split]]].
    + done.
    + by intros b [= <-].
    + by intros [|k] b b' Hb Hb'.
    + by intros b ->%list_elem_of_singleton.
    + intros responses _. exists (body_of h), res. split; [done|].
      split; [done|]. intros i l dpr Hl Hdpr.
      destruct (Hset i dpr l Hdpr Hl) as (inc & ns & Hnext & Hh1).
      exists (h !!! l), inc, ns. split; [|done]. apply body_of_lookup. eauto.
Qed.

End StoreProperties.

Lemma next_start_of_short (_utils : Utils) end_ granularity q dpr incomplete
    next_start :
  next_start_of _utils end_ granularity q dpr = Ok (incomplete, next_start) →
  Some (Z.of_nat (length dpr)) ≠ dq_limit q →
  incomplete = false.
Proof.
  unfold next_start_of. intros Hnext Hshort.
  rewrite bool_decide_eq_false_2 in Hnext by done. by injection Hnext.
Qed.

(** C10: [get_multi_time_series_datapoints] writes into the query objects it
    is given.  Once the budgeting loop has run, so before the first request,
    every query has its [limit] attribute overwritten with its budget, and
    the caller finds it there afterwards.  After every batched request the
    [start] of every query the response covers is overwritten, and because
    the items of the body are the attribute dictionaries of those objects,
    the next request carries every query of the list, each with the cursor
    just written: also the queries whose page was not full, which are done. *)
Theorem multi_series_mutates_queries (_utils : Utils) (self : Client)
    (fuel : nat) (h : heap) (datapoints_queries : list loc) (start end_ : Z)
    (aggregates : option (list string)) (granularity : option string)
    (include_outside_points : bool) :
  NoDup datapoints_queries →
  let counts := count_queries aggregates h datapoints_queries in
  let run := get_multi_time_series_datapoints _utils self fuel h
               datapoints_queries start end_ aggregates granularity
               include_outside_points in
  (run.1.2 ≠ [] →
   ∀ i l, datapoints_queries !! i = Some l →
     ∃ limit,
       query_limit self aggregates counts.1 counts.2 (h !!! l) = Ok limit
       ∧ dq_limit (run.1.1 !!! l) = Some limit
       ∧ ∀ b, b ∈ run.1.2 →
           ∃ q, b_items b !! i = Some q ∧ dq_limit q = Some limit)
  ∧ (∀ k b b', run.1.2 !! k = Some b → run.1.2 !! S k = Some b' →
       length (b_items b') = length datapoints_queries
       ∧ ∃ res, _post self b = Ok res
                ∧ ∀ i q dpr, b_items b !! i = Some q → res !! i = Some dpr →
                    ∃ incomplete next_start,
                      next_start_of _utils end_ granularity q dpr
                      = Ok (incomplete, next_start)
                      ∧ b_items b' !! i = Some (set_query_start q next_start)
                      ∧ (Some (Z.of_nat (length dpr)) ≠ dq_limit q →
                         incomplete = false))
  ∧ (∀ results, run.2 = Some (Ok results) →
       ∃ b res, last run.1.2 = Some b
                ∧ _post self b = Ok res
                ∧ ∀ i l dpr, datapoints_queries !! i = Some l →
                    res !! i = Some dpr →
                    ∃ q incomplete next_start,
                      b_items b !! i = Some q
                      ∧ next_start_of _utils end_ granularity q dpr
                        = Ok (incomplete, next_start)
                      ∧ dq_start (run.1.1 !!! l) = Some next_start).
Proof.
  intros Hdistinct counts run. subst run.
  unfold get_multi_time_series_datapoints. fold counts.
  destruct (assign_limits self aggregates counts.1 counts.2 datapoints_queries h)
    as [h1 [[]|e]] eqn:Hassign; cbn [fst snd]; [|done].
  pose proof (assign_limits_spec self aggregates counts.1 counts.2
                datapoints_queries h h1 Hdistinct Hassign) as Hlimits.
  destruct (paging_rounds_spec _utils self datapoints_queries aggregates
              granularity start end_ include_outside_points Hdistinct fuel [] h1)
    as (Hfields & _ & Hchain & Hitems & Hlast).
  destruct (paging_rounds _ _ _ _ _ _ _ _ _ _ _) as [[h2 bodies] out].
  cbn [fst snd] in *. split; [|split].
  - intros _ i l Hl.
    destruct (proj1 (Hlimits l)) as (limit & Hlimit & Hh1);
      [by eapply list_elem_of_lookup_2|].
    exists limit. split; [done|].
    assert (dq_limit (h1 !!! l) = Some limit) as Hl1 by by rewrite Hh1.
    split; [by rewrite <- (same_but_start_limit _ _ (Hfields l))|].
    intros b Hb.
    destruct (Forall2_lookup_l _ _ _ _ _ (Hitems b Hb) Hl) as (q & Hq & Hsame).
    exists q. split; [done|]. by rewrite <- (same_but_start_limit _ _ Hsame).
  - intros k b b' Hb Hb'. split.
    + symmetry. eapply Forall2_length, Hitems.
      by eapply list_elem_of_lookup_2.
    + destruct (Hchain k b b' Hb Hb') as (res & Hpost & Hnext).
      exists res. split; [done|]. intros i q dpr Hq Hdpr.
      destruct (Hnext i q dpr Hq Hdpr) as (inc & ns & Hn & Hq').
      exists inc, ns. split; [done|]. split; [done|].
      by eapply next_start_of_short.
  - intros results Hout.
    destruct out as [[responses|e]|]; [|done..].
    destruct (Hlast responses eq_refl) as (b & res & Hb & Hpost & Hfinal).
    exists b, res. split; [done|]. split; [done|]. intros i l dpr Hl Hdpr.
    destruct (Hfinal i l dpr Hl Hdpr) as (q & inc & ns & Hq & Hn & ->).
    by exists q, inc, ns.
Qed.

(** Two raw queries on a budget of two points: "short" is done after the
    first request, "long" after the second; the second request carries both,
    "short" with the cursor 99 it got when it finished. *)
Lemma multi_series_mutates_queries_witness :
  let run := get_multi_time_series_datapoints spec_utils lockstep_client 5
               two_queries [0; 1]%nat 0 100 None None false in
  (b_items <$> run.1.2)
  = [[mkDatapointsQuery "short" None None None None (Some 1);
      mkDatapointsQuery "long" None None None None (Some 1)];
     [mkDatapointsQuery "short" None None (Some 99) None (Some 1);
      mkDatapointsQuery "long" None None (Some 1) None (Some 1)]]
  ∧ run.2 = Some (Ok [mkDatapointsResponse "short" [];
                      mkDatapointsResponse "long" [mkDatapoint 0 (NumericValue 0)]])
  ∧ dq_limit (two_queries !!! 0%nat) = None
  ∧ dq_limit (run.1.1 !!! 0%nat) = Some 1
  ∧ dq_start (run.1.1 !!! 1%nat) = Some 99.
Proof.
  cbv zeta.
  destruct (multi_series_mutates_queries spec_utils lockstep_client 5
              two_queries [0; 1]%nat 0 100 None None false)
    as (Hlimit & _ & _).
  { apply NoDup_cons. split; [by intros [=]%list_elem_of_singleton|].
    apply NoDup_singleton. }
  destruct (Hlimit ltac:(by vm_compute) 0%nat 0%nat eq_refl)
    as (limit & Hq & Hfinal & _).
  vm_compute in Hq. injection Hq as <-.
  split; [reflexivity|]. split; [reflexivity|]. split; [reflexivity|].
  split; [exact Hfinal|reflexivity].
Defined.

(** * Further properties *)

(** ** The split *)

Lemma abs_lt_multiple k m g : 0 < g → Z.abs (k * g - m * g) < g → k = m.
Proof.
  intros Hg Hk. apply Z.abs_lt in Hk.
  destruct (Z.lt_trichotomy k m) as [?|[?|?]]; [nia|done|nia].
Qed.



(** For a window of less than 2^53 ms the two quotients of the split come
    out of the double exactly, and the sub-windows end less than steps *
    granularity away from the end of the window, before or after it, and
    exactly at it when steps * granularity divides the length of the
    window. *)
Theorem split_windows_residue (_utils : Utils) (start end_ workerCount
    granularityMs : Z) :
  rounds_to_adjacent_multiple (round_to_nearest _utils) →
  start < end_ → end_ - start < 2 ^ 53 →
  1 ≤ workerCount → 1 ≤ granularityMs →
  ∃ steps windows w,
    int_float_truediv (end_ - start) granularityMs
    = int_truediv (end_ - start) granularityMs
    ∧ int_float_truediv (end_ - start) steps = int_truediv (end_ - start) steps
    ∧ split_windows _utils start end_ workerCount granularityMs
      = Ok (steps, windows)
    ∧ last windows = Some w
    ∧ Z.abs (w_end w - end_) < steps * granularityMs
    ∧ ((steps * granularityMs | end_ - start) → w_end w = end_).
Proof.
  intros Hround Hse Hsmall Hw Hg.
  destruct (split_windows_shape _utils Hround start end_ workerCount
              granularityMs Hse Hw Hg) as (k & _ & Hk & Heq).
  set (steps := Z.min _ _) in *.
  assert (Hsteps : 1 ≤ steps) by (subst steps; lia).
  eexists steps, _,
    (mkWindow (start + (steps - 1) * (k * granularityMs))
              (start + steps * (k * granularityMs))).
  split; [apply int_float_truediv_exact; lia|].
  split; [apply int_float_truediv_exact; lia|].
  split; [exact Heq|]. split.
  { rewrite last_lookup, length_fmap, length_seqZ. apply lookup_windows.
    split; [lia|].
    replace (Z.of_nat (pred (Z.to_nat steps))) with (steps - 1) by lia.
    f_equal; lia. }
  cbn. split.
  - pose proof (Z.div_mod (end_ - start) steps ltac:(lia)).
    pose proof (Z.mod_pos_bound (end_ - start) steps ltac:(lia)).
    apply Z.abs_lt in Hk. apply Z.abs_lt. nia.
  - intros [m Hm].
    assert ((end_ - start) / steps = m * granularityMs) as Hq.
    { rewrite Hm. replace (m * (steps * granularityMs))
        with (m * granularityMs * steps) by lia.
      apply Z.div_mul. lia. }
    rewrite Hq in Hk. apply abs_lt_multiple in Hk as ->; lia.
Qed.

Lemma split_windows_residue_witness :
  ∃ windows w,
    split_windows spec_utils 0 1000000 3 10000 = Ok (3, windows)
    ∧ last windows = Some w
    ∧ Z.abs (w_end w - 1000000) < 3 * 10000.
Proof.
  destruct (split_windows_residue spec_utils 0 1000000 3 10000)
    as (steps & windows & w & _ & _ & Heq & Hlast & Hres & _);
    [apply roundDownToMultiple_adjacent|lia|vm_compute; reflexivity|lia..|].
  exists windows, w.
  assert (steps = 3) as -> by (vm_compute in Heq; congruence).
  done.
Defined.

(** ** Edge cases of [get_datapoints] *)

Lemma paging_loop_empty_window (_utils : Utils) (self : Client) fuel name
    use_protobuf granularity limit params :
  p_end params ≤ p_start params →
  paging_loop _utils self (S fuel) name use_protobuf granularity limit [] params
  = ([], Some (Ok [])).
Proof.
  intros Hw. cbn. destruct (Z.gtb_spec (p_end params) (p_start params)); [lia|done].
Qed.

(** On a window with end <= start, [get_datapoints] without a user-defined
    limit returns an empty response, and its one worker issues no request. *)
Theorem get_datapoints_empty_window (_utils : Utils) (self : Client)
    (fuel : nat) (completion : list nat) (name : string) (start end_ : Z)
    (aggregates : option (list string)) (granularity : option string)
    (kwargs : Kwargs) (g : Z) :
  rounds_to_adjacent_multiple (round_to_nearest _utils) →
  truthy_int (kw_limit kwargs) = false →
  end_ ≤ start →
  1 ≤ workers_used self kwargs →
  granularity_ms_of _utils granularity = Ok g →
  1 ≤ g →
  all_complete completion 1 →
  get_datapoints _utils self (S fuel) completion name start end_ aggregates
                 granularity kwargs
  = Some (Ok (mkDatapointsResponse name []))
  ∧ ∃ w, dispatched_windows _utils self start end_ granularity kwargs
         = Ok (1, [w])
         ∧ w_start w = start ∧ w_end w ≤ start
         ∧ worker_requests _utils self (S fuel) name aggregates granularity
                           kwargs w = [].
Proof.
  intros Hround Hlimit Hes Hw Hg Hg1 Hall.
  destruct (Hround (end_ - start) g ltac:(lia)) as (k & Hr & Hk).
  assert (Hk0 : k * g ≤ 0).
  { apply Z.abs_lt in Hk. destruct (Z.le_gt_cases k 0); nia. }
  assert (Hsplit : dispatched_windows _utils self start end_ granularity kwargs
                   = Ok (1, [mkWindow start (start + k * g)])).
  { unfold dispatched_windows. rewrite Hg. cbn.
    unfold split_windows, split_steps, split_step_size, int_truediv.
    destruct (Z.eqb_spec g 0) as [?|_]; [lia|]. cbn.
    assert ((end_ - start) ÷ g ≤ 0).
    { rewrite <- (Z.opp_involutive (end_ - start)), Z.quot_opp_l by lia.
      pose proof (Z.quot_pos (- (end_ - start)) g ltac:(lia) ltac:(lia)). lia. }
    replace (Z.min (workers_used self kwargs) (Z.max 1 ((end_ - start) ÷ g)))
      with 1 by lia.
    cbn. rewrite Z.quot_1_r, Hr. cbn. do 2 f_equal.
    change (range 1) with [0]. cbn. do 2 f_equal; lia. }
  assert (Hreq : helper_pages _utils self (S fuel) name aggregates granularity
                   start (start + k * g) (default true (kw_protobuf kwargs))
                   (default false (kw_include_outside_points kwargs))
                 = ([], Some (Ok []))).
  { unfold helper_pages. apply paging_loop_empty_window. cbn. lia. }
  split.
  - rewrite (get_datapoints_join _utils self (S fuel) completion name start end_
               aggregates granularity kwargs 1 _ Hlimit Hsplit) by done.
    cbn. unfold partial_get_dps, _get_datapoints_helper_wrapper,
      _get_datapoints_helper. cbn [w_start w_end]. by rewrite Hreq.
  - eexists. split; [exact Hsplit|]. cbn [w_start w_end].
    split; [done|]. split; [lia|].
    unfold worker_requests. cbn [w_start w_end]. by rewrite Hreq.
Qed.

Lemma get_datapoints_empty_window_witness :
  get_datapoints spec_utils first_point_client 1 [0%nat] "ts" 500 500
    None None (mkKwargs None None None None)
  = Some (Ok (mkDatapointsResponse "ts" [])).
Proof.
  apply (get_datapoints_empty_window spec_utils first_point_client 0 [0%nat]
           "ts" 500 500 None None (mkKwargs None None None None) 1).
  - apply roundDownToMultiple_adjacent.
  - reflexivity.
  - lia.
  - vm_compute. discriminate.
  - reflexivity.
  - lia.
  - intros i Hi. assert (i = 0%nat) as -> by lia.
    by apply list_elem_of_singleton.
Defined.

(** Without a user-defined limit, a worker count of 0 makes [get_datapoints]
    raise [ZeroDivisionError], and a negative one [ValueError], in both cases
    before any request. *)
Theorem get_datapoints_bad_worker_count (_utils : Utils) (self : Client)
    (fuel : nat) (completion : list nat) (name : string) (start end_ : Z)
    (aggregates : option (list string)) (granularity : option string)
    (kwargs : Kwargs) (g : Z) :
  rounds_to_adjacent_multiple (round_to_nearest _utils) →
  truthy_int (kw_limit kwargs) = false →
  granularity_ms_of _utils granularity = Ok g →
  1 ≤ g →
  (workers_used self kwargs = 0 →
   get_datapoints _utils self fuel completion name start end_ aggregates
                  granularity kwargs = Some (Raise ZeroDivisionError))
  ∧ (workers_used self kwargs < 0 →
     get_datapoints _utils self fuel completion name start end_ aggregates
                    granularity kwargs = Some (Raise ValueError)).
Proof.
  intros Hround Hlimit Hg Hg1. unfold get_datapoints, dispatched_windows.
  rewrite Hlimit, Hg. cbn.
  unfold split_windows, split_steps, split_step_size, int_truediv.
  destruct (Z.eqb_spec g 0) as [?|_]; [lia|]. cbn. split; intros Hw.
  - rewrite Hw. replace (Z.min 0 (Z.max 1 ((end_ - start) ÷ g))) with 0 by lia.
    done.
  - set (steps := Z.min _ _). assert (steps < 0) by (subst steps; lia).
    destruct (Z.eqb_spec steps 0) as [?|_]; [lia|]. cbn.
    destruct (Hround ((end_ - start) ÷ steps) g ltac:(lia)) as (k & -> & _).
    cbn. by destruct (Z.leb_spec steps 0); [|lia].
Qed.

Lemma get_datapoints_bad_worker_count_witness :
  get_datapoints spec_utils first_point_client 5 [] "ts" 0 1000 None None
    (mkKwargs None (Some 0) None None) = Some (Raise ZeroDivisionError)
  ∧ get_datapoints spec_utils first_point_client 5 [] "ts" 0 1000 None None
      (mkKwargs None (Some (-2)) None None) = Some (Raise ValueError).
Proof.
  split.
  - apply (get_datapoints_bad_worker_count spec_utils first_point_client 5 []
             "ts" 0 1000 None None (mkKwargs None (Some 0) None None) 1);
      [apply roundDownToMultiple_adjacent|reflexivity|reflexivity|lia
      |reflexivity].
  - apply (get_datapoints_bad_worker_count spec_utils first_point_client 5 []
             "ts" 0 1000 None None (mkKwargs None (Some (-2)) None None) 1);
      [apply roundDownToMultiple_adjacent|reflexivity|reflexivity|lia
      |vm_compute; reflexivity].
Defined.

(** ** The pages of the paging loop *)

(** Every page the loop adds is non-empty, and a page that is followed by
    another one is full. *)
Lemma paging_loop_full_pages (_utils : Utils) (self : Client) name use_protobuf
    granularity limit fuel : ∀ datapoints params pages,
  (paging_loop _utils self fuel name use_protobuf granularity limit
               datapoints params).2 = Some (Ok pages) →
  ∃ new_pages,
    pages = datapoints ++ new_pages
    ∧ Forall (fun page => page ≠ []) new_pages
    ∧ ∀ i page, pages !! i = Some page →
        (length datapoints ≤ S i)%nat → (S i < length pages)%nat →
        Z.of_nat (length page) = limit.
Proof.
  induction fuel as [|fuel IH]; intros datapoints params pages;
    cbn [paging_loop]; [done|].
  assert (Hstop : ∃ new_pages : list (list Datapoint),
             datapoints = datapoints ++ new_pages
             ∧ Forall (fun page => page ≠ []) new_pages
             ∧ ∀ i page, datapoints !! i = Some page →
                 (length datapoints ≤ S i)%nat → (S i < length datapoints)%nat →
                 Z.of_nat (length page) = limit).
  { exists []. rewrite app_nil_r. split; [done|]. split; [constructor|].
    intros; lia. }
  destruct (keep_paging datapoints limit params) eqn:Hkeep;
    [|by intros [= <-]].
  destruct (_get self name params use_protobuf) as [res|e]; [|done].
  destruct (last res) as [dp|] eqn:Hlast; [|by intros [= <-]].
  destruct (granularity_ms_of _utils granularity) as [step|]; [|done].
  cbn [snd]. intros (new_pages & -> & Hne & Hfull)%IH.
  exists (res :: new_pages). split; [by rewrite <- app_assoc|]. split.
  - constructor; [|done]. intros ->. done.
  - intros i page Hpage Hi Hlen.
    destruct (decide (S i = length datapoints)) as [Heq|Hneq].
    + apply andb_prop in Hkeep as [Hlastfull _].
      rewrite <- app_assoc, lookup_app_l in Hpage by lia.
      rewrite last_lookup in Hlastfull.
      replace (pred (length datapoints)) with i in Hlastfull by lia.
      rewrite Hpage in Hlastfull. by apply Z.eqb_eq.
    + apply (Hfull i page Hpage); [rewrite length_app; cbn; lia|done].
Qed.

(** A run of [_get_datapoints_helper] that returns has kept only non-empty
    pages, and all of them but the last hold exactly the page limit: n pages
    carry more than (n - 1) * limit datapoints. *)
Theorem helper_pages_full_but_last (_utils : Utils) (self : Client)
    (fuel : nat) (name : string) (aggregates : option (list string))
    (granularity : option string) (start end_ : Z)
    (protobuf include_outside_points : bool) (pages : list (list Datapoint)) :
  (helper_pages _utils self fuel name aggregates granularity start end_
                protobuf include_outside_points).2 = Some (Ok pages) →
  Forall (fun page => page ≠ []) pages
  ∧ (∀ i page, pages !! i = Some page → (S i < length pages)%nat →
               Z.of_nat (length page) = helper_limit self aggregates)
  ∧ _get_datapoints_helper _utils self fuel name aggregates granularity
                           start end_ protobuf include_outside_points
    = Some (Ok (concat pages)).
Proof.
  intros Hrun. unfold _get_datapoints_helper. rewrite Hrun.
  unfold helper_pages in Hrun.
  apply paging_loop_full_pages in Hrun as (new_pages & -> & Hne & Hfull).
  split; [done|]. split; [|done].
  intros i page Hpage Hlen. apply (Hfull i page Hpage); [cbn; lia|done].
Qed.

Lemma helper_pages_full_but_last_witness :
  Forall (fun page : list Datapoint => page ≠ [])
    [[mkDatapoint 5 (NumericValue 0)]; [mkDatapoint 6 (NumericValue 0)];
     [mkDatapoint 7 (NumericValue 0)]]
  ∧ _get_datapoints_helper spec_utils one_per_page_client 10 "ts" None None
      5 8 true false
    = Some (Ok [mkDatapoint 5 (NumericValue 0); mkDatapoint 6 (NumericValue 0);
                mkDatapoint 7 (NumericValue 0)]).
Proof.
  destruct (helper_pages_full_but_last spec_utils one_per_page_client 10 "ts"
              None None 5 8 true false
              [[mkDatapoint 5 (NumericValue 0)];
               [mkDatapoint 6 (NumericValue 0)];
               [mkDatapoint 7 (NumericValue 0)]] eq_refl)
    as (Hne & _ & Hres).
  split; [exact Hne|exact Hres].
Defined.

Lemma ascending_last_max (dps : list Datapoint) dp :
  ascending dps → last dps = Some dp →
  Forall (fun d => timestamp d ≤ timestamp dp) dps.
Proof.
  intros Hasc [l ->]%last_Some.
  apply StronglySorted_app in Hasc as (Hlt & _ & _).
  apply Forall_app. split.
  - apply Forall_forall. intros d Hd.
    specialize (Hlt d dp Hd ltac:(by apply list_elem_of_singleton)). lia.
  - apply Forall_singleton. lia.
Qed.

Lemma page_chain_ascending get step params reqs pages :
  1 ≤ step →
  respects_start get →
  (∀ params res, get params = Ok res → ascending res) →
  page_chain get step params reqs pages →
  ascending (concat pages)
  ∧ Forall (fun d => p_start params ≤ timestamp d) (concat pages).
Proof.
  intros Hstep Hge Hasc.
  induction 1 as [| |params res dp reqs pages Hget Hlast _ IH];
    [split; constructor..|].
  destruct IH as [IHasc IHge]. cbn in IHge.
  pose proof (Hge _ _ Hget) as Hres.
  pose proof (ascending_last_max res dp (Hasc _ _ Hget) Hlast) as Hmax.
  assert (p_start params ≤ timestamp dp).
  { apply last_Some in Hlast as [l ->].
    apply Forall_app in Hres as [_ Hdp]. rewrite Forall_singleton in Hdp. lia. }
  cbn. split.
  - apply StronglySorted_app_2; [|by eapply Hasc|done].
    intros x1 x2 Hx1 Hx2.
    pose proof (proj1 (Forall_forall _ _) Hmax x1 Hx1).
    pose proof (proj1 (Forall_forall _ _) IHge x2 Hx2). cbn in *. lia.
  - apply Forall_app. split; [done|].
    eapply Forall_impl; [exact IHge|]. cbn. intros; lia.
Qed.

(** Against a server whose pages have strictly ascending timestamps at or
    after the requested start, what [_get_datapoints_helper] returns has
    strictly ascending timestamps at or after the start of the window: no
    datapoint comes twice and none out of order. *)
Theorem helper_result_ascending (_utils : Utils) (self : Client)
    (fuel : nat) (name : string) (aggregates : option (list string))
    (granularity : option string) (start end_ : Z)
    (protobuf include_outside_points : bool) (step : Z)
    (dps : list Datapoint) :
  granularity_ms_of _utils granularity = Ok step →
  1 ≤ step →
  respects_start
    (fun params => _get self name params (protobuf && bool_decide (aggregates = None))) →
  (∀ params res,
     _get self name params (protobuf && bool_decide (aggregates = None)) = Ok res →
     ascending res) →
  _get_datapoints_helper _utils self fuel name aggregates granularity
                         start end_ protobuf include_outside_points
  = Some (Ok dps) →
  ascending dps ∧ Forall (fun d => start ≤ timestamp d) dps.
Proof.
  intros Hstep Hpos Hge Hasc. unfold _get_datapoints_helper, helper_pages.
  destruct (paging_loop _ _ _ _ _ _ _ _ _) as [reqs [[pages|e]|]] eqn:Hloop;
    cbn; [|done..].
  intros [= <-].
  apply (paging_loop_chain _utils self name _ granularity _ step Hstep)
    in Hloop as (new_pages & -> & Hchain).
  rewrite app_nil_l.
  exact (page_chain_ascending _ step _ _ _ Hpos Hge Hasc Hchain).
Qed.

Lemma helper_result_ascending_witness :
  _get_datapoints_helper spec_utils one_per_page_client 10 "ts" None None
    5 8 true false
  = Some (Ok [mkDatapoint 5 (NumericValue 0); mkDatapoint 6 (NumericValue 0);
              mkDatapoint 7 (NumericValue 0)])
  ∧ ascending [mkDatapoint 5 (NumericValue 0); mkDatapoint 6 (NumericValue 0);
               mkDatapoint 7 (NumericValue 0)].
Proof.
  split; [reflexivity|].
  apply (helper_result_ascending spec_utils one_per_page_client 10 "ts" None
           None 5 8 true false 1).
  - reflexivity.
  - lia.
  - apply first_point_respects_start.
  - intros params res. cbn. unfold first_point_get.
    destruct (p_start params <? p_end params); intros [= <-];
      repeat constructor.
  - reflexivity.
Defined.

(** ** The results of [get_multi_time_series_datapoints] *)

Lemma extend_results_spec res : ∀ i results,
  (i + length res ≤ length results)%nat →
  ∃ results',
    extend_results i res results = Ok results'
    ∧ length results' = length results
    ∧ ∀ j r, results !! j = Some r →
        results' !! j
        = Some (mkDatapointsResponse (r_name r)
                  (r_datapoints r
                   ++ (if decide (i ≤ j)%nat then default [] (res !! (j - i)%nat)
                       else []))).
Proof.
  induction res as [|ts rest IH]; intros i results Hlen; cbn [extend_results].
  { exists results. split; [done|]. split; [done|]. intros j [name dps] ->.
    cbn. by destruct (decide _); rewrite ?lookup_nil; cbn; rewrite app_nil_r. }
  cbn in Hlen.
  destruct (lookup_lt_is_Some_2 results i ltac:(lia)) as [r0 Hr0]. rewrite Hr0.
  destruct (IH (S i) (<[i := mkDatapointsResponse (r_name r0)
                                   (r_datapoints r0 ++ ts)]> results))
    as (results' & -> & Hlen' & Hlookup); [rewrite length_insert; lia|].
  exists results'. split; [done|]. rewrite length_insert in Hlen'.
  split; [done|]. intros j r Hr.
  destruct (decide (j = i)) as [->|Hne].
  - rewrite Hr0 in Hr. injection Hr as <-.
    assert (i < length results)%nat as Hi by lia.
    rewrite (Hlookup i _ (list_lookup_insert_eq results i _ Hi)). cbn.
    destruct (decide (S i ≤ i)%nat); [lia|].
    destruct (decide (i ≤ i)%nat); [|lia].
    rewrite Nat.sub_diag. cbn. by rewrite app_nil_r.
  - rewrite (Hlookup j r) by by rewrite list_lookup_insert_ne.
    do 3 f_equal. destruct (decide (S i ≤ j)%nat), (decide (i ≤ j)%nat);
      try lia; [|done].
    by replace (j - i)%nat with (S (j - S i)) by lia.
Qed.

Lemma build_results_spec datapoints_responses : ∀ results,
  Forall (fun res : list (list Datapoint) => (length res ≤ length results)%nat)
         datapoints_responses →
  ∃ results',
    build_results datapoints_responses results = Ok results'
    ∧ length results' = length results
    ∧ ∀ j r, results !! j = Some r →
        results' !! j
        = Some (mkDatapointsResponse (r_name r)
                  (r_datapoints r
                   ++ concat ((fun res => default [] (res !! j))
                                <$> datapoints_responses))).
Proof.
  induction datapoints_responses as [|res rest IH]; intros results Hlen;
    cbn [build_results].
  { exists results. split; [done|]. split; [done|]. intros j [name dps] ->.
    cbn. by rewrite app_nil_r. }
  apply Forall_cons in Hlen as [Hres Hrest].
  destruct (extend_results_spec res 0 results ltac:(lia))
    as (results1 & -> & Hlen1 & Hlookup1). cbn.
  destruct (IH results1) as (results' & -> & Hlen' & Hlookup');
    [by rewrite Hlen1|].
  exists results'. split; [done|]. split; [lia|]. intros j r Hr.
  rewrite (Hlookup' j _ (Hlookup1 j r Hr)). cbn.
  destruct (decide (0 ≤ j)%nat); [|lia]. rewrite Nat.sub_0_r.
  by rewrite <- app_assoc.
Qed.

Section ResultsProperties.

Variable _utils : Utils.
Variable self : Client.
Variable datapoints_queries : list loc.
Variables (aggregates : option (list string)) (granularity : option string).
Variables (start end_ : Z) (include_outside_points : bool).

Lemma assign_limits_name num_of_dpqs_with_agg num_of_dpqs_raw : ∀ queries h l,
  dq_name ((assign_limits self aggregates num_of_dpqs_with_agg
                          num_of_dpqs_raw queries h).1 !!! l)
  = dq_name (h !!! l).
Proof.
  induction queries as [|l0 rest IH]; intros h l; cbn [assign_limits]; [done|].
  destruct (query_limit _ _ _ _ _) as [limit|]; [|done].
  rewrite IH, lookup_total_insert. by case_decide; subst.
Qed.

Lemma same_but_start_name q q' : same_but_start q q' → dq_name q = dq_name q'.
Proof.
  unfold same_but_start. intros H.
  change (dq_name (set_query_start q 0) = dq_name (set_query_start q' 0)).
  by rewrite H.
Qed.

(** A pass that returns has found a query for every item of the response. *)
Lemma update_cursors_length res : ∀ i flag h flag',
  (i ≤ length datapoints_queries)%nat →
  (update_cursors _utils end_ granularity datapoints_queries i res flag h).2
  = Ok flag' →
  (i + length res ≤ length datapoints_queries)%nat.
Proof.
  induction res as [|dpr rest IH]; intros i flag h flag' Hi;
    cbn [update_cursors]; [cbn; lia|].
  destruct (datapoints_queries !! i) as [l0|] eqn:Hl0; [|done].
  apply lookup_lt_Some in Hl0.
  destruct (next_start_of _ _ _ _ _) as [[inc ns]|]; [|done].
  intros ?%IH; [cbn; lia|lia].
Qed.

(** The responses of a run that returns are the answers to its bodies. *)
Lemma paging_rounds_responses fuel : ∀ datapoints_responses h responses,
  (paging_rounds _utils self fuel datapoints_queries aggregates granularity
                 start end_ include_outside_points datapoints_responses h).2
  = Some (Ok responses) →
  ∃ new_responses,
    responses = datapoints_responses ++ new_responses
    ∧ Forall2 (fun b res => _post self b = Ok res
                            ∧ (length res ≤ length datapoints_queries)%nat)
        (paging_rounds _utils self fuel datapoints_queries aggregates
                       granularity start end_ include_outside_points
                       datapoints_responses h).1.2
        new_responses.
Proof.
  induction fuel as [|fuel IH]; intros acc h responses; cbn [paging_rounds];
    [done|].
  destruct (_post self _) as [res|e] eqn:Hpost; [|done].
  destruct (update_cursors _ _ _ _ _ _ _ _) as [h1 [flag|e]] eqn:Hupd; [|done].
  assert (length res ≤ length datapoints_queries)%nat as Hlen.
  { apply (update_cursors_length res 0 false h flag); [lia|by rewrite Hupd]. }
  destruct flag; cbn [fst snd].
  - intros (new & -> & Hall)%IH. exists (res :: new).
    split; [by rewrite <- app_assoc|]. by constructor.
  - intros [= <-]. exists [res]. split; [done|]. by repeat constructor.
Qed.

Lemma paging_rounds_name fuel : ∀ datapoints_responses h l,
  dq_name ((paging_rounds _utils self fuel datapoints_queries aggregates
              granularity start end_ include_outside_points
              datapoints_responses h).1.1 !!! l)
  = dq_name (h !!! l).
Proof.
  induction fuel as [|fuel IH]; intros acc h l; cbn [paging_rounds]; [done|].
  destruct (_post self _) as [res|e]; [|done].
  pose proof (update_cursors_fields _utils datapoints_queries granularity
                end_ res 0 false h l) as Hf.
  destruct (update_cursors _ _ _ _ _ _ _ _) as [h1 [flag|e]];
    cbn [fst snd] in *; [|by rewrite (same_but_start_name _ _ Hf)].
  destruct flag; cbn [fst snd].
  - by rewrite IH, (same_but_start_name _ _ Hf).
  - by rewrite (same_but_start_name _ _ Hf).
Qed.

(** When [get_multi_time_series_datapoints] returns, it returns one response
    per query, in the order of the queries and under the name of the query;
    its datapoints are the pages the server sent for that position, one per
    request, in the order of the requests.  No answer of the server had more
    items than there are queries. *)
Theorem multi_series_results (fuel : nat) (h : heap)
    (results : list DatapointsResponse) :
  let run := get_multi_time_series_datapoints _utils self fuel h
               datapoints_queries start end_ aggregates granularity
               include_outside_points in
  run.2 = Some (Ok results) →
  ∃ responses,
    Forall2 (fun b res => _post self b = Ok res
                          ∧ (length res ≤ length datapoints_queries)%nat)
            run.1.2 responses
    ∧ length results = length datapoints_queries
    ∧ ∀ i l, datapoints_queries !! i = Some l →
        results !! i
        = Some (mkDatapointsResponse (dq_name (h !!! l))
                  (concat ((fun res => default [] (res !! i)) <$> responses))).
Proof.
  cbn zeta. unfold get_multi_time_series_datapoints.
  pose proof (assign_limits_name (count_queries aggregates h datapoints_queries).1
                (count_queries aggregates h datapoints_queries).2
                datapoints_queries h) as Hname.
  destruct (assign_limits _ _ _ _ _ _) as [h1 [[]|e]]; cbn [fst snd] in *;
    [|done].
  pose proof (paging_rounds_responses fuel [] h1) as Hresp.
  pose proof (paging_rounds_name fuel [] h1) as Hkeep.
  destruct (paging_rounds _ _ _ _ _ _ _ _ _ _ _) as [[h2 bodies] out].
  cbn [fst snd] in *. destruct out as [[responses|e]|]; [|done..].
  destruct (Hresp responses eq_refl) as (new & -> & Hall). rewrite app_nil_l.
  intros Hbuild. exists new. split; [done|].
  destruct (build_results_spec new
              ((fun l => mkDatapointsResponse (dq_name (h2 !!! l)) [])
                 <$> datapoints_queries))
    as (results' & Hbuild' & Hlen & Hlookup).
  { rewrite length_fmap. eapply Forall2_Forall_r; [exact Hall|].
    apply Forall_forall. by intros b _ res [_ ?]. }
  rewrite Hbuild' in Hbuild. injection Hbuild as <-.
  rewrite length_fmap in Hlen. split; [done|]. intros i l Hl.
  rewrite (Hlookup i (mkDatapointsResponse (dq_name (h2 !!! l)) []))
    by by rewrite list_lookup_fmap, Hl.
  cbn. by rewrite Hkeep, Hname.
Qed.

End ResultsProperties.

Lemma multi_series_results_witness :
  ∃ responses,
    Forall2 (fun b res => _post lockstep_client b = Ok res
                          ∧ (length res ≤ 2)%nat)
      (get_multi_time_series_datapoints spec_utils lockstep_client 5
         two_queries [0; 1]%nat 0 100 None None false).1.2 responses
    ∧ responses = [[[]; [mkDatapoint 0 (NumericValue 0)]]; [[]; []]].
Proof.
  destruct (multi_series_results spec_utils lockstep_client [0; 1]%nat None
              None 0 100 false 5 two_queries
              [mkDatapointsResponse "short" [];
               mkDatapointsResponse "long" [mkDatapoint 0 (NumericValue 0)]]
              eq_refl) as (responses & Hall & _).
  exists responses. split; [exact Hall|].
  vm_compute in Hall.
  apply Forall2_cons_inv_l in Hall as (r1 & rest & [Hr1 _] & Hall & ->).
  apply Forall2_cons_inv_l in Hall as (r2 & rest' & [Hr2 _] & Hall & ->).
  apply Forall2_nil_inv_l in Hall as ->.
  vm_compute in Hr1, Hr2. by injection Hr1 as <-; injection Hr2 as <-.
Defined.

(** ** Malformed answers and budgets of zero *)

Section BatchErrors.

Variable _utils : Utils.
Variables (end_ : Z) (granularity : option string).
Variable datapoints_queries : list loc.

(** A response with more items than there are queries, none of which looks
    full, ends the pass with [IndexError]. *)
Lemma update_cursors_too_many_items res : ∀ i flag h,
  (i ≤ length datapoints_queries)%nat →
  (length datapoints_queries < i + length res)%nat →
  (∀ k dpr l, res !! k = Some dpr → datapoints_queries !! (i + k)%nat = Some l →
              Some (Z.of_nat (length dpr)) ≠ dq_limit (h !!! l)) →
  (update_cursors _utils end_ granularity datapoints_queries i res flag h).2
  = Raise IndexError.
Proof.
  induction res as [|dpr rest IH]; intros i flag h Hi Hlen Hshort;
    cbn [update_cursors]; [cbn in Hlen; lia|].
  destruct (datapoints_queries !! i) as [l0|] eqn:Hl0; [|done].
  apply lookup_lt_Some in Hl0 as Hi'.
  unfold next_start_of.
  rewrite bool_decide_eq_false_2; cycle 1.
  { apply (Hshort 0%nat); [done|by rewrite Nat.add_0_r]. }
  apply IH; [lia|cbn in Hlen; lia|].
  intros k dpr' l Hdpr Hl.
  replace (S i + k)%nat with (i + S k)%nat in Hl by lia.
  pose proof (Hshort (S k) dpr' l Hdpr Hl) as Hne.
  rewrite lookup_total_insert. by case_decide; subst.
Qed.

End BatchErrors.

Section BudgetProperties.

Variable _utils : Utils.
Variable self : Client.
Variables (aggregates : option (list string)) (granularity : option string).
Variables (start end_ : Z) (include_outside_points : bool).

Lemma query_limit_set_limit num_of_dpqs_with_agg num_of_dpqs_raw dpq limit :
  query_limit self aggregates num_of_dpqs_with_agg num_of_dpqs_raw
              (set_limit dpq limit)
  = query_limit self aggregates num_of_dpqs_with_agg num_of_dpqs_raw dpq.
Proof. reflexivity. Qed.

(** The budgeting loop goes through when every division does, and leaves
    the budget [limit] in every query when they all get the same one. *)
Lemma assign_limits_ok num_of_dpqs_with_agg num_of_dpqs_raw : ∀ queries h,
  (∀ l, l ∈ queries →
        ∃ limit, query_limit self aggregates num_of_dpqs_with_agg
                             num_of_dpqs_raw (h !!! l) = Ok limit) →
  (assign_limits self aggregates num_of_dpqs_with_agg num_of_dpqs_raw
                 queries h).2 = Ok ().
Proof.
  induction queries as [|l0 rest IH]; intros h Hok; cbn [assign_limits];
    [done|].
  destruct (Hok l0) as (limit & ->); [by apply elem_of_cons; left|].
  apply IH. intros l Hl. rewrite lookup_total_insert.
  case_decide; subst.
  - rewrite query_limit_set_limit. apply Hok. by apply elem_of_cons; left.
  - apply Hok. by apply elem_of_cons; right.
Qed.

Lemma assign_limits_same num_of_dpqs_with_agg num_of_dpqs_raw limit :
  ∀ queries h,
  (∀ l, l ∈ queries →
        query_limit self aggregates num_of_dpqs_with_agg num_of_dpqs_raw
                    (h !!! l) = Ok limit) →
  ∀ l, l ∈ queries ∨ dq_limit (h !!! l) = Some limit →
       dq_limit ((assign_limits self aggregates num_of_dpqs_with_agg
                                num_of_dpqs_raw queries h).1 !!! l)
       = Some limit.
Proof.
  induction queries as [|l0 rest IH]; intros h Hok l Hl; cbn [assign_limits].
  { by destruct Hl as [?%elem_of_nil|?]. }
  rewrite (Hok l0) by by apply elem_of_cons; left.
  apply IH.
  - intros l' Hl'. rewrite lookup_total_insert. case_decide; subst.
    + rewrite query_limit_set_limit. apply Hok. by apply elem_of_cons; left.
    + apply Hok. by apply elem_of_cons; right.
  - rewrite lookup_total_insert. case_decide; subst; [by right|].
    destruct Hl as [[?|?]%elem_of_cons|?]; [done|by left|by right].
Qed.

(** The first body of a run with fuel is the store as the run found it. *)
Lemma paging_rounds_head fuel datapoints_queries datapoints_responses h :
  head (paging_rounds _utils self (S fuel) datapoints_queries aggregates
          granularity start end_ include_outside_points datapoints_responses
          h).1.2
  = Some (serialise h datapoints_queries aggregates granularity start end_
                    include_outside_points).
Proof.
  cbn [paging_rounds].
  destruct (_post self _) as [res|e]; [|done].
  destruct (update_cursors _ _ _ _ _ _ _ _) as [h1 [[]|e]]; done.
Qed.

(** When the server answers the first request with more items than the
    request has queries, and none of these items looks full, the call raises
    [IndexError] after that one request. *)
Theorem multi_series_too_many_items (fuel : nat) (h : heap)
    (datapoints_queries : list loc) :
  let counts := count_queries aggregates h datapoints_queries in
  let run := get_multi_time_series_datapoints _utils self (S fuel) h
               datapoints_queries start end_ aggregates granularity
               include_outside_points in
  (∀ l, l ∈ datapoints_queries →
        ∃ limit, query_limit self aggregates counts.1 counts.2 (h !!! l)
                 = Ok limit) →
  (∀ b, head run.1.2 = Some b →
        ∃ res, _post self b = Ok res
               ∧ (length (b_items b) < length res)%nat
               ∧ ∀ k dpr q, res !! k = Some dpr → b_items b !! k = Some q →
                   Some (Z.of_nat (length dpr)) ≠ dq_limit q) →
  run.2 = Some (Raise IndexError) ∧ length run.1.2 = 1%nat.
Proof.
  intros counts run Hbudget. subst run.
  unfold get_multi_time_series_datapoints. fold counts.
  pose proof (assign_limits_ok counts.1 counts.2 datapoints_queries h Hbudget)
    as Hok.
  destruct (assign_limits _ _ _ _ _ _) as [h1 out]. cbn in Hok. subst out.
  cbn [fst snd]. intros Hpost.
  destruct (Hpost _ (paging_rounds_head fuel datapoints_queries [] h1))
    as (res & Hres & Hlen & Hshort).
  cbn [paging_rounds]. rewrite Hres.
  pose proof (update_cursors_too_many_items _utils end_ granularity
                datapoints_queries res 0 false h1 ltac:(lia)) as Hraise.
  destruct (update_cursors _ _ _ _ _ _ _ _) as [h2 out]. cbn in Hraise.
  rewrite Hraise; [done|..].
  - cbn in Hlen. by rewrite length_fmap in Hlen.
  - intros k dpr l Hdpr Hl. apply (Hshort k dpr); [done|].
    cbn. by rewrite list_lookup_fmap, Hl.
Qed.

Lemma count_queries_raw (h : heap) (datapoints_queries : list loc) :
  (∀ l, l ∈ datapoints_queries → counted_as_raw aggregates (h !!! l) = true) →
  count_queries aggregates h datapoints_queries
  = (0, Z.of_nat (length datapoints_queries)).
Proof.
  unfold count_queries.
  assert (∀ queries acc,
            (∀ l, l ∈ queries → counted_as_raw aggregates (h !!! l) = true) →
            foldl (fun counts l =>
                     if counted_as_raw aggregates (h !!! l)
                     then (counts.1, counts.2 + 1)
                     else (counts.1 + 1, counts.2)) acc queries
            = (acc.1, acc.2 + Z.of_nat (length queries))) as Hgen.
  { induction queries as [|l0 rest IH]; intros [a b] Hraw; cbn [foldl].
    - cbn. f_equal. lia.
    - rewrite (Hraw l0) by by apply elem_of_cons; left.
      rewrite IH by by intros l ?; apply Hraw, elem_of_cons; right.
      cbn. f_equal. lia. }
  intros Hraw. by rewrite Hgen.
Qed.

End BudgetProperties.

(** More raw queries than the budget of a request give every query a limit
    of 0; an empty page then counts as full, and the call raises
    [IndexError] on the first answer that starts with one. *)
Theorem multi_series_zero_budget (_utils : Utils) (self : Client)
    (fuel : nat) (h : heap) (datapoints_queries : list loc) (start end_ : Z)
    (granularity : option string) (include_outside_points : bool) :
  let run := get_multi_time_series_datapoints _utils self (S fuel) h
               datapoints_queries start end_ None granularity
               include_outside_points in
  (∀ l, l ∈ datapoints_queries → dq_aggregates (h !!! l) = None) →
  0 ≤ _LIMIT self < Z.of_nat (length datapoints_queries) →
  (∀ b, head run.1.2 = Some b → ∃ rest, _post self b = Ok ([] :: rest)) →
  run.2 = Some (Raise IndexError)
  ∧ ∀ b, b ∈ run.1.2 → Forall (fun q => dq_limit q = Some 0) (b_items b).
Proof.
  intros run Hraw Hlimit. subst run.
  unfold get_multi_time_series_datapoints.
  rewrite (count_queries_raw None h datapoints_queries); cycle 1.
  { intros l Hl. unfold counted_as_raw. rewrite (Hraw l Hl). done. }
  cbn [fst snd].
  set (n := Z.of_nat (length datapoints_queries)) in *.
  assert (Hq : ∀ l, l ∈ datapoints_queries →
                    query_limit self None 0 n (h !!! l) = Ok 0).
  { intros l Hl. unfold query_limit, budgeted_as_raw. rewrite (Hraw l Hl).
    cbn. unfold int_truediv. destruct (Z.eqb_spec n 0); [lia|].
    by rewrite Z.quot_small by lia. }
  pose proof (assign_limits_ok self None 0 n datapoints_queries h
                ltac:(by intros l ?; eexists; apply Hq)) as Hok.
  pose proof (assign_limits_same self None 0 n 0 datapoints_queries h Hq)
    as Hzero.
  destruct (assign_limits _ _ _ _ _ _) as [h1 out]. cbn in Hok, Hzero.
  subst out. cbn [fst snd]. intros Hpost.
  destruct (Hpost _ (paging_rounds_head _utils self None granularity start end_
                       include_outside_points fuel datapoints_queries [] h1))
    as (rest & Hres).
  cbn [paging_rounds]. rewrite Hres. cbn [update_cursors].
  destruct (lookup_lt_is_Some_2 datapoints_queries 0 ltac:(lia)) as [l0 Hl0].
  rewrite Hl0. unfold next_start_of.
  assert (dq_limit (h1 !!! l0) = Some 0) as ->.
  { apply Hzero. left. by eapply list_elem_of_lookup_2. }
  cbn. split; [done|].
  intros b ->%list_elem_of_singleton. cbn. apply Forall_fmap, Forall_forall.
  intros l Hl. cbn. apply Hzero. by left.
Qed.

Lemma multi_series_too_many_items_witness :
  (get_multi_time_series_datapoints spec_utils extra_item_client 1
     two_queries [0; 1]%nat 0 100 None None false).2
  = Some (Raise IndexError).
Proof.
  apply (multi_series_too_many_items spec_utils extra_item_client None None
           0 100 false 0 two_queries [0; 1]%nat).
  - intros l Hl.
    repeat (apply elem_of_cons in Hl as [->|Hl]);
      [by eexists..|by apply elem_of_nil in Hl].
  - intros b [= <-]. eexists. split; [reflexivity|].
    split; [rewrite length_replicate; lia|].
    intros [|[|[|k]]] dpr q Hdpr Hq; vm_compute in Hdpr, Hq;
      by simplify_eq.
Defined.

Lemma multi_series_zero_budget_witness :
  (get_multi_time_series_datapoints spec_utils one_point_budget_client 1
     two_queries [0; 1]%nat 0 100 None None false).2
  = Some (Raise IndexError).
Proof.
  apply (multi_series_zero_budget spec_utils one_point_budget_client 0
           two_queries [0; 1]%nat 0 100 None false).
  - intros l Hl.
    repeat (apply elem_of_cons in Hl as [->|Hl]);
      [reflexivity..|by apply elem_of_nil in Hl].
  - cbn. lia.
  - intros b [= <-]. by eexists.
Defined.

(** ** When the multi-series pager goes on *)

Section Rounds.

Variable _utils : Utils.
Variable self : Client.
Variable datapoints_queries : list loc.
Variables (aggregates : option (list string)) (granularity : option string).
Variables (start end_ : Z) (include_outside_points : bool).
Hypothesis distinct : NoDup datapoints_queries.

Lemma paging_rounds_continue fuel : ∀ datapoints_responses h responses,
  let run := paging_rounds _utils self fuel datapoints_queries aggregates
               granularity start end_ include_outside_points
               datapoints_responses h in
  run.2 = Some (Ok responses) →
  ∀ k b, run.1.2 !! k = Some b →
    ∃ res, _post self b = Ok res
           ∧ ((S k < length run.1.2)%nat
              ↔ ∃ i q dpr, b_items b !! i = Some q ∧ res !! i = Some dpr
                           ∧ Some (Z.of_nat (length dpr)) = dq_limit q).
Proof.
  induction fuel as [|fuel IH]; intros acc h responses; cbn zeta;
    cbn [paging_rounds]; [done|].
  destruct (_post self _) as [res|e] eqn:Hpost; [|done].
  destruct (update_cursors _ _ _ _ _ _ _ _) as [h1 [flag|e]] eqn:Hupd; [|done].
  destruct (update_cursors_spec _utils end_ granularity datapoints_queries
              distinct res 0 false h h1 flag ltac:(lia) Hupd)
    as (_ & _ & _ & Hflag).
  assert (Hfull : flag = true
                  ↔ ∃ i q dpr,
                      b_items (serialise h datapoints_queries aggregates
                                 granularity start end_ include_outside_points)
                        !! i = Some q
                      ∧ res !! i = Some dpr
                      ∧ Some (Z.of_nat (length dpr)) = dq_limit q).
  { rewrite Hflag. split.
    - intros [?|(k & dpr & l & Hdpr & Hl & Hlim)]; [done|].
      exists k, (h !!! l), dpr. split; [|done].
      rewrite Nat.add_0_l in Hl. cbn. by rewrite list_lookup_fmap, Hl.
    - intros (i & q & dpr & Hq & Hdpr & Hlim). right.
      cbn in Hq. rewrite list_lookup_fmap in Hq.
      destruct (datapoints_queries !! i) as [l|] eqn:Hl; [|done].
      injection Hq as <-. by exists i, dpr, l. }
  destruct flag; cbn [fst snd].
  - intros Hout [|k] b Hb; cbn in Hb.
    + injection Hb as <-. exists res. split; [done|].
      rewrite <- Hfull. split; [done|]. intros _. cbn.
      destruct fuel as [|fuel']; [done|].
      pose proof (paging_rounds_head _utils self aggregates granularity start
                    end_ include_outside_points fuel' datapoints_queries
                    (acc ++ [res]) h1) as Hhead.
      destruct (paging_rounds _ _ _ _ _ _ _ _ _ _ _).1.2; [done|cbn; lia].
    + destruct (IH (acc ++ [res]) h1 responses Hout k b Hb) as (res' & ? & Hiff).
      exists res'. split; [done|]. rewrite <- Hiff. cbn. lia.
  - intros _ [|k] b Hb; [|done]. injection Hb as <-. exists res.
    split; [done|]. rewrite <- Hfull. cbn. split; [lia|done].
Qed.

End Rounds.

(** In a call of [get_multi_time_series_datapoints] that returns, a request
    is followed by another one exactly when some page of its answer is full,
    that is, holds as many datapoints as the limit of its query. *)
Theorem multi_series_continues_on_full_page (_utils : Utils) (self : Client)
    (fuel : nat) (h : heap) (datapoints_queries : list loc) (start end_ : Z)
    (aggregates : option (list string)) (granularity : option string)
    (include_outside_points : bool) (results : list DatapointsResponse) :
  NoDup datapoints_queries →
  let run := get_multi_time_series_datapoints _utils self fuel h
               datapoints_queries start end_ aggregates granularity
               include_outside_points in
  run.2 = Some (Ok results) →
  ∀ k b, run.1.2 !! k = Some b →
    ∃ res, _post self b = Ok res
           ∧ ((S k < length run.1.2)%nat
              ↔ ∃ i q dpr, b_items b !! i = Some q ∧ res !! i = Some dpr
                           ∧ Some (Z.of_nat (length dpr)) = dq_limit q).
Proof.
  intros Hdistinct run. subst run. unfold get_multi_time_series_datapoints.
  destruct (assign_limits _ _ _ _ _ _) as [h1 [[]|e]]; cbn [fst snd]; [|done].
  pose proof (paging_rounds_continue _utils self datapoints_queries aggregates
                granularity start end_ include_outside_points Hdistinct fuel
                [] h1) as Hcont.
  cbn zeta in Hcont.
  destruct (paging_rounds _ _ _ _ _ _ _ _ _ _ _) as [[h2 bodies] out].
  cbn [fst snd] in *. destruct out as [[responses|e]|]; [|done..].
  intros _. by apply (Hcont responses).
Qed.

Lemma multi_series_continues_on_full_page_witness :
  length (get_multi_time_series_datapoints spec_utils lockstep_client 5
            two_queries [0; 1]%nat 0 100 None None false).1.2 = 2%nat
  ∧ ∃ b res,
      (get_multi_time_series_datapoints spec_utils lockstep_client 5
         two_queries [0; 1]%nat 0 100 None None false).1.2 !! 0%nat = Some b
      ∧ _post lockstep_client b = Ok res
      ∧ ∃ i q dpr, b_items b !! i = Some q ∧ res !! i = Some dpr
                   ∧ Some (Z.of_nat (length dpr)) = dq_limit q.
Proof.
  split; [reflexivity|].
  destruct (multi_series_continues_on_full_page spec_utils lockstep_client 5
              two_queries [0; 1]%nat 0 100 None None false
              [mkDatapointsResponse "short" [];
               mkDatapointsResponse "long" [mkDatapoint 0 (NumericValue 0)]])
    with (k := 0%nat)
         (b := mkBody [mkDatapointsQuery "short" None None None None (Some 1);
                       mkDatapointsQuery "long" None None None None (Some 1)]
                      None None 0 false 100)
    as (res & Hres & Hiff).
  - apply NoDup_cons. split; [by intros [=]%list_elem_of_singleton|].
    apply NoDup_singleton.
  - reflexivity.
  - reflexivity.
  - eexists _, res. split; [reflexivity|]. split; [exact Hres|].
    apply Hiff. vm_compute. lia.
Defined.

(** With an empty list of queries one request is sent all the same, with no
    items; an answer without items gives no responses, any other answer
    raises [IndexError].  The store is not touched. *)
Theorem multi_series_no_queries (_utils : Utils) (self : Client)
    (fuel : nat) (h : heap) (start end_ : Z)
    (aggregates : option (list string)) (granularity : option string)
    (include_outside_points : bool) :
  let body := mkBody [] (String.concat "," <$> aggregates) granularity start
                     include_outside_points end_ in
  let run := get_multi_time_series_datapoints _utils self (S fuel) h []
               start end_ aggregates granularity include_outside_points in
  run.1.1 = h
  ∧ run.1.2 = [body]
  ∧ (_post self body = Ok [] → run.2 = Some (Ok []))
  ∧ (∀ dpr rest, _post self body = Ok (dpr :: rest) →
                 run.2 = Some (Raise IndexError))
  ∧ (∀ e, _post self body = Raise e → run.2 = Some (Raise e)).
Proof.
  cbn zeta. unfold get_multi_time_series_datapoints. cbn.
  destruct (_post self _) as [[|dpr rest]|e]; cbn; repeat split; congruence.
Qed.

(** ** The response iterator *)

Lemma iterator_to_list_from fuel : ∀ objects c,
  (c ≤ length objects)%nat → (length objects - c < fuel)%nat →
  iterator_to_list fuel (mkDatapointsResponseIterator objects c)
  = (drop c objects, mkDatapointsResponseIterator objects (length objects)).
Proof.
  induction fuel as [|fuel IH]; intros objects c Hc Hfuel; [lia|].
  cbn [iterator_to_list]. unfold iterator_next. cbn [counter datapoints_objects].
  destruct (Z.gtb_spec (Z.of_nat c) (Z.of_nat (length objects) - 1)) as [Hend|Hin].
  - assert (c = length objects) as -> by lia. by rewrite drop_all.
  - replace (c + 1 - 1)%nat with c by lia.
    destruct (lookup_lt_is_Some_2 objects c ltac:(lia)) as [response Hresponse].
    rewrite Hresponse. rewrite IH by lia. cbn.
    rewrite (drop_S _ _ _ Hresponse). by replace (c + 1)%nat with (S c) by lia.
Qed.

(** Iterating over a fresh [DatapointsResponseIterator] gives its responses
    in order, once: afterwards [__next__] raises [StopIteration] and a
    second iteration gives nothing. *)
Theorem iterator_yields_objects_once (objects : list DatapointsResponse)
    (fuel : nat) :
  (length objects < fuel)%nat →
  let run := iterator_to_list fuel (new_DatapointsResponseIterator objects) in
  run.1 = objects
  ∧ (iterator_next run.2).1 = StopIteration
  ∧ (iterator_to_list fuel run.2).1 = [].
Proof.
  intros Hfuel. cbn zeta. unfold new_DatapointsResponseIterator.
  rewrite iterator_to_list_from by lia. cbn [fst snd].
  split; [done|]. split.
  - unfold iterator_next. cbn.
    by destruct (Z.gtb_spec (Z.of_nat (length objects))
                            (Z.of_nat (length objects) - 1)); [|lia].
  - rewrite iterator_to_list_from by lia. cbn. apply drop_all.
Qed.

Lemma iterator_yields_objects_once_witness :
  (iterator_to_list 3
     (new_DatapointsResponseIterator
        [mkDatapointsResponse "a" []; mkDatapointsResponse "b" []])).1
  = [mkDatapointsResponse "a" []; mkDatapointsResponse "b" []].
Proof.
  apply (iterator_yields_objects_once
           [mkDatapointsResponse "a" []; mkDatapointsResponse "b" []] 3).
  cbn. lia.
Defined.

(** ** Splitting for upload *)

Lemma py_slice_chunk {A : Type} (l : list A) (i limit : Z) :
  0 ≤ i < Z.of_nat (length l) → 0 < limit →
  py_slice l i (i + limit)
  = take (Z.to_nat limit) (drop (Z.to_nat i) l).
Proof.
  intros Hi Hlimit. unfold py_slice.
  destruct (Z.ltb_spec i 0); [lia|].
  destruct (Z.ltb_spec (i + limit) 0); [lia|].
  replace (Z.min i (Z.of_nat (length l))) with i by lia.
  destruct (Z.le_gt_cases (i + limit) (Z.of_nat (length l))).
  - f_equal. lia.
  - replace (Z.min (i + limit) (Z.of_nat (length l)))
      with (Z.of_nat (length l)) by lia.
    rewrite !take_ge; [done|rewrite length_drop; lia..].
Qed.

Section SplitProperties.

Variable timeseries_with_datapoints : TimeseriesWithDatapoints.
Variable limit : Z.
Hypothesis limit_pos : 0 < limit.

Local Abbreviation dps := (twd_datapoints timeseries_with_datapoints).

Lemma split_loop_spec fuel : ∀ i acc,
  0 ≤ i → Z.max 0 (Z.of_nat (length dps) - i) < Z.of_nat fuel →
  ∃ pieces,
    split_loop fuel timeseries_with_datapoints limit i acc = Some (acc ++ pieces)
    ∧ concat (twd_datapoints <$> pieces) = drop (Z.to_nat i) dps
    ∧ Forall (fun piece =>
                twd_name piece = twd_name timeseries_with_datapoints
                ∧ twd_datapoints piece ≠ []
                ∧ Z.of_nat (length (twd_datapoints piece)) ≤ limit) pieces
    ∧ (∀ j piece, pieces !! j = Some piece → (S j < length pieces)%nat →
                  Z.of_nat (length (twd_datapoints piece)) = limit)
    ∧ (Z.of_nat (length dps) ≤ i → pieces = []).
Proof.
  induction fuel as [|fuel IH]; intros i acc Hi Hfuel; [lia|].
  cbn [split_loop].
  destruct (Z.ltb_spec i (Z.of_nat (length dps))) as [Hlt|Hge].
  - destruct (IH (i + limit)
                (acc ++ [mkTimeseriesWithDatapoints
                           (twd_name timeseries_with_datapoints)
                           (py_slice dps i (i + limit))]))
      as (pieces & -> & Hconcat & Hall & Hfull & Hempty); [lia..|].
    rewrite py_slice_chunk in * by lia.
    set (piece0 := mkTimeseriesWithDatapoints _ _).
    exists (piece0 :: pieces). split; [by rewrite <- app_assoc|].
    assert (Hlen0 : length (twd_datapoints piece0)
                    = Nat.min (Z.to_nat limit) (length dps - Z.to_nat i)).
    { cbn. by rewrite length_take, length_drop. }
    split; [|split; [|split]].
    + cbn. rewrite Hconcat.
      replace (Z.to_nat (i + limit)) with (Z.to_nat i + Z.to_nat limit)%nat
        by lia.
      by rewrite <- drop_drop, take_drop.
    + constructor; [|done]. split; [done|]. split; [|lia].
      intros Hnil. rewrite Hnil in Hlen0. cbn in Hlen0. lia.
    + intros [|j] piece Hpiece Hlen; cbn in Hpiece, Hlen.
      * injection Hpiece as <-.
        destruct (Z.le_gt_cases (Z.of_nat (length dps)) (i + limit)) as [Hle|?];
          [rewrite (Hempty Hle) in Hlen; cbn in Hlen; lia|lia].
      * apply (Hfull j piece Hpiece). lia.
    + lia.
  - exists []. rewrite app_nil_r. split; [done|]. cbn.
    rewrite drop_ge by lia. repeat split; (done || (intros; lia)).
Qed.

End SplitProperties.

Lemma split_if_over_limit_bounded (fuel : nat)
    (entry : TimeseriesWithDatapoints) (limit : Z) :
  0 < limit →
  (length (twd_datapoints entry) < fuel)%nat →
  ∃ pieces,
    _split_TimeseriesWithDatapoints_if_over_limit fuel entry limit
    = Some pieces
    ∧ concat (twd_datapoints <$> pieces) = twd_datapoints entry
    ∧ Forall (fun piece =>
                twd_name piece = twd_name entry
                ∧ Z.of_nat (length (twd_datapoints piece)) ≤ limit) pieces.
Proof.
  intros Hlimit Hfuel. unfold _split_TimeseriesWithDatapoints_if_over_limit.
  destruct (Z.gtb_spec (Z.of_nat (length (twd_datapoints entry))) limit)
    as [Hover|Hfits].
  - destruct (split_loop_spec entry limit Hlimit fuel 0 [])
      as (pieces & -> & Hconcat & Hall & _); [lia..|].
    exists pieces. split; [done|]. split; [by rewrite Hconcat, drop_0|].
    eapply Forall_impl; [exact Hall|]. by intros piece (? & _ & ?).
  - exists [entry]. split; [done|]. split; [by cbn; rewrite app_nil_r|].
    by apply Forall_singleton.
Qed.

(** For a positive limit, [_split_TimeseriesWithDatapoints_if_over_limit]
    returns at least one piece; the pieces carry the name of the time series,
    none has more datapoints than the limit, all but the last have exactly
    the limit, and their datapoints put end to end are the datapoints of the
    time series. *)
Theorem split_if_over_limit_pieces (fuel : nat)
    (timeseries_with_datapoints : TimeseriesWithDatapoints) (limit : Z) :
  0 < limit →
  (length (twd_datapoints timeseries_with_datapoints) < fuel)%nat →
  ∃ pieces,
    _split_TimeseriesWithDatapoints_if_over_limit fuel
      timeseries_with_datapoints limit = Some pieces
    ∧ pieces ≠ []
    ∧ concat (twd_datapoints <$> pieces)
      = twd_datapoints timeseries_with_datapoints
    ∧ Forall (fun piece =>
                twd_name piece = twd_name timeseries_with_datapoints
                ∧ Z.of_nat (length (twd_datapoints piece)) ≤ limit) pieces
    ∧ (∀ j piece, pieces !! j = Some piece → (S j < length pieces)%nat →
                  Z.of_nat (length (twd_datapoints piece)) = limit).
Proof.
  intros Hlimit Hfuel. unfold _split_TimeseriesWithDatapoints_if_over_limit.
  destruct (Z.gtb_spec (Z.of_nat (length (twd_datapoints
                                            timeseries_with_datapoints)))
                       limit) as [Hover|Hfits].
  - destruct (split_loop_spec timeseries_with_datapoints limit Hlimit fuel 0 [])
      as (pieces & -> & Hconcat & Hall & Hfull & _); [lia..|].
    exists pieces. split; [done|]. split; [|split; [done|split; [|done]]].
    + intros ->. cbn in Hconcat. rewrite drop_0 in Hconcat.
      rewrite <- Hconcat in Hover. cbn in Hover. lia.
    + eapply Forall_impl; [exact Hall|]. by intros piece (? & _ & ?).
  - exists [timeseries_with_datapoints]. split; [done|]. split; [done|].
    split; [by cbn; rewrite app_nil_r|]. split.
    + by apply Forall_singleton.
    + intros [|j] piece Hpiece Hlen; cbn in Hlen; lia.
Qed.

Lemma split_if_over_limit_pieces_witness :
  _split_TimeseriesWithDatapoints_if_over_limit 6
    (mkTimeseriesWithDatapoints "ts" (numbered 5)) 2
  = Some [mkTimeseriesWithDatapoints "ts" (py_slice (numbered 5) 0 2);
          mkTimeseriesWithDatapoints "ts" (py_slice (numbered 5) 2 4);
          mkTimeseriesWithDatapoints "ts" (py_slice (numbered 5) 4 6)]
  ∧ length (py_slice (numbered 5) 4 6) = 1%nat.
Proof.
  destruct (split_if_over_limit_pieces 6
              (mkTimeseriesWithDatapoints "ts" (numbered 5)) 2)
    as (pieces & Heq & _);
    [lia|cbn; unfold numbered; rewrite length_fmap, length_seqZ; lia|].
  split; [|reflexivity]. rewrite Heq. vm_compute in Heq.
  injection Heq as <-. reflexivity.
Defined.

Lemma split_loop_stuck (twd : TimeseriesWithDatapoints) (limit : Z) fuel :
  limit ≤ 0 → twd_datapoints twd ≠ [] →
  ∀ i acc, i ≤ 0 → split_loop fuel twd limit i acc = None.
Proof.
  intros Hlimit Hne. induction fuel as [|fuel IH]; intros i acc Hi; [done|].
  cbn [split_loop].
  destruct (Z.ltb_spec i (Z.of_nat (length (twd_datapoints twd)))) as [_|Hge].
  - apply IH. lia.
  - destruct (twd_datapoints twd); [done|cbn in Hge; lia].
Qed.

(** For a limit of 0 or less and a time series that has datapoints, the
    loop of [_split_TimeseriesWithDatapoints_if_over_limit] never ends: the
    index does not move forward. *)
Theorem split_if_over_limit_diverges (fuel : nat)
    (timeseries_with_datapoints : TimeseriesWithDatapoints) (limit : Z) :
  limit ≤ 0 →
  twd_datapoints timeseries_with_datapoints ≠ [] →
  _split_TimeseriesWithDatapoints_if_over_limit fuel
    timeseries_with_datapoints limit = None.
Proof.
  intros Hlimit Hne. unfold _split_TimeseriesWithDatapoints_if_over_limit.
  destruct (Z.gtb_spec (Z.of_nat (length (twd_datapoints
                                            timeseries_with_datapoints)))
                       limit) as [_|Hfits].
  - by apply split_loop_stuck.
  - destruct (twd_datapoints timeseries_with_datapoints);
      [done|cbn in Hfits; lia].
Qed.

Lemma split_if_over_limit_diverges_witness :
  _split_TimeseriesWithDatapoints_if_over_limit 1000
    (mkTimeseriesWithDatapoints "ts" (numbered 3)) 0 = None.
Proof.
  apply split_if_over_limit_diverges; [lia|discriminate].
Defined.

(** ** [post_datapoints] *)

Section PostDatapoints.

Variable ul_dps_limit : Z.
Hypothesis ul_pos : 0 < ul_dps_limit.
Variable post : string → list Datapoint → result unit.
Variables (name : string) (datapoints : list Datapoint).

Lemma post_datapoints_loop_spec fuel : ∀ i,
  0 ≤ i → Z.max 0 (Z.of_nat (length datapoints) - i) < Z.of_nat fuel →
  let run := post_datapoints_loop fuel ul_dps_limit post name datapoints i in
  Forall (fun items => items ≠ [] ∧ Z.of_nat (length items) ≤ ul_dps_limit)
         run.1
  ∧ (run.2 = Some (Ok ())
     ∧ concat run.1 = drop (Z.to_nat i) datapoints
     ∧ Forall (fun items => post name items = Ok ()) run.1
     ∨ ∃ e accepted failed rest,
         run.2 = Some (Raise e)
         ∧ run.1 = accepted ++ [failed]
         ∧ Forall (fun items => post name items = Ok ()) accepted
         ∧ post name failed = Raise e
         ∧ drop (Z.to_nat i) datapoints = concat run.1 ++ rest).
Proof.
  induction fuel as [|fuel IH]; intros i Hi Hfuel; [lia|].
  cbn zeta. cbn [post_datapoints_loop].
  destruct (Z.ltb_spec i (Z.of_nat (length datapoints))) as [Hlt|Hge].
  - rewrite py_slice_chunk by lia.
    set (items := take (Z.to_nat ul_dps_limit) (drop (Z.to_nat i) datapoints)).
    assert (Hlen : length items
                   = Nat.min (Z.to_nat ul_dps_limit)
                             (length datapoints - Z.to_nat i))
      by (subst items; by rewrite length_take, length_drop).
    assert (Hitems : items ≠ [] ∧ Z.of_nat (length items) ≤ ul_dps_limit).
    { split; [|lia]. intros Hnil. rewrite Hnil in Hlen. cbn in Hlen. lia. }
    assert (Hsplit : drop (Z.to_nat i) datapoints
                     = items ++ drop (Z.to_nat (i + ul_dps_limit)) datapoints).
    { replace (Z.to_nat (i + ul_dps_limit))
        with (Z.to_nat i + Z.to_nat ul_dps_limit)%nat by lia.
      subst items. by rewrite <- drop_drop, take_drop. }
    destruct (post name items) as [[]|e] eqn:Hpost.
    + destruct (IH (i + ul_dps_limit) ltac:(lia) ltac:(lia)) as [Hall Hrun].
      cbn [fst snd]. split; [by constructor|].
      destruct Hrun as [(Hout & Hconcat & Hok)
                       |(e & accepted & failed & rest & Hout & Hsent & Hok
                         & Hfail & Hrest)].
      * left. split; [done|]. split; [by cbn; rewrite Hconcat|].
        by constructor.
      * right. exists e, (items :: accepted), failed, rest.
        split; [done|]. split; [by rewrite Hsent|]. split; [by constructor|].
        split; [done|]. cbn. by rewrite Hsplit, Hrest, app_assoc.
    + cbn [fst snd]. split; [by apply Forall_singleton|]. right.
      exists e, [], items, (drop (Z.to_nat (i + ul_dps_limit)) datapoints).
      split; [done|]. split; [done|]. split; [constructor|]. split; [done|].
      cbn. by rewrite app_nil_r.
  - cbn [fst snd]. split; [constructor|]. left. split; [done|].
    split; [|constructor]. cbn. by rewrite drop_ge by lia.
Qed.

End PostDatapoints.

(** The loop of [post_datapoints], which runs it with an upload limit of
    100000, sends the datapoints in order, in requests of at most that many
    items, none of them empty; without datapoints it sends nothing.  When every request is accepted,
    the items of the requests put end to end are the datapoints. *)
Theorem post_datapoints_uploads_all (fuel : nat) (ul_dps_limit : Z)
    (post : string → list Datapoint → result unit) (name : string)
    (datapoints : list Datapoint) :
  0 < ul_dps_limit →
  (length datapoints < fuel)%nat →
  (∀ items, post name items = Ok ()) →
  let run := post_datapoints_loop fuel ul_dps_limit post name datapoints 0 in
  run.2 = Some (Ok ())
  ∧ concat run.1 = datapoints
  ∧ Forall (fun items => items ≠ [] ∧ Z.of_nat (length items) ≤ ul_dps_limit)
           run.1
  ∧ (datapoints = [] → run.1 = []).
Proof.
  intros Hul Hfuel Haccept run.
  destruct (post_datapoints_loop_spec ul_dps_limit Hul post name datapoints
              fuel 0 ltac:(lia) ltac:(lia)) as [Hall Hrun].
  fold run in Hall, Hrun.
  destruct Hrun as [(Hout & Hconcat & _)
                   |(e & accepted & failed & rest & _ & _ & _ & Hfail & _)];
    [|by rewrite Haccept in Hfail].
  cbn in Hconcat. rewrite drop_0 in Hconcat.
  split; [done|]. split; [done|]. split; [done|].
  intros ->. destruct run.1 as [|items sent]; [done|].
  apply Forall_cons in Hall as [[Hne _] _]. cbn in Hconcat.
  by destruct items.
Qed.

Lemma post_datapoints_uploads_all_witness :
  (post_datapoints_loop 6 2 accept_all "ts" (numbered 5) 0).1
  = [py_slice (numbered 5) 0 2; py_slice (numbered 5) 2 4;
     py_slice (numbered 5) 4 6]
  ∧ concat (post_datapoints_loop 6 2 accept_all "ts" (numbered 5) 0).1
    = numbered 5.
Proof.
  destruct (post_datapoints_uploads_all 6 2 accept_all "ts" (numbered 5))
    as (_ & Hconcat & _); [lia| |done|].
  - unfold numbered. rewrite length_fmap, length_seqZ. lia.
  - split; [reflexivity|exact Hconcat].
Defined.

Lemma post_datapoints_loop_stops (ul_dps_limit : Z)
    (post : string → list Datapoint → result unit) (name : string)
    (datapoints : list Datapoint) (e : exn) :
  0 < ul_dps_limit →
  let items j := py_slice datapoints (j * ul_dps_limit)
                          (j * ul_dps_limit + ul_dps_limit) in
  ∀ (k fuel : nat) (j0 : Z),
    0 ≤ j0 → (k < fuel)%nat →
    (j0 + Z.of_nat k) * ul_dps_limit < Z.of_nat (length datapoints) →
    (∀ j, j0 ≤ j < j0 + Z.of_nat k → post name (items j) = Ok ()) →
    post name (items (j0 + Z.of_nat k)) = Raise e →
    post_datapoints_loop fuel ul_dps_limit post name datapoints
                         (j0 * ul_dps_limit)
    = (items <$> seqZ j0 (Z.of_nat k + 1), Some (Raise e)).
Proof.
  intros Hul items k.
  induction k as [|k IH]; intros fuel j0 Hj0 Hfuel Hlen Hok Hfail;
    (destruct fuel as [|fuel]; [lia|]); cbn [post_datapoints_loop];
    (destruct (Z.ltb_spec (j0 * ul_dps_limit) (Z.of_nat (length datapoints)));
     [|nia]).
  - rewrite Z.add_0_r in Hfail. fold (items j0). by rewrite Hfail.
  - fold (items j0). rewrite Hok by lia.
    replace (j0 * ul_dps_limit + ul_dps_limit)
      with ((j0 + 1) * ul_dps_limit) by lia.
    rewrite (IH fuel (j0 + 1)); [|lia|lia|lia|intros; apply Hok; lia|].
    + cbn [fst snd]. f_equal.
      rewrite (seqZ_cons j0 (Z.of_nat (S k) + 1)) by lia. cbn.
      do 3 f_equal; lia.
    + by replace (j0 + 1 + Z.of_nat k) with (j0 + Z.of_nat (S k)) by lia.
Qed.

(** When the request for a chunk of the datapoints fails after those for
    the chunks before it were accepted, the loop of [post_datapoints] raises
    that failure, and has sent these chunks and nothing after them: the
    datapoints of the chunks before the failed one have been uploaded all
    the same. *)
Theorem post_datapoints_partial_upload (fuel : nat) (ul_dps_limit : Z)
    (post : string → list Datapoint → result unit) (name : string)
    (datapoints : list Datapoint) (k : nat) (e : exn) :
  0 < ul_dps_limit →
  (length datapoints < fuel)%nat →
  let items j := py_slice datapoints (j * ul_dps_limit)
                          (j * ul_dps_limit + ul_dps_limit) in
  Z.of_nat k * ul_dps_limit < Z.of_nat (length datapoints) →
  (∀ j, 0 ≤ j < Z.of_nat k → post name (items j) = Ok ()) →
  post name (items (Z.of_nat k)) = Raise e →
  let run := post_datapoints_loop fuel ul_dps_limit post name datapoints 0 in
  run.2 = Some (Raise e)
  ∧ run.1 = items <$> seqZ 0 (Z.of_nat k + 1)
  ∧ ∃ rest, datapoints = concat run.1 ++ rest.
Proof.
  intros Hul Hfuel items Hlen Hok Hfail run.
  assert (Hrun : run = (items <$> seqZ 0 (Z.of_nat k + 1), Some (Raise e))).
  { subst run. change 0 with (0 * ul_dps_limit) at 1.
    apply post_datapoints_loop_stops; [done|lia|nia|lia|done|done]. }
  split; [by rewrite Hrun|]. split; [by rewrite Hrun|].
  destruct (post_datapoints_loop_spec ul_dps_limit Hul post name datapoints
              fuel 0 ltac:(lia) ltac:(lia)) as [_ Hspec].
  fold run in Hspec.
  destruct Hspec as [(Hout & _)
                    |(e' & accepted & failed & rest & _ & _ & _ & _ & Hrest)].
  - rewrite Hrun in Hout. discriminate.
  - exists rest. cbn in Hrest. by rewrite drop_0 in Hrest.
Qed.

Lemma post_datapoints_partial_upload_witness :
  post_datapoints_loop 8 2 reject_four "ts" (numbered 7) 0
  = ([py_slice (numbered 7) 0 2; py_slice (numbered 7) 2 4;
      py_slice (numbered 7) 4 6],
     Some (Raise (FetchFailed "rejected"))).
Proof.
  destruct (post_datapoints_partial_upload 8 2 reject_four "ts" (numbered 7)
              2 (FetchFailed "rejected")) as (Hout & Hsent & _).
  - lia.
  - unfold numbered. rewrite length_fmap, length_seqZ. lia.
  - vm_compute. reflexivity.
  - intros j Hj. assert (j = 0 ∨ j = 1) as [-> | ->] by lia; reflexivity.
  - reflexivity.
  - rewrite (surjective_pairing (post_datapoints_loop _ _ _ _ _ _)).
    rewrite Hout, Hsent. reflexivity.
Defined.

(** ** [post_multi_time_series_datapoints] *)

Lemma limit_entries_spec (fuel : nat) (ul_dps_limit : Z) :
  0 < ul_dps_limit →
  ∀ entries,
    Forall (fun entry => (length (twd_datapoints entry) < fuel)%nat) entries →
    ∃ limited,
      limit_entries fuel ul_dps_limit entries = Some limited
      ∧ Forall (fun piece =>
                  Z.of_nat (length (twd_datapoints piece)) ≤ ul_dps_limit)
               limited
      ∧ concat (twd_datapoints <$> limited)
        = concat (twd_datapoints <$> entries)
      ∧ (∀ piece, piece ∈ limited →
                  ∃ entry, entry ∈ entries ∧ twd_name piece = twd_name entry).
Proof.
  intros Hul. induction entries as [|entry rest IH]; intros Hfuel.
  { exists []. repeat split; try done. by intros ? ?%elem_of_nil. }
  apply Forall_cons in Hfuel as [Hentry Hrest].
  destruct (split_if_over_limit_bounded fuel entry ul_dps_limit Hul Hentry)
    as (pieces & Hsplit & Hconcat & Hall).
  destruct (IH Hrest) as (limited & Hlimited & Hsmall & Hconcat' & Hnames).
  exists (pieces ++ limited). cbn [limit_entries]. rewrite Hsplit, Hlimited.
  split; [done|]. split; [|split].
  - apply Forall_app. split; [|done].
    eapply Forall_impl; [exact Hall|]. by intros piece [_ ?].
  - cbn. by rewrite fmap_app, concat_app, Hconcat, Hconcat'.
  - intros piece [Hp|Hp]%elem_of_app.
    + exists entry. split; [by apply elem_of_cons; left|].
      by apply (proj1 (Forall_forall _ _) Hall piece Hp).
    + destruct (Hnames piece Hp) as (entry' & ? & ?).
      exists entry'. split; [by apply elem_of_cons; right|done].
Qed.

(** The loop over the bins posts all of them when every one is accepted,
    and otherwise the bins up to the first one that fails, whose failure it
    raises. *)
Lemma post_bins_spec post use_gzip bins :
  (Forall (fun bin => post bin use_gzip = Ok ()) bins →
   post_bins post use_gzip bins = (bins, Ok ()))
  ∧ ∀ (k : nat) failed e,
      bins !! k = Some failed →
      Forall (fun bin => post bin use_gzip = Ok ()) (take k bins) →
      post failed use_gzip = Raise e →
      post_bins post use_gzip bins = (take (S k) bins, Raise e).
Proof.
  induction bins as [|bin rest [IHok IHfail]]; cbn [post_bins].
  { split; [done|]. by intros k failed e ?. }
  split.
  - intros [Hbin Hrest]%Forall_cons. rewrite Hbin. by rewrite IHok.
  - intros [|k] failed e Hk Hok Hfail; cbn in Hk.
    + injection Hk as ->. by rewrite Hfail.
    + cbn in Hok. apply Forall_cons in Hok as [-> Hok].
      by rewrite (IHfail k failed e Hk Hok Hfail).
Qed.

(** [post_multi_time_series_datapoints] replaces every entry by pieces of at
    most 100000 datapoints each, which carry the datapoints of the input, all
    of them and in order, under the names of the input, and hands these to
    the binning.  It posts the bins in order, with gzip unless told
    otherwise: all of them when every one is accepted, and otherwise the
    bins up to the first one that fails, whose failure it raises. *)
Theorem post_multi_limits_entries (fuel : nat)
    (first_fit : list TimeseriesWithDatapoints → Z
                 → list (list TimeseriesWithDatapoints))
    (post : list TimeseriesWithDatapoints → bool → result unit)
    (timeseries_with_datapoints : list TimeseriesWithDatapoints)
    (use_gzip : option bool) :
  Forall (fun entry => (length (twd_datapoints entry) < fuel)%nat)
         timeseries_with_datapoints →
  ∃ limited,
    limit_entries fuel 100000 timeseries_with_datapoints = Some limited
    ∧ Forall (fun piece => Z.of_nat (length (twd_datapoints piece)) ≤ 100000)
             limited
    ∧ concat (twd_datapoints <$> limited)
      = concat (twd_datapoints <$> timeseries_with_datapoints)
    ∧ (∀ piece, piece ∈ limited →
                ∃ entry, entry ∈ timeseries_with_datapoints
                         ∧ twd_name piece = twd_name entry)
    ∧ let bins := first_fit limited 100000 in
      let accepted bin := post bin (default true use_gzip) = Ok () in
      (Forall accepted bins →
       post_multi_time_series_datapoints fuel first_fit post
         timeseries_with_datapoints use_gzip = Some (bins, Ok ()))
      ∧ (∀ (k : nat) failed e,
           bins !! k = Some failed →
           Forall accepted (take k bins) →
           post failed (default true use_gzip) = Raise e →
           post_multi_time_series_datapoints fuel first_fit post
             timeseries_with_datapoints use_gzip
           = Some (take (S k) bins, Raise e)).
Proof.
  intros Hfuel. unfold post_multi_time_series_datapoints.
  destruct (limit_entries_spec fuel 100000 ltac:(lia) _ Hfuel)
    as (limited & Hlimited & Hsmall & Hconcat & Hnames).
  exists limited. rewrite Hlimited. cbn.
  destruct (post_bins_spec post (default true use_gzip)
              (first_fit limited 100000)) as [Hok Hfail].
  split; [done|]. split; [done|]. split; [done|]. split; [done|]. split.
  - intros Hall. by rewrite Hok.
  - intros k failed e Hk Hall Hraise. by rewrite (Hfail k failed e).
Qed.

(** Three entries, each in a bin of its own, the second one rejected: the
    first two bins are posted and the failure is raised. *)
Lemma post_multi_limits_entries_witness :
  post_multi_time_series_datapoints 4 one_entry_per_bin reject_b
    [mkTimeseriesWithDatapoints "a" (numbered 3);
     mkTimeseriesWithDatapoints "b" (numbered 2);
     mkTimeseriesWithDatapoints "c" []] None
  = Some ([[mkTimeseriesWithDatapoints "a" (numbered 3)];
           [mkTimeseriesWithDatapoints "b" (numbered 2)]],
          Raise (FetchFailed "rejected")).
Proof.
  destruct (post_multi_limits_entries 4 one_entry_per_bin reject_b
              [mkTimeseriesWithDatapoints "a" (numbered 3);
               mkTimeseriesWithDatapoints "b" (numbered 2);
               mkTimeseriesWithDatapoints "c" []] None)
    as (limited & Hlimited & _ & _ & _ & _ & Hfail).
  - repeat constructor.
  - vm_compute in Hlimited. injection Hlimited as <-.
    exact (Hfail 1%nat _ _ eq_refl ltac:(by repeat constructor) eq_refl).
Defined.

(** ** [live_data_generator] *)

Lemma live_data_loop_spec polls : ∀ last_timestamp,
  (∀ d, head (live_data_loop last_timestamp polls) = Some d →
        timestamp d ≠ last_timestamp)
  ∧ (∀ i a b, live_data_loop last_timestamp polls !! i = Some a →
              live_data_loop last_timestamp polls !! S i = Some b →
              timestamp a ≠ timestamp b)
  ∧ live_data_loop last_timestamp polls `sublist_of` polls.
Proof.
  induction polls as [|latest polls IH]; intros last; cbn [live_data_loop].
  { repeat split; try done. }
  destruct (IH (timestamp latest)) as (IHhead & IHadj & IHsub).
  destruct (Z.eqb_spec last (timestamp latest)) as [->|Hne]; cbn [app].
  - split; [done|]. split; [done|]. by apply sublist_cons.
  - split; [by intros d [= <-]; auto|]. split; [|by apply sublist_skip].
    intros [|i] a b Ha Hb; cbn in Ha, Hb.
    + injection Ha as <-. apply not_eq_sym, IHhead.
      by destruct (live_data_loop _ _); simplify_eq/=.
    + by apply (IHadj i).
Qed.

(** The datapoints [live_data_generator] yields are some of the answers of
    its polls, in order; the first one does not carry the timestamp that was
    the latest when the generator started, and no two in a row carry the
    same timestamp. *)
Theorem live_data_generator_yields_changes (first : Datapoint)
    (polls : list Datapoint) :
  live_data_generator first polls `sublist_of` polls
  ∧ (∀ d, head (live_data_generator first polls) = Some d →
          timestamp d ≠ timestamp first)
  ∧ (∀ i a b, live_data_generator first polls !! i = Some a →
              live_data_generator first polls !! S i = Some b →
              timestamp a ≠ timestamp b).
Proof.
  unfold live_data_generator.
  destruct (live_data_loop_spec polls (timestamp first)) as (? & ? & ?).
  done.
Qed.

(** ** Dataframes *)

Lemma split_windows_empty_window (_utils : Utils) start end_ num_of_workers g :
  rounds_to_adjacent_multiple (round_to_nearest _utils) →
  end_ ≤ start → 1 ≤ num_of_workers → 1 ≤ g →
  ∃ step_size, step_size ≤ 0
    ∧ split_windows _utils start end_ num_of_workers g
      = Ok (1, [mkWindow start (start + step_size)]).
Proof.
  intros Hround Hes Hw Hg.
  destruct (Hround (end_ - start) g ltac:(lia)) as (k & Hr & Hk).
  exists (k * g). split.
  { apply Z.abs_lt in Hk. destruct (Z.le_gt_cases k 0); nia. }
  unfold split_windows, split_steps, split_step_size, int_truediv.
  destruct (Z.eqb_spec g 0) as [?|_]; [lia|]. cbn.
  assert ((end_ - start) ÷ g ≤ 0).
  { rewrite <- (Z.opp_involutive (end_ - start)), Z.quot_opp_l by lia.
    pose proof (Z.quot_pos (- (end_ - start)) g ltac:(lia) ltac:(lia)). lia. }
  replace (Z.min num_of_workers (Z.max 1 ((end_ - start) ÷ g))) with 1 by lia.
  cbn. rewrite Z.quot_1_r, Hr. cbn. do 2 f_equal.
  change (range 1) with [0]. cbn. do 2 f_equal; lia.
Qed.

Lemma count_aggregates_default (time_series : list TimeSeriesEntry) :
  Forall (fun ts => match ts with
                    | TsDict _ (Some (Some _)) => False
                    | _ => True
                    end) time_series →
  count_aggregates time_series [] = 0.
Proof.
  unfold count_aggregates. intros Hall.
  enough (∀ acc,
            foldl (fun num_aggregates ts =>
                     match ts with
                     | TsDict _ (Some (Some own)) =>
                       num_aggregates + Z.of_nat (length own)
                     | _ => num_aggregates + Z.of_nat (length (@nil string))
                     end) acc time_series = acc) as Hgen by apply Hgen.
  induction time_series as [|ts rest IH]; intros acc; [done|].
  apply Forall_cons in Hall as [Hts Hrest]. cbn [foldl].
  destruct ts as [name|name [[own|]|]]; try done;
    rewrite IH by done; cbn; lia.
Qed.

(** Without anything to aggregate, that is without time series, or with an
    empty list of aggregates and no time series that brings its own,
    [_get_datapoints_frame_helper] raises [ZeroDivisionError] before any
    request. *)
Theorem frame_helper_nothing_to_aggregate (_utils : Utils) (self : Client)
    (post_csv : FrameBody → result DataFrame) (fuel : nat)
    (time_series : list TimeSeriesEntry) (aggregates : list string)
    (granularity : string) (start end_ : Z) :
  time_series = []
  ∨ (aggregates = []
     ∧ Forall (fun ts => match ts with
                         | TsDict _ (Some (Some _)) => False
                         | _ => True
                         end) time_series) →
  _get_datapoints_frame_helper _utils self post_csv fuel time_series
    aggregates granularity start end_
  = ([], Some (Raise ZeroDivisionError)).
Proof.
  intros Hnone. unfold _get_datapoints_frame_helper.
  assert (count_aggregates time_series aggregates = 0) as ->.
  { destruct Hnone as [->|[-> Hall]]; [done|].
    by apply count_aggregates_default. }
  done.
Qed.

Lemma frame_helper_nothing_to_aggregate_witness :
  _get_datapoints_frame_helper spec_utils first_point_client first_row_csv 5
    [TsName "a"; TsDict "b" None] [] "1s" 0 1000
  = ([], Some (Raise ZeroDivisionError)).
Proof.
  apply frame_helper_nothing_to_aggregate. right. split; [done|].
  by repeat constructor.
Defined.

(** On a window with end <= start, [get_datapoints_frame] without a
    user-defined limit issues no request and raises [ValueError]: there is
    no dataframe to concatenate. *)
Theorem get_datapoints_frame_empty_window (_utils : Utils) (self : Client)
    (post_csv : FrameBody → result DataFrame) (fuel : nat)
    (completion : list nat) (time_series : list TimeSeriesEntry)
    (aggregates : list string) (granularity : string) (start end_ : Z)
    (kwargs : Kwargs) (g : Z) :
  rounds_to_adjacent_multiple (round_to_nearest _utils) →
  truthy_int (kw_limit kwargs) = false →
  end_ ≤ start →
  1 ≤ frame_workers_used self kwargs →
  granularity_ms_of _utils (Some granularity) = Ok g →
  1 ≤ g →
  count_aggregates time_series aggregates ≠ 0 →
  get_datapoints_frame _utils self post_csv (S fuel) completion time_series
    aggregates granularity start end_ kwargs
  = Some (Raise ValueError)
  ∧ (_get_datapoints_frame_helper _utils self post_csv (S fuel) time_series
       aggregates granularity start end_).1 = [].
Proof.
  intros Hround Hlimit Hes Hw Hg Hg1 Hnum.
  destruct (split_windows_empty_window _utils start end_
              (frame_workers_used self kwargs) g Hround Hes Hw Hg1)
    as (step_size & _ & Hsplit).
  assert (Hhelper : _get_datapoints_frame_helper _utils self post_csv (S fuel)
                      time_series aggregates granularity start end_
                    = ([], Some (Raise ValueError))).
  { unfold _get_datapoints_frame_helper, int_truediv.
    destruct (Z.eqb_spec (count_aggregates time_series aggregates) 0);
      [done|].
    cbn [frame_paging_loop]. unfold keep_paging_frames. cbn.
    by destruct (Z.gtb_spec end_ start); [lia|]. }
  split; [|by rewrite Hhelper].
  unfold get_datapoints_frame. rewrite Hlimit, Hg. cbn. rewrite Hsplit.
  cbn. by rewrite Hhelper.
Qed.

Lemma get_datapoints_frame_empty_window_witness :
  get_datapoints_frame spec_utils first_point_client first_row_csv 1 []
    [TsName "a"] ["avg"%string] "1s" 500 500 (mkKwargs None None None None)
  = Some (Raise ValueError).
Proof.
  apply (get_datapoints_frame_empty_window spec_utils first_point_client
           first_row_csv 0 [] [TsName "a"] ["avg"%string] "1s" 500 500
           (mkKwargs None None None None) 1000).
  - apply roundDownToMultiple_adjacent.
  - reflexivity.
  - lia.
  - vm_compute. discriminate.
  - reflexivity.
  - lia.
  - vm_compute. discriminate.
Defined.

Lemma frame_paging_loop_end (_utils : Utils)
    (post_csv : FrameBody → result DataFrame) granularity per_tag_limit fuel :
  ∀ dataframes body,
  Forall (fun b => fb_end b = fb_end body)
         (frame_paging_loop _utils post_csv fuel granularity per_tag_limit
                            dataframes body).1.
Proof.
  induction fuel as [|fuel IH]; intros dataframes body;
    cbn [frame_paging_loop]; [constructor|].
  destruct (keep_paging_frames dataframes per_tag_limit body); [|constructor].
  destruct (post_csv body) as [df|e]; [|by apply Forall_singleton].
  destruct (last df) as [row|]; [|by apply Forall_singleton].
  destruct (granularity_to_ms _utils granularity) as [step|e];
    [|by apply Forall_singleton].
  cbn [fst]. constructor; [done|].
  exact (IH (dataframes ++ [df])
            (set_frame_start body (row_timestamp row + step))).
Qed.

(** With one worker, [get_datapoints_frame] without a user-defined limit is
    the serial paging of the window it was given: every request asks up to
    the end the caller gave, whatever the rounding of the step size makes of
    the one sub-window. *)
Theorem get_datapoints_frame_single_step (_utils : Utils) (self : Client)
    (post_csv : FrameBody → result DataFrame) (fuel : nat)
    (completion : list nat) (time_series : list TimeSeriesEntry)
    (aggregates : list string) (granularity : string) (start end_ : Z)
    (kwargs : Kwargs) (g : Z) :
  rounds_to_adjacent_multiple (round_to_nearest _utils) →
  truthy_int (kw_limit kwargs) = false →
  frame_workers_used self kwargs = 1 →
  granularity_ms_of _utils (Some granularity) = Ok g →
  1 ≤ g →
  let run := _get_datapoints_frame_helper _utils self post_csv fuel
               time_series aggregates granularity start end_ in
  get_datapoints_frame _utils self post_csv fuel completion time_series
    aggregates granularity start end_ kwargs = run.2
  ∧ Forall (fun b => fb_end b = end_) run.1
  ∧ (∀ b, head run.1 = Some b → fb_start b = start).
Proof.
  intros Hround Hlimit Hw Hg Hg1 run. split; [|split].
  - unfold get_datapoints_frame. rewrite Hlimit, Hg, Hw. cbn.
    unfold split_windows, split_steps, split_step_size, int_truediv.
    destruct (Z.eqb_spec g 0) as [?|_]; [lia|]. cbn.
    replace (Z.min 1 (Z.max 1 ((end_ - start) ÷ g))) with 1 by lia.
    cbn. rewrite Z.quot_1_r.
    by destruct (Hround (end_ - start) g ltac:(lia)) as (k & -> & _).
  - subst run. unfold _get_datapoints_frame_helper.
    destruct (int_truediv _ _) as [per_tag_limit|]; [|constructor].
    cbn [fst].
    exact (frame_paging_loop_end _utils post_csv granularity per_tag_limit
             fuel []
             (mkFrameBody (frame_item <$> time_series) aggregates granularity
                          start end_ per_tag_limit)).
  - subst run. unfold _get_datapoints_frame_helper.
    destruct (int_truediv _ _) as [per_tag_limit|]; [|done]. cbn [fst].
    destruct fuel as [|fuel]; [done|]. cbn [frame_paging_loop].
    destruct (keep_paging_frames _ _ _); [|done].
    destruct (post_csv _) as [df|e]; [|by intros b [= <-]].
    destruct (last df) as [row|]; [|by intros b [= <-]].
    destruct (granularity_to_ms _utils granularity) as [step|e];
      by intros b [= <-].
Qed.

Lemma get_datapoints_frame_single_step_witness :
  get_datapoints_frame spec_utils first_point_client first_row_csv 5 []
    [TsName "a"] ["avg"%string] "1s" 0 2500 (mkKwargs None (Some 1) None None)
  = Some (Ok [mkRow 0 [NumericValue 0]])
  ∧ Forall (fun b => fb_end b = 2500)
      (_get_datapoints_frame_helper spec_utils first_point_client
         first_row_csv 5 [TsName "a"] ["avg"%string] "1s" 0 2500).1.
Proof.
  destruct (get_datapoints_frame_single_step spec_utils first_point_client
              first_row_csv 5 [] [TsName "a"] ["avg"%string] "1s" 0 2500
              (mkKwargs None (Some 1) None None) 1000)
    as (Heq & Hend & _).
  - apply roundDownToMultiple_adjacent.
  - reflexivity.
  - reflexivity.
  - reflexivity.
  - lia.
  - split; [by rewrite Heq|exact Hend].
Defined.

Lemma drop_duplicates_from_spec (df : DataFrame) : ∀ seen,
  NoDup (row_timestamp <$> drop_duplicates_from seen df)
  ∧ (∀ row, row ∈ drop_duplicates_from seen df →
            row ∈ df ∧ row_timestamp row ∉ seen)
  ∧ (∀ row, row ∈ df → row_timestamp row ∉ seen →
            row_timestamp row
            ∈ row_timestamp <$> drop_duplicates_from seen df).
Proof.
  induction df as [|row0 rest IH]; intros seen; cbn [drop_duplicates_from].
  { split; [constructor|]. split; by intros ? ?%elem_of_nil. }
  case_bool_decide as Hseen.
  - destruct (IH seen) as (Hnd & Hin & Hall). split; [done|]. split.
    + intros row [? ?]%Hin. split; [by apply elem_of_cons; right|done].
    + intros row [->|?]%elem_of_cons ?; [done|by apply Hall].
  - destruct (IH (row_timestamp row0 :: seen)) as (Hnd & Hin & Hall).
    split; [|split].
    + cbn. apply NoDup_cons. split; [|done].
      intros (row & Heq & [_ Hrow]%Hin)%list_elem_of_fmap.
      apply Hrow. rewrite Heq. by apply elem_of_cons; left.
    + intros row [->|[? Hrow]%Hin]%elem_of_cons.
      * split; [by apply elem_of_cons; left|done].
      * split; [by apply elem_of_cons; right|].
        intros ?. apply Hrow. by apply elem_of_cons; right.
    + intros row Hrow Hnew. cbn.
      destruct (decide (row_timestamp row = row_timestamp row0)) as [->|Hne];
        [by apply elem_of_cons; left|].
      apply elem_of_cons; right.
      apply elem_of_cons in Hrow as [->|Hrow]; [done|].
      apply Hall; [done|]. by intros [?|?]%elem_of_cons.
Qed.

(** When [get_datapoints_frame] fans out over two or more sub-windows, the
    dataframe it returns has no two rows with the same timestamp. *)
Theorem get_datapoints_frame_no_duplicate_rows (_utils : Utils) (self : Client)
    (post_csv : FrameBody → result DataFrame) (fuel : nat)
    (completion : list nat) (time_series : list TimeSeriesEntry)
    (aggregates : list string) (granularity : string) (start end_ : Z)
    (kwargs : Kwargs) (g : Z) (df : DataFrame) :
  truthy_int (kw_limit kwargs) = false →
  2 ≤ frame_workers_used self kwargs →
  granularity_ms_of _utils (Some granularity) = Ok g →
  1 ≤ g →
  2 * g ≤ end_ - start →
  get_datapoints_frame _utils self post_csv fuel completion time_series
    aggregates granularity start end_ kwargs = Some (Ok df) →
  NoDup (row_timestamp <$> df).
Proof.
  intros Hlimit Hw Hg Hg1 Hlong. unfold get_datapoints_frame.
  rewrite Hlimit, Hg. cbn.
  unfold split_windows, split_steps, int_truediv.
  destruct (Z.eqb_spec g 0) as [?|_]; [lia|]. cbn.
  assert (2 ≤ (end_ - start) ÷ g).
  { rewrite Z.quot_div_nonneg by lia. apply Z.div_le_lower_bound; lia. }
  set (steps := Z.min _ _). assert (2 ≤ steps) by (subst steps; lia).
  destruct (split_step_size _ _ _ _) as [step_size|]; [|done]. cbn.
  destruct (Z.eqb_spec steps 1); [lia|].
  destruct (Z.leb_spec steps 0); [lia|].
  destruct (await_all _) as [dataframes|]; [|done]. cbn.
  destruct (collect_frames dataframes) as [frames|]; [|done]. cbn.
  destruct (pd_concat frames) as [rows|]; [|done]. cbn.
  intros [= <-]. apply (drop_duplicates_from_spec rows []).
Qed.

Lemma get_datapoints_frame_no_duplicate_rows_witness :
  get_datapoints_frame spec_utils first_point_client first_row_csv 5
    [1; 0]%nat [TsName "a"] ["avg"%string] "1s" 0 4000
    (mkKwargs None (Some 2) None None)
  = Some (Ok [mkRow 0 [NumericValue 0]; mkRow 2000 [NumericValue 0]])
  ∧ NoDup (row_timestamp
             <$> [mkRow 0 [NumericValue 0]; mkRow 2000 [NumericValue 0]]).
Proof.
  split; [reflexivity|].
  apply (get_datapoints_frame_no_duplicate_rows spec_utils first_point_client
           first_row_csv 5 [1; 0]%nat [TsName "a"] ["avg"%string] "1s" 0 4000
           (mkKwargs None (Some 2) None None) 1000).
  - reflexivity.
  - vm_compute. discriminate.
  - reflexivity.
  - lia.
  - lia.
  - reflexivity.
Defined.

(** ** Budgets when no query asks for raw data with the empty string *)

Lemma count_queries_filter (aggregates : option (list string)) (h : heap)
    (datapoints_queries : list loc) :
  count_queries aggregates h datapoints_queries
  = (Z.of_nat (length (filter (fun l => counted_as_raw aggregates (h !!! l)
                                        = false) datapoints_queries)),
     Z.of_nat (length (filter (fun l => counted_as_raw aggregates (h !!! l)
                                        = true) datapoints_queries))).
Proof.
  unfold count_queries.
  enough (∀ queries acc,
            foldl (fun counts l =>
                     if counted_as_raw aggregates (h !!! l)
                     then (counts.1, counts.2 + 1)
                     else (counts.1 + 1, counts.2)) acc queries
            = (acc.1 + Z.of_nat (length (filter
                 (fun l => counted_as_raw aggregates (h !!! l) = false)
                 queries)),
               acc.2 + Z.of_nat (length (filter
                 (fun l => counted_as_raw aggregates (h !!! l) = true)
                 queries)))) as Hgen by apply (Hgen _ (0, 0)).
  induction queries as [|l0 rest IH]; intros [a b]; cbn [foldl].
  { cbn. f_equal; lia. }
  rewrite IH, !filter_cons.
  destruct (counted_as_raw aggregates (h !!! l0)) eqn:Hraw; cbn;
    repeat case_decide; try done; cbn; f_equal; lia.
Qed.

(** When no query of the list stores the empty string as its aggregates,
    the two loops of [get_multi_time_series_datapoints] agree on the class of
    every query: no division raises, and every query gets the budget of its
    class divided by the number of queries of that class, [_LIMIT] for the
    raw ones and [_LIMIT_AGG] for the others. *)
Theorem budgets_follow_counts (self : Client)
    (aggregates : option (list string)) (h : heap)
    (datapoints_queries : list loc) :
  NoDup datapoints_queries →
  (∀ l, l ∈ datapoints_queries → dq_aggregates (h !!! l) ≠ Some ""%string) →
  let counts := count_queries aggregates h datapoints_queries in
  let num_raw :=
    Z.of_nat (length (filter (fun l => counted_as_raw aggregates (h !!! l)
                                       = true) datapoints_queries)) in
  let num_with_agg :=
    Z.of_nat (length (filter (fun l => counted_as_raw aggregates (h !!! l)
                                       = false) datapoints_queries)) in
  let run := assign_limits self aggregates counts.1 counts.2
                           datapoints_queries h in
  counts = (num_with_agg, num_raw)
  ∧ run.2 = Ok ()
  ∧ ∀ l, l ∈ datapoints_queries →
      dq_limit (run.1 !!! l)
      = Some (if counted_as_raw aggregates (h !!! l)
              then _LIMIT self ÷ num_raw
              else _LIMIT_AGG self ÷ num_with_agg).
Proof.
  intros Hdistinct Hplain counts num_raw num_with_agg run.
  assert (Hcounts : counts = (num_with_agg, num_raw))
    by apply count_queries_filter.
  assert (Hlimit : ∀ l, l ∈ datapoints_queries →
             query_limit self aggregates num_with_agg num_raw (h !!! l)
             = Ok (if counted_as_raw aggregates (h !!! l)
                   then _LIMIT self ÷ num_raw
                   else _LIMIT_AGG self ÷ num_with_agg)).
  { intros l Hl. unfold query_limit.
    assert (budgeted_as_raw aggregates (h !!! l)
            = counted_as_raw aggregates (h !!! l)) as ->.
    { unfold counted_as_raw, budgeted_as_raw.
      rewrite (bool_decide_eq_false_2 (dq_aggregates (h !!! l) = Some ""%string))
        by by apply Hplain.
      by rewrite orb_false_r. }
    unfold int_truediv.
    destruct (counted_as_raw aggregates (h !!! l)) eqn:Hraw.
    - assert (l ∈ filter (fun l => counted_as_raw aggregates (h !!! l) = true)
                         datapoints_queries) as Hin
        by by apply list_elem_of_filter.
      destruct (Z.eqb_spec num_raw 0) as [Hz|_]; [|done].
      subst num_raw. apply list_elem_of_lookup in Hin as [i Hi].
      apply lookup_lt_Some in Hi. lia.
    - assert (l ∈ filter (fun l => counted_as_raw aggregates (h !!! l) = false)
                         datapoints_queries) as Hin
        by by apply list_elem_of_filter.
      destruct (Z.eqb_spec num_with_agg 0) as [Hz|_]; [|done].
      subst num_with_agg. apply list_elem_of_lookup in Hin as [i Hi].
      apply lookup_lt_Some in Hi. lia. }
  split; [done|]. subst run. rewrite Hcounts. cbn [fst snd].
  pose proof (assign_limits_ok self aggregates num_with_agg num_raw
                datapoints_queries h
                ltac:(by intros l' ?; eexists; apply Hlimit)) as Hok.
  split; [done|]. intros l Hl.
  destruct (assign_limits self aggregates num_with_agg num_raw
              datapoints_queries h) as [h' out] eqn:Hassign.
  cbn in Hok. subst out. cbn [fst].
  destruct (proj1 (assign_limits_spec self aggregates num_with_agg num_raw
                     datapoints_queries h h' Hdistinct Hassign l) Hl)
    as (limit & Hq & ->).
  rewrite (Hlimit l Hl) in Hq. injection Hq as <-. done.
Qed.

Lemma budgets_follow_counts_witness :
  count_queries None two_queries [0; 1]%nat = (0, 2)
  ∧ dq_limit ((assign_limits batch_client None 0 2 [0; 1]%nat two_queries).1
                !!! 1%nat) = Some 50000.
Proof.
  destruct (budgets_follow_counts batch_client None two_queries [0; 1]%nat)
    as (Hcounts & _ & Hlimits).
  - apply NoDup_cons. split; [by intros [=]%list_elem_of_singleton|].
    apply NoDup_singleton.
  - intros l Hl.
    repeat (apply elem_of_cons in Hl as [->|Hl]);
      [done..|by apply elem_of_nil in Hl].
  - split; [exact Hcounts|].
    specialize (Hlimits 1%nat ltac:(by apply list_elem_of_lookup; exists 1%nat)).
    rewrite Hcounts in Hlimits. exact Hlimits.
Defined.

(** ** Progress of the dataframe paging *)

Section FramePaging.

Variable _utils : Utils.
Variable post_csv : FrameBody → result DataFrame.
Variables (granularity : string) (per_tag_limit step : Z).
Hypothesis step_eq : granularity_to_ms _utils granularity = Ok step.
Hypothesis step_pos : 1 ≤ step.
Hypothesis rows_after_start : ∀ body df,
  post_csv body = Ok df → Forall (fun row => fb_start body ≤ row_timestamp row) df.

Lemma frame_paging_loop_progress fuel : ∀ dataframes body,
  Z.max 0 (ceil_div (fb_end body - fb_start body) step) < Z.of_nat fuel →
  let run := frame_paging_loop _utils post_csv fuel granularity per_tag_limit
                               dataframes body in
  run.2 ≠ None
  ∧ Z.of_nat (length run.1)
    ≤ Z.max 0 (ceil_div (fb_end body - fb_start body) step)
  ∧ Forall (fun b => fb_start body ≤ fb_start b) run.1
  ∧ StronglySorted (fun a b => fb_start a < fb_start b) run.1.
Proof.
  induction fuel as [|fuel IH]; intros dataframes body Hfuel; [lia|].
  cbn zeta. cbn [frame_paging_loop].
  destruct (keep_paging_frames dataframes per_tag_limit body) eqn:Hkeep;
    cycle 1.
  { cbn. repeat split; (done || constructor || lia). }
  apply andb_prop in Hkeep as [_ Hlt%Z.gtb_lt].
  assert (1 ≤ ceil_div (fb_end body - fb_start body) step)
    by (apply ceil_div_pos; lia).
  destruct (post_csv body) as [df|e] eqn:Hpost.
  2:{ cbn. repeat split; try done; [lia|by apply Forall_singleton|].
      repeat constructor. }
  destruct (last df) as [row|] eqn:Hlast.
  2:{ cbn. repeat split; try done; [lia|by apply Forall_singleton|].
      repeat constructor. }
  rewrite step_eq.
  assert (fb_start body ≤ row_timestamp row) as Hrow.
  { apply rows_after_start in Hpost. apply last_Some in Hlast as [l ->].
    apply Forall_app in Hpost as [_ Hpost]. by rewrite Forall_singleton in Hpost. }
  pose proof (ceil_div_advance (fb_end body) (fb_start body)
                (row_timestamp row + step) step step_pos ltac:(lia)
                ltac:(lia)) as Hadv.
  destruct (IH (dataframes ++ [df])
              (set_frame_start body (row_timestamp row + step)))
    as (Hret & Hlen & Hge & Hsorted); [cbn; lia|].
  cbn in Hlen, Hge. cbn [fst snd].
  split; [exact Hret|]. split; [rewrite length_cons; lia|]. split.
  - constructor; [lia|]. eapply Forall_impl; [exact Hge|]. cbn. intros; lia.
  - constructor; [exact Hsorted|].
    eapply Forall_impl; [exact Hge|]. cbn. intros; lia.
Qed.

End FramePaging.

(** Against a server whose rows are at or after the requested start, and
    with a granularity of at least 1 ms, [_get_datapoints_frame_helper]
    stops by itself: the start of its requests goes up strictly, and it
    issues at most ceil((end - start) / granularity) of them. *)
Theorem frame_helper_terminates (_utils : Utils) (self : Client)
    (post_csv : FrameBody → result DataFrame) (fuel : nat)
    (time_series : list TimeSeriesEntry) (aggregates : list string)
    (granularity : string) (start end_ step : Z) :
  granularity_to_ms _utils granularity = Ok step →
  1 ≤ step →
  (∀ body df, post_csv body = Ok df →
              Forall (fun row => fb_start body ≤ row_timestamp row) df) →
  Z.max 0 (ceil_div (end_ - start) step) < Z.of_nat fuel →
  let run := _get_datapoints_frame_helper _utils self post_csv fuel
               time_series aggregates granularity start end_ in
  run.2 ≠ None
  ∧ StronglySorted (fun a b => fb_start a < fb_start b) run.1
  ∧ Z.of_nat (length run.1) ≤ Z.max 0 (ceil_div (end_ - start) step).
Proof.
  intros Hstep Hpos Hrows Hfuel run. subst run.
  unfold _get_datapoints_frame_helper.
  destruct (int_truediv _ _) as [per_tag_limit|e].
  2:{ cbn. split; [done|]. split; [constructor|lia]. }
  destruct (frame_paging_loop_progress _utils post_csv granularity
              per_tag_limit step Hstep Hpos Hrows fuel []
              (mkFrameBody (frame_item <$> time_series) aggregates granularity
                           start end_ per_tag_limit) Hfuel)
    as (Hret & Hlen & _ & Hsorted).
  cbn [fb_start fb_end] in Hlen. cbn [fst snd].
  split; [|done].
  by destruct (frame_paging_loop _ _ _ _ _ _ _).2 as [[?|?]|].
Qed.

Lemma frame_helper_terminates_witness :
  (_get_datapoints_frame_helper spec_utils first_point_client first_row_csv
     5 [TsName "a"] ["avg"%string] "1s" 0 2500).2
  = Some (Ok [mkRow 0 [NumericValue 0]])
  ∧ Z.of_nat (length (_get_datapoints_frame_helper spec_utils
                        first_point_client first_row_csv 5 [TsName "a"]
                        ["avg"%string] "1s" 0 2500).1) ≤ 3.
Proof.
  destruct (frame_helper_terminates spec_utils first_point_client
              first_row_csv 5 [TsName "a"] ["avg"%string] "1s" 0 2500 1000)
    as (_ & _ & Hlen).
  - reflexivity.
  - lia.
  - intros body df. unfold first_row_csv.
    destruct (fb_start body <? fb_end body); intros [= <-].
    + apply Forall_singleton. cbn. lia.
    + constructor.
  - vm_compute. reflexivity.
  - split; [reflexivity|]. exact Hlen.
Defined.
